(* ===== verification/_CoqProject ===== *)
-Q . S2P
Prelude.v
View.v
AppRoutes.v
Amount.v
AmountValue.v
Submitter.v
Config.v
MintStatuses.v
DepositProperties.v
MintH2H.v
H2HPage.v
H2HScreens.v
TreeTyping.v
H2HSpec.v
H2HRefinement.v
H2HProgress.v
H2HComplete.v
H2HClosures.v
H2HFlow.v
H2HProperties.v
CompositeProperties.v
FlowProperties.v
