(* ===== verification/Prelude.v ===== *)
(** * Verification of the bridge front-end (merlinprotocol/bridge-v2)

    The program is the browser front-end of a cross-chain bridge: React
    function components that read the transaction objects of the bridging
    SDK and render progress screens, and that submit the legs of a mint
    through the hook [useChainTransactionSubmitter].  Three files are under
    src/: [App.tsx] (the router), [MintStatuses.tsx] (deposit screens) and
    [MintH2HStatuses.tsx] (host-to-host mint screens).

    ** How the program is modelled

    A React function component is a function from its props (and the values
    its hooks return) to an element tree.  The tree is data ([View.Node]):
    one node per JSX element with its tag, its props in source order and its
    children; [cond && <X/>] is the value JavaScript gives it ([false] or
    the element).  A render that throws is an [Err] of the monad [result].
    The effects a component registers with [useEffect] are state-passing
    functions over the ambient providers, each with its cleanup.  A
    JavaScript [number] is a [Z], [T | null] is [option T], a string is a
    [string]; truthiness ([Boolean(x)], [x && y], [x || y], [if (x)]) is the
    class [Truthy].  What the sources import and only call is a class of
    collaborators, so that the theorems hold for every instance.

    The files, in the order of their dependencies:

    - [Prelude] (this file): the [result] monad of fallible renders, JS
      truthiness, runs of a transition function, the tactics and the hint
      database [bridge].
    - [View]: element trees, the tags of the component library, the queries
      on trees ([subnodes], [prop], [find_all], [count]) and [clickable],
      the handlers a rendered tree offers to the user.
    - [AppRoutes]: [mainPagePaths] and [App] of src/src/App.tsx, and the
      page the router shows for a location.
    - [Amount]: the part of bignumber.js behind
      [new BigNumber(lockAmount).shiftedBy(-lockAssetDecimals).toString()]:
      the constructor on decimal literals, [shiftedBy], [toString].
    - [AmountValue]: the rational number a [BigNumber] stands for, the
      reference [formatAmount] is compared with.
    - [Submitter]: the contract of [useChainTransactionSubmitter] (the hook
      is imported, not defined, by the sources): phases, [submit], [reset],
      the SDK's answers, taken from the specification.
    - [Config]: the gateway object by the fields the sources read, the asset
      and chain registries, the theme and the clock as classes
      ([getAssetConfig], [getChainConfig], [getRemainingTime], [getHours],
      [GATEWAY_EXPIRY_OFFSET_MS]), and sample instances for the witnesses.
    - [MintStatuses]: [MintDepositConfirmationStatus], [maxConfirmations]
      and [MintDepositAcceptedStatus] of
      src/src/features/gateway/steps/mint/MintStatuses.tsx, their effects on
      the title and notification providers, and the component's life as
      steps on [Mount], [Render] and [Unmount].
    - [DepositProperties]: the theorems on those two screens.
    - [MintH2H]: [MintH2HLockTransactionStatus],
      [MintH2HLockTransactionProgressStatus],
      [MintH2HMintTransactionProgressStatus] and [handleSubmitBoth] of
      src/src/features/gateway/steps/mint/MintH2HStatuses.tsx, the submitters
      a screen owns ([PageState]) and the callbacks that drive them.
    - [H2HPage]: a mounted screen as a transition system on clicks and SDK
      answers, and the invariant of the two-leg screens, proved against the
      interface [TwoLegScreen]: what a screen offers, and the promise that
      it offers only what [offers_both] allows.
    - [H2HScreens]: the three screens mounted, the proof that each tree
      offers only what [offers_both] allows, and the two progress screens
      as instances of [TwoLegScreen].
    - [TreeTyping]: every tree the five components and [App] return is
      well formed ([View.well_formed]).
    - [H2HSpec]: the composite submission of two legs as the specification
      describes it (sections 4.1 and 5), an abstract machine [cstep] with
      the sequencing policy as a parameter ([FailFast], [Continue]), the
      functions [cnext] and [crun] that compute its steps and runs, and
      its invariants by induction on its runs.
    - [H2HRefinement]: the abstraction [abs] from the state of a screen to
      the machine, the labels a run is observed to take, and the simulation:
      every step of a [TwoLegScreen] is a step of the [Continue] machine or
      silent.
    - [H2HProgress]: the measure [pending] that every effective answer of
      the SDK decreases, and the answers ([drain]) that bring a screen to
      rest.
    - [H2HComplete]: the converse of the simulation: [realise_run] computes,
      for a run of the [Continue] machine, a run of the screen that is
      observed to take it.
    - [H2HClosures]: a second model of [handleSubmitBoth], in which the
      call after the first [await] reads the out submitter that the closure
      captured at the click, and its equivalence with [MintH2H] on the
      two-leg screens.
    - [H2HFlow]: the three screens shown one after the other, each view
      with submitters of its own ([Flow], [show], [flow_step]), the log of
      external submissions that outlives the views, and the projection of
      a flow onto the reachable states of the screen shown.
    - [H2HProperties]: the theorems on the three host-to-host screens.
    - [CompositeProperties]: the theorems that relate the two progress
      screens to the composite submission.
    - [FlowProperties]: the theorems on flows.

    ** What the theorems show

    - Two-leg submission ([H2HProperties]): in every reachable state the
      RenVM leg and the out leg are never in flight together, every settled
      RenVM submission is followed by one submission of the out leg, and the
      submitters are well formed.  [handleSubmitBoth] is not fail-fast: the
      out leg is submitted after a rejected RenVM leg too; and once the
      RenVM leg is done the screen can never submit again.  When the SDK
      accepts and completes both legs, one click carries the run to both
      legs done with exactly two submissions.
    - Refinement ([CompositeProperties]): every run of the lock progress
      screen is a run of the composite submission under the policy
      [Continue], and under [FailFast], the policy of the specification,
      only as long as the RenVM leg is not rejected; after a rejection the
      screen is in a state the fail-fast machine cannot reach.  Conversely
      every run of the [Continue] machine is observed of a run of the
      screen, computed from its labels: the machine has the traces of the
      screen and no others.  From the machine's invariants: the
      submissions alternate between the two legs, and there are at most
      two of them per click.
    - Flows ([FlowProperties]): across the views of a mint the log of
      external submissions is the concatenation of the logs of the views,
      so every submission of the out leg directly follows one of the RenVM
      leg; nothing is submitted without a click on a submit button; but
      the guard of a submitter lasts one view: a newly mounted mint
      progress screen submits the RenVM leg again on a click, whatever the
      view before had reached.
    - Termination and bounds: every answer of the SDK that changes the
      state decreases [H2HProgress.pending], so the relation [answered] is
      well founded; at most four answers have an effect from a reachable
      state, and four answers suffice to bring the screen to rest.
    - Closures: the state that [handleSubmitBoth] captured at the click and
      the state at the time of the second call agree on the guard of
      [out.handleSubmit], so both readings of [useCallback] give the same
      runs.
    - Well-formed trees ([TreeTyping]): on every branch of their
      conditional rendering the components return trees with renderable
      children, functions as listeners and no prop named twice.
    - Lock screen: one click, one external submission; a second click is
      ignored; an error opens the dialog, reset and a new click submit
      again; which handlers the tree offers in each phase; the receiving
      block carries a USD equivalent exactly when the price is known.
    - Amounts ([Amount], [AmountValue]): the formatted string denotes the
      amount over ten to the decimals, in exact rational arithmetic; the
      round trip of the decimal shift; the formatted string is canonical;
      where the decimal point lands; the exponential
      notation of small amounts; NaN for a malformed amount that the
      library does not rewrite ([Amount.plain]); 0 and Infinity beyond the
      exponent range.  Numbers are compared up to the sign of zero
      ([BigNumber_equiv]), which [toString] does not print.
    - Deposit screens ([DepositProperties]): the notifications of the
      accepted screen over its life (the invariant, release on unmount, the
      deposit notification that is never shown; and, of a service that
      closes every notification on an undefined key, that whatever runs
      the cleanup of the notification effect leaves none, because the key
      is undefined in every reachable state), stated of the two screens
      under the same providers ([MintStatuses.deposit_step]), their events
      interleaved in any order; the title that follows the status; the
      placeholders and the failures of the confirmation screen; the stubs
      of the accepted screen.
    - Routes ([AppRoutes]): one page per location, by the first route that
      matches; the not-found page exactly when no path matches.

    ** Bounds and fuel

    No definition uses fuel: every recursion is structural (on strings, on
    lists of characters, on lists of events, on trees).  The loop of the
    program is its event loop: runs are lists of events, and that the
    answers of the SDK cannot go on changing the state is proved by the
    measure [H2HProgress.pending] (at most 8, at most 4 on a reachable
    state of a two-leg screen).  Numbers are unbounded integers, with
    the limits of bignumber.js written out where
    the library checks them: exponents between -1e7 and 1e7, the range of
    a library that is not configured (overflow to infinity, underflow to
    zero), arguments of [shiftedBy] within the safe
    integers (it throws outside), exponential notation at exponents at most
    -7 or at least 21.  The theorems on amounts state the ranges they need.
    The keys of the notification service are positive and increasing
    ([MintStatuses.fresh]); the theorems on notifications assume it of the
    initial providers and prove it preserved.

    ** Not modelled

    Styling, layout and what the component library renders for a tag; the
    texts behind the translation keys ([t] is a parameter); the SDK's chain
    interaction behind [submit] (its answers are the events [Accepted],
    [Completed], [Rejected]); the wallet hooks beyond the values the
    components read; [console.log] and the unused [useSelector($wallet)] of
    the lock progress screen; the prop [transaction] where a component does
    not read it.  How the submitter hook builds [handleSubmit] is not
    known from the sources: [MintH2H] evaluates its guard when it is
    called, [H2HClosures] on the state its closure captured, and the two
    are proved to agree on the two-leg screens.  Of React's checks on a
    tree, the three of [View.well_formed]; the prop types of the component
    library are not among the sources; nor is whether an open error dialog
    keeps a click from the button behind it: [View.triggers] assumes the
    least and offers the handler of an enabled button beside those of an
    open dialog, so the theorems over all runs cover every click a user
    can make; the runs that [H2HComplete] computes click the button under
    the same assumption, also beside an open dialog.  Of bignumber.js, what the
    constructor does before it gives up on a string that is no decimal
    literal: it removes white space at the ends and a plus sign in front,
    and reads a prefix 0x, 0b or 0o; [Amount.plain] is the set of strings
    without them, on which the model is the constructor, and the theorem
    on malformed amounts assumes it.  The hooks of providers/TitleProviders
    are taken to set the title and the flag in an effect, which React
    runs after a render that completed; what they do on unmount is not
    known from the sources and is left out.  What the notification
    service does with an undefined key is a parameter
    ([MintStatuses.NotificationService]).
    Of the specification, [toUsd] (the USD amount reaches the screens as
    the prop [outputAmountUsd]) and the choice of the screen for a status
    (section 4.3), which the parent of these components makes: neither
    has code among the sources, and [H2HFlow] takes the choice of the
    screen as an event.  Props of type number are integers in the model:
    fractions and NaN are left out.  Dependencies of effects are compared
    by value, where React compares references. *)

From Stdlib Require Import ZArith Lia.
From stdpp Require Import base tactics option list numbers strings.

#[global] Set Warnings "-clear-no-such-hyp".

Declare Scope bridge_scope.
Delimit Scope bridge_scope with bridge.
#[global] Open Scope bridge_scope.

(** ** Fallible computations *)

Inductive result (E A : Type) : Type :=
| Ok (a : A)
| Err (e : E).
Arguments Ok {E A} a.
Arguments Err {E A} e.

#[export] Instance result_ret {E} : MRet (result E) := fun _ a => Ok a.
#[export] Instance result_bind {E} : MBind (result E) :=
  fun _ _ f m => match m with Ok a => f a | Err e => Err e end.
#[export] Instance result_fmap {E} : FMap (result E) :=
  fun _ _ f m => match m with Ok a => Ok (f a) | Err e => Err e end.

Definition of_option {E A} (e : E) (o : option A) : result E A :=
  match o with Some a => Ok a | None => Err e end.

Definition is_Ok {E A} (r : result E A) : bool :=
  match r with Ok _ => true | Err _ => false end.

(** ** JavaScript truthiness

    [Boolean(x)]: [false], [0], the empty string, [null] and [undefined] are
    falsy.  An absent value is [None]. *)

Class Truthy (A : Type) := truthy : A -> bool.
#[global] Hint Mode Truthy ! : typeclass_instances.

#[export] Instance truthy_bool : Truthy bool := fun b => b.
#[export] Instance truthy_Z : Truthy Z := fun n => negb (n =? 0)%Z.
#[export] Instance truthy_string : Truthy string :=
  fun s => match s with EmptyString => false | String _ _ => true end.
#[export] Instance truthy_option {A} `{Truthy A} : Truthy (option A) :=
  fun o => match o with Some a => truthy a | None => false end.

(** [a || b] on values: [a] when it is truthy, else [b]. *)
Definition js_or {A} `{Truthy A} (a b : A) : A := if truthy a then a else b.

(** [a || b] where [a] may be undefined. *)
Definition or_else {A} `{Truthy A} (a : option A) (b : A) : A :=
  match a with Some x => if truthy x then x else b | None => b end.

(** [a !== null && b !== null ? f a b : null]. *)
Definition both {A B} (a : option A) (b : option B) : option (A * B) :=
  match a, b with Some x, Some y => Some (x, y) | _, _ => None end.

Notation "a '|||' b" := (js_or a b) (at level 50, left associativity) : bridge_scope.

(** ** Runs of a transition function *)

Definition run_events {S E} (step : E -> S -> S) (tr : list E) (s : S) : S :=
  foldl (fun s e => step e s) s tr.

(** ** Tactics and hints *)

Create HintDb bridge discriminated.
Create Rewrite HintDb bridge.

(** Turn boolean facts into propositions, [BoolUtil]-style. *)
Ltac do_bool :=
  repeat match goal with
  | H : andb _ _ = true |- _ => apply andb_true_iff in H; destruct H
  | H : andb _ _ = false |- _ => apply andb_false_iff in H
  | H : orb _ _ = true |- _ => apply orb_true_iff in H
  | H : orb _ _ = false |- _ => apply orb_false_iff in H; destruct H
  | H : negb _ = true |- _ => apply negb_true_iff in H
  | H : negb _ = false |- _ => apply negb_false_iff in H
  | H : (_ =? _)%Z = true |- _ => apply Z.eqb_eq in H
  | H : (_ =? _)%Z = false |- _ => apply Z.eqb_neq in H
  | H : (_ <? _)%Z = true |- _ => apply Z.ltb_lt in H
  | H : (_ <? _)%Z = false |- _ => apply Z.ltb_ge in H
  | H : (_ <=? _)%Z = true |- _ => apply Z.leb_le in H
  | H : (_ <=? _)%Z = false |- _ => apply Z.leb_gt in H
  | H : (_ >? _)%Z = true |- _ => rewrite Z.gtb_ltb in H
  | H : (_ >? _)%Z = false |- _ => rewrite Z.gtb_ltb in H
  end.

(** Case analysis on every boolean variable of the goal. *)
Ltac bool_cases :=
  repeat match goal with
  | b : bool |- _ => destruct b
  end; simpl in *; try done.

(** Invert an equation between results. *)
Ltac simplify_result :=
  repeat match goal with
  | H : Ok _ = Ok _ |- _ => injection H as H
  | H : Err _ = Err _ |- _ => injection H as H
  | H : Ok _ = Err _ |- _ => discriminate H
  | H : Err _ = Ok _ |- _ => discriminate H
  | H : mbind _ ?m = Ok _ |- _ => destruct m eqn:?; simpl in H
  | H : mbind _ ?m = Err _ |- _ => destruct m eqn:?; simpl in H
  end; simplify_eq.

Section result_lemmas.
Context {E A B : Type}.
Implicit Types (m : result E A) (f : A -> result E B).

Lemma bind_Ok_iff m f b :
  m ≫= f = Ok b <-> exists a, m = Ok a /\ f a = Ok b.
Proof. destruct m; simpl; naive_solver. Qed.

Lemma bind_Err_iff m f e :
  m ≫= f = Err e <-> m = Err e \/ exists a, m = Ok a /\ f a = Err e.
Proof. destruct m; simpl; naive_solver. Qed.

Lemma of_option_Ok (e : E) (o : option A) a :
  of_option e o = Ok a <-> o = Some a.
Proof. destruct o; simpl; naive_solver. Qed.

Lemma of_option_Err (e e' : E) (o : option A) :
  of_option e o = Err e' <-> o = None /\ e = e'.
Proof. destruct o; simpl; naive_solver. Qed.

End result_lemmas.

Section truthy_lemmas.

Lemma truthy_Z_iff (n : Z) : truthy n = true <-> n <> 0%Z.
Proof. unfold truthy, truthy_Z. rewrite negb_true_iff, Z.eqb_neq. done. Qed.

Lemma truthy_string_iff (s : string) : truthy s = true <-> s <> EmptyString.
Proof. destruct s; unfold truthy, truthy_string; naive_solver. Qed.

Lemma truthy_None {A} `{Truthy A} : truthy (@None A) = false.
Proof. reflexivity. Qed.

Lemma js_or_truthy {A} `{Truthy A} (a b : A) : truthy a = true -> js_or a b = a.
Proof. unfold js_or. by intros ->. Qed.

Lemma js_or_falsy {A} `{Truthy A} (a b : A) : truthy a = false -> js_or a b = b.
Proof. unfold js_or. by intros ->. Qed.

Lemma both_Some {A B} (a : option A) (b : option B) x y :
  both a b = Some (x, y) <-> a = Some x /\ b = Some y.
Proof. destruct a, b; simpl; naive_solver. Qed.

Lemma both_None {A B} (a : option A) (b : option B) :
  both a b = None <-> a = None \/ b = None.
Proof. destruct a, b; simpl; naive_solver. Qed.

End truthy_lemmas.

Section run_lemmas.
Context {S E : Type} (step : E -> S -> S).

Lemma run_events_snoc tr e s :
  run_events step (tr ++ [e]) s = step e (run_events step tr s).
Proof. unfold run_events. by rewrite foldl_app. Qed.

Lemma run_events_app tr1 tr2 s :
  run_events step (tr1 ++ tr2) s = run_events step tr2 (run_events step tr1 s).
Proof. unfold run_events. by rewrite foldl_app. Qed.

(** An invariant of every step holds after every run. *)
Lemma run_events_invariant (I : S -> Prop) s0 :
  I s0 -> (forall e s, I s -> I (step e s)) -> forall tr, I (run_events step tr s0).
Proof.
  intros H0 Hstep tr. induction tr as [|e tr IH] using rev_ind; [done|].
  rewrite run_events_snoc. by apply Hstep.
Qed.

(** ... and so does an invariant of the steps on events that satisfy [V],
    after every run of such events. *)
Lemma run_events_invariant_on (V : E -> Prop) (I : S -> Prop) s0 :
  I s0 -> (forall e s, V e -> I s -> I (step e s)) ->
  forall tr, Forall V tr -> I (run_events step tr s0).
Proof.
  intros H0 Hstep tr. induction tr as [|e tr IH] using rev_ind; [done|].
  intros [Hv He%Forall_inv]%Forall_app. rewrite run_events_snoc. auto.
Qed.

End run_lemmas.

Section list_lemmas.
Context {A B : Type}.

Lemma elem_of_flat_map (f : A -> list B) (l : list A) (y : B) :
  y ∈ flat_map f l <-> exists x, x ∈ l /\ y ∈ f x.
Proof.
  rewrite list_elem_of_In, in_flat_map.
  by setoid_rewrite list_elem_of_In.
Qed.

Lemma forallb_Forall (f : A -> bool) (l : list A) :
  forallb f l = true <-> Forall (fun x => f x = true) l.
Proof.
  induction l as [|a l IH]; simpl; [by split|].
  rewrite andb_true_iff, Forall_cons, IH. tauto.
Qed.

Lemma flat_map_nil_iff (f : A -> list B) (l : list A) :
  flat_map f l = [] <-> forall x, x ∈ l -> f x = [].
Proof.
  induction l as [|a l IH]; simpl.
  - split; [intros _ x Hx; by apply not_elem_of_nil in Hx | done].
  - rewrite app_nil, IH. setoid_rewrite elem_of_cons. naive_solver.
Qed.

Lemma flat_map_flat_map {C} (f : A -> list B) (g : B -> list C) (l : list A) :
  flat_map g (flat_map f l) = flat_map (fun x => flat_map g (f x)) l.
Proof. induction l as [|a l IH]; simpl; [done|]. by rewrite flat_map_app, IH. Qed.

Lemma flat_map_ext_Forall (f g : A -> list B) (l : list A) :
  Forall (fun x => f x = g x) l -> flat_map f l = flat_map g l.
Proof. induction 1 as [|a l Ha _ IH]; simpl; [done|]. by rewrite Ha, IH. Qed.

Lemma replicate_snoc_length (x : A) (l : list A) :
  l = replicate (length l) x -> l ++ [x] = replicate (length (l ++ [x])) x.
Proof.
  intros Hl. rewrite length_app, Nat.add_1_r. simpl.
  rewrite replicate_cons_app. by rewrite <- Hl.
Qed.

End list_lemmas.

#[export] Hint Rewrite @both_Some @both_None truthy_Z_iff truthy_string_iff : bridge.
#[export] Hint Resolve js_or_truthy js_or_falsy : bridge.
