(* ===== verification/View.v ===== *)
(** * View: React nodes as data

    What a component returns.  A [Node] is a JavaScript value as React
    reads it: an element (tag, props in source order, children), a
    fragment, a string, a number, a boolean, [null] or [undefined], and, as
    prop values only, an event handler, an error object or an object
    literal.  [Tag] lists the components and host elements the three source
    files instantiate; a component taken from a configuration object
    ([const { Icon } = lockAssetConfig]) is [Dyn] with the name the
    configuration gives it.

    The queries at the end ([subnodes], [prop], [find_all], [clickable])
    are what the theorems of the component files are stated with;
    [well_formed] is what React requires of a tree before it renders it. *)

From Stdlib Require Import ZArith Lia.
From stdpp Require Import base tactics option list numbers strings.
From S2P Require Import Prelude.

#[local] Open Scope Z_scope.

(** The legs of a gateway transaction a page submits: [gateway.in],
    [transaction.renVM], [transaction.out]. *)
Inductive Leg := LegIn | LegRenVM | LegOut.

#[export] Instance Leg_eq_dec : EqDecision Leg.
Proof. solve_decision. Defined.

(** The functions the components pass as [onClick], [onAction],
    [onAlternativeAction]. *)
Inductive Handler :=
| OnSubmit (l : Leg)        (* handleSubmit of the leg's submitter *)
| OnReset (l : Leg)         (* handleReset of the leg's submitter *)
| OnSubmitBoth              (* handleSubmitBoth *)
| OnNoop.                   (* () => {} *)

#[export] Instance Handler_eq_dec : EqDecision Handler.
Proof. solve_decision. Defined.

(** An error object, by its message. *)
Definition Error := string.

Inductive Tag :=
(* MintStatuses.tsx *)
| ProgressWrapper | ProgressWithContent | SmallWrapper | MediumWrapper
| Typography | Skeleton | BigAssetAmount | NumberFormatText
| TransactionDetailsButton | ProcessingTimeWrapper
| ActionButtonWrapper | ActionButton | Debug | SubmitErrorDialog
| GatewayTransactionValidityMessage
(* MintH2HStatuses.tsx *)
| PaperContent | HorizontalPadder | LabelWithValue | span | InlineSkeleton
| Fade | SimpleAssetInfo | MediumTopWrapper | AssetInfo | Divider | Box
| TooltipWithIcon | MultipleActionButtonWrapper | SwitchWalletDialog
| FeesToggler | TransactionStatusInfo
(* App.tsx *)
| Router | Suspense | Switch | Route | AppLoader
| WelcomePage | AboutPage | MainPage | NotFoundPage
(* a component read from a configuration object *)
| Dyn (name : string).

#[export] Instance Tag_eq_dec : EqDecision Tag.
Proof. solve_decision. Defined.

#[local] Set Warnings "-register-all".

Inductive Node :=
| El (tag : Tag) (props : list (string * Node)) (children : list Node)
| Frag (children : list Node)
| Str (s : string)
| Num (n : Z)
| Bool (b : bool)
| Null
| Undefined
| Fn (h : Handler)
| ErrV (e : Error)
| Obj (fields : list (string * Node)).

(** [Boolean(v)] on nodes: elements, functions and objects are truthy. *)
#[export] Instance truthy_Node : Truthy Node := fun v =>
  match v with
  | Str s => truthy s
  | Num n => truthy n
  | Bool b => b
  | Null | Undefined => false
  | El _ _ _ | Frag _ | Fn _ | ErrV _ | Obj _ => true
  end.

(** [a && b] on values: [a] when it is falsy, else [b]. *)
Definition js_and (a b : Node) : Node := if truthy a then b else a.

(** [x !== null ? x : undefined], and utils/propsUtils' [undefinedForNull]. *)
Definition undefinedForNull {A} (inj : A -> Node) (x : option A) : Node :=
  match x with Some a => inj a | None => Undefined end.

(** A nullable value as a node: [null] when absent. *)
Definition nullable {A} (inj : A -> Node) (x : option A) : Node :=
  match x with Some a => inj a | None => Null end.

(** i18n: [t(key)] and [t(key, params)] of react-i18next. *)
Class I18n := {
  t : string -> string;
  t_with : string -> list (string * Node) -> string
}.

(** ** Queries *)

Definition tag_of (n : Node) : option Tag :=
  match n with El tg _ _ => Some tg | _ => None end.

Definition props_of (n : Node) : list (string * Node) :=
  match n with El _ ps _ => ps | _ => [] end.

Definition children_of (n : Node) : list Node :=
  match n with El _ _ cs | Frag cs => cs | _ => [] end.

Fixpoint lookup_prop (name : string) (ps : list (string * Node)) : Node :=
  match ps with
  | [] => Undefined
  | (k, v) :: ps' => if decide (k = name) then v else lookup_prop name ps'
  end.

(** [props.name]: [undefined] when the element has no such prop. *)
Definition prop (name : string) (n : Node) : Node := lookup_prop name (props_of n).

(** The node and every node below it, props included, in source order. *)
Fixpoint subnodes (n : Node) : list Node :=
  n :: match n with
       | El _ ps cs =>
           flat_map (fun p => subnodes (snd p)) ps ++ flat_map subnodes cs
       | Frag cs => flat_map subnodes cs
       | Obj fs => flat_map (fun p => subnodes (snd p)) fs
       | _ => []
       end.

Definition has_tag (tg : Tag) (n : Node) : bool :=
  bool_decide (tag_of n = Some tg).

Definition find_all (tg : Tag) (n : Node) : list Node :=
  filter (fun m => has_tag tg m = true) (subnodes n).

Definition find_first (tg : Tag) (n : Node) : option Node := head (find_all tg n).

Definition count (tg : Tag) (n : Node) : nat := length (find_all tg n).

Definition handler_of (v : Node) : option Handler :=
  match v with Fn h => Some h | _ => None end.

(** What a user can trigger on one node: the [onClick] of an enabled
    [ActionButton]; the [onAction] and [onAlternativeAction] of an open
    [SubmitErrorDialog].  Whether an open dialog covers the buttons of the
    page is the component library's: each node is taken by itself, which
    offers at least what a user can reach. *)
Definition triggers (n : Node) : list Handler :=
  match tag_of n with
  | Some ActionButton =>
      if truthy (prop "disabled" n) then []
      else option_list (handler_of (prop "onClick" n))
  | Some SubmitErrorDialog =>
      if truthy (prop "open" n)
      then option_list (handler_of (prop "onAction" n))
           ++ option_list (handler_of (prop "onAlternativeAction" n))
      else []
  | _ => []
  end.

(** Every handler the rendered tree offers to the user, in source order. *)
Fixpoint clickable (n : Node) : list Handler :=
  triggers n ++
  match n with
  | El _ ps cs =>
      flat_map (fun p => clickable (snd p)) ps ++ flat_map clickable cs
  | Frag cs => flat_map clickable cs
  | Obj fs => flat_map (fun p => clickable (snd p)) fs
  | _ => []
  end.

(** ** Well-formed trees

    What React and JSX require of an element tree.  A child is an
    element, a fragment, a string or a number, or one of the values React
    skips ([true], [false], [null], [undefined]); a function, an error or a
    plain object in child position is refused ("not valid as a React
    child").  A prop whose name starts with [on] is an event listener and
    holds a function when it is given.  An element names each prop once:
    [prop] reads the first occurrence, JSX keeps the last. *)

Definition renderable (n : Node) : bool :=
  match n with
  | El _ _ _ | Frag _ | Str _ | Num _ | Bool _ | Null | Undefined => true
  | Fn _ | ErrV _ | Obj _ => false
  end.

Definition listener_ok (k : string) (v : Node) : bool :=
  if String.prefix "on" k
  then match v with Fn _ | Undefined => true | _ => false end
  else true.

Fixpoint unique (ks : list string) : bool :=
  match ks with
  | [] => true
  | k :: ks' => negb (existsb (String.eqb k) ks') && unique ks'
  end.

Fixpoint well_formed (n : Node) : bool :=
  match n with
  | El _ ps cs =>
      unique (map fst ps)
      && forallb (fun p => listener_ok (fst p) (snd p) && well_formed (snd p)) ps
      && forallb (fun c => renderable c && well_formed c) cs
  | Frag cs => forallb (fun c => renderable c && well_formed c) cs
  | Obj fs => forallb (fun p => well_formed (snd p)) fs
  | Str _ | Num _ | Bool _ | Null | Undefined | Fn _ | ErrV _ => true
  end.

(** A node that may stand in child position. *)
Definition valid_child (n : Node) : bool := renderable n && well_formed n.

(** ** Induction on nodes

    The generated principle gives no hypothesis for the nodes inside the
    lists of props and children. *)

Section Node_induction.
Variable P : Node -> Prop.
Hypothesis HEl : forall tg ps cs,
  Forall (fun p => P (snd p)) ps -> Forall P cs -> P (El tg ps cs).
Hypothesis HFrag : forall cs, Forall P cs -> P (Frag cs).
Hypothesis HObj : forall fs, Forall (fun p => P (snd p)) fs -> P (Obj fs).
Hypothesis HStr : forall s, P (Str s).
Hypothesis HNum : forall z, P (Num z).
Hypothesis HBool : forall b, P (Bool b).
Hypothesis HNull : P Null.
Hypothesis HUndefined : P Undefined.
Hypothesis HFn : forall h, P (Fn h).
Hypothesis HErrV : forall e, P (ErrV e).

Fixpoint Node_induction (n : Node) : P n :=
  let fix on_list (l : list Node) : Forall P l :=
    match l with
    | [] => Forall_nil_2 P
    | x :: l' => Forall_cons_2 P x l' (Node_induction x) (on_list l')
    end in
  let fix on_props (l : list (string * Node)) : Forall (fun p => P (snd p)) l :=
    match l with
    | [] => Forall_nil_2 _
    | p :: l' => Forall_cons_2 _ p l' (Node_induction (snd p)) (on_props l')
    end in
  match n with
  | El tg ps cs => HEl tg ps cs (on_props ps) (on_list cs)
  | Frag cs => HFrag cs (on_list cs)
  | Obj fs => HObj fs (on_props fs)
  | Str s => HStr s
  | Num z => HNum z
  | Bool b => HBool b
  | Null => HNull
  | Undefined => HUndefined
  | Fn h => HFn h
  | ErrV e => HErrV e
  end.

End Node_induction.

(** ** Lemmas on the queries *)

Section query_lemmas.
Implicit Types (n m : Node) (tg : Tag) (ps : list (string * Node)).

Lemma has_tag_true tg n : has_tag tg n = true <-> tag_of n = Some tg.
Proof. unfold has_tag. by rewrite bool_decide_eq_true. Qed.

Lemma subnodes_self n : n ∈ subnodes n.
Proof. destruct n; simpl; apply list_elem_of_here. Qed.

Lemma find_all_spec tg n m :
  m ∈ find_all tg n <-> m ∈ subnodes n /\ tag_of m = Some tg.
Proof.
  unfold find_all. rewrite list_elem_of_filter, has_tag_true. tauto.
Qed.

Lemma count_zero tg n :
  count tg n = 0%nat <-> forall m, m ∈ subnodes n -> tag_of m <> Some tg.
Proof.
  unfold count. rewrite length_zero_iff_nil. split.
  - intros Hnil m Hm Htag.
    assert (m ∈ find_all tg n) as Hin by (by apply find_all_spec).
    rewrite Hnil in Hin. by apply not_elem_of_nil in Hin.
  - intros Hno. apply elem_of_nil_inv. intros m [Hm Htag]%find_all_spec.
    by apply (Hno m).
Qed.

Lemma lookup_prop_cons_eq name v ps : lookup_prop name ((name, v) :: ps) = v.
Proof. simpl. by rewrite decide_True. Qed.

Lemma lookup_prop_cons_ne k name v ps :
  k <> name -> lookup_prop name ((k, v) :: ps) = lookup_prop name ps.
Proof. intros. simpl. by rewrite decide_False. Qed.

Lemma clickable_subnodes n : clickable n = flat_map triggers (subnodes n).
Proof.
  induction n as [tg ps cs IHps IHcs|cs IH|fs IH| | | | | | |]
    using Node_induction; simpl; rewrite ?app_nil_r; try done.
  - rewrite flat_map_app, !flat_map_flat_map.
    by rewrite (flat_map_ext_Forall _ _ _ IHps), (flat_map_ext_Forall _ _ _ IHcs).
  - by rewrite flat_map_flat_map, (flat_map_ext_Forall _ _ _ IH).
  - by rewrite flat_map_flat_map, (flat_map_ext_Forall _ _ _ IH).
Qed.

Lemma clickable_spec n h :
  h ∈ clickable n <-> exists m, m ∈ subnodes n /\ h ∈ triggers m.
Proof. by rewrite clickable_subnodes, elem_of_flat_map. Qed.

Lemma triggers_button m h :
  tag_of m = Some ActionButton ->
  h ∈ triggers m <-> truthy (prop "disabled" m) = false /\ prop "onClick" m = Fn h.
Proof.
  intros Ht. unfold triggers. rewrite Ht.
  destruct (truthy (prop "disabled" m)).
  - split; [by intros ?%not_elem_of_nil | by intros []].
  - destruct (prop "onClick" m); simpl;
      rewrite ?list_elem_of_singleton, ?elem_of_nil; naive_solver.
Qed.

Lemma clickable_undefinedForNull_Num x : clickable (undefinedForNull Num x) = [].
Proof. by destruct x. Qed.

Lemma clickable_nullable_Str x : clickable (nullable Str x) = [].
Proof. by destruct x. Qed.

Lemma unique_NoDup ks : unique ks = true <-> NoDup ks.
Proof.
  induction ks as [|k ks IH]; simpl; [by split; [constructor|]|].
  rewrite andb_true_iff, negb_true_iff, NoDup_cons, IH, <- not_true_iff_false.
  rewrite existsb_exists. setoid_rewrite String.eqb_eq.
  setoid_rewrite <- list_elem_of_In. naive_solver.
Qed.

Lemma well_formed_El tg ps cs :
  well_formed (El tg ps cs)
  = unique (map fst ps)
    && forallb (fun p => listener_ok (fst p) (snd p) && well_formed (snd p)) ps
    && forallb valid_child cs.
Proof. reflexivity. Qed.

Lemma well_formed_Frag cs : well_formed (Frag cs) = forallb valid_child cs.
Proof. reflexivity. Qed.

(** In a well-formed tree every element below the root, and every node in
    child position, is well formed. *)
Lemma well_formed_children n c :
  well_formed n = true -> c ∈ children_of n -> valid_child c = true.
Proof.
  destruct n as [tg ps cs|cs| | | | | | | |]; simpl;
    try (by intros _ ?%not_elem_of_nil).
  - rewrite !andb_true_iff, !forallb_forall. intros [_ Hcs] Hc.
    by apply Hcs, list_elem_of_In.
  - rewrite forallb_forall. intros Hcs Hc. by apply Hcs, list_elem_of_In.
Qed.

(** In a well-formed element [prop] reads the only occurrence of a prop. *)
Lemma well_formed_prop tg ps cs k v :
  well_formed (El tg ps cs) = true -> (k, v) ∈ ps -> prop k (El tg ps cs) = v.
Proof.
  rewrite well_formed_El, !andb_true_iff, unique_NoDup. intros [[Hu _] _].
  unfold prop; simpl. induction ps as [|[k' v'] ps IH]; simpl in *.
  - by intros ?%not_elem_of_nil.
  - apply NoDup_cons in Hu as [Hk Hu]. intros [[= -> ->]|Hin]%elem_of_cons.
    + by rewrite decide_True.
    + rewrite decide_False; [by apply IH|].
      intros ->. apply Hk, list_elem_of_In, in_map_iff. exists (k, v).
      split; [done | by apply list_elem_of_In].
Qed.

(** A listener of a well-formed element is a function or absent: what
    [triggers] offers is all the element can do. *)
Lemma well_formed_listener tg ps cs k :
  well_formed (El tg ps cs) = true -> String.prefix "on" k = true ->
  prop k (El tg ps cs) = Undefined \/ exists h, prop k (El tg ps cs) = Fn h.
Proof.
  rewrite well_formed_El, !andb_true_iff, forallb_forall. intros [[_ Hps] _] Hon.
  unfold prop; simpl. induction ps as [|[k' v'] ps IH]; simpl; [by left|].
  case_decide as Hk; [|apply IH; intros p Hp; apply Hps; by right].
  subst k'. specialize (Hps (k, v') (or_introl eq_refl)).
  apply andb_true_iff in Hps as [Hl _]. unfold listener_ok in Hl; simpl in Hl.
  rewrite Hon in Hl. destruct v'; try done; eauto.
Qed.

Lemma js_and_false_l (v : Node) : js_and (Bool false) v = Bool false.
Proof. reflexivity. Qed.

Lemma js_and_true_l (v : Node) : js_and (Bool true) v = v.
Proof. reflexivity. Qed.

End query_lemmas.

#[export] Hint Rewrite has_tag_true find_all_spec clickable_spec : bridge.
#[export] Hint Rewrite lookup_prop_cons_eq js_and_false_l js_and_true_l : bridge.
#[export] Hint Resolve subnodes_self : bridge.
