(* ===== verification/AppRoutes.v ===== *)
(** * AppRoutes: the route table of the application

    src/src/App.tsx: the element tree [App] returns, and how the router
    under it picks a page for a location.  The paths come from pages/routes
    and the matching of a path pattern against a location from the router
    library; both are parameters ([Paths], [Router]).  What is modelled of
    the library is what [App] relies on: a [Switch] renders its first child
    route that matches, a route without a path matches every location, a
    route with several paths matches when one of them does, and [Suspense]
    shows its fallback while a lazy component is loading. *)

From Stdlib Require Import ZArith Lia.
From stdpp Require Import base tactics option list numbers strings.
From S2P Require Import Prelude View.

(** [paths] of pages/routes. *)
Class Paths := {
  WELCOME : string;
  ABOUT : string;
  HOME : string;
  MINT : string;
  MINT_GATEWAY : string;
  RELEASE : string;
  RELEASE_GATEWAY : string
}.

(** The router's matching of an exact path pattern against a location. *)
Class RouterLibrary := { matchPath : string -> string -> bool }.

Section app.
Context `{Paths} `{RouterLibrary}.

(** [mainPagePaths] (lines 13-19). *)
Definition mainPagePaths : list string :=
  [HOME; MINT; MINT_GATEWAY; RELEASE; RELEASE_GATEWAY].

(** The routes of the switch (lines 25-28).  A component passed as a
    prop is the element it stands for; an array of paths is the fragment of
    its strings. *)
Definition routes : list Node := [
  El Route [("exact", Bool true); ("path", Str WELCOME);
            ("component", El WelcomePage [] [])] [];
  El Route [("exact", Bool true); ("path", Str ABOUT);
            ("component", El AboutPage [] [])] [];
  El Route [("exact", Bool true); ("path", Frag (Str <$> mainPagePaths));
            ("component", El MainPage [] [])] [];
  El Route [("component", El NotFoundPage [] [])] []
].

(** [App] (lines 20-34). *)
Definition App : Node :=
  El Router [] [
    El Suspense [("fallback", El AppLoader [] [])] [
      El Switch [] routes
    ]
  ].

(** Whether a [Route] matches the location. *)
Definition route_matches (location : string) (route : Node) : bool :=
  match prop "path" route with
  | Undefined => true
  | Str pattern => matchPath pattern location
  | Frag patterns =>
      existsb (fun n => match n with
                        | Str pattern => matchPath pattern location
                        | _ => false
                        end) patterns
  | _ => false
  end.

(** What a [Switch] renders: the component of its first route that
    matches. *)
Definition switch (location : string) (sw : Node) : option Node :=
  prop "component" <$> find (fun r => route_matches location r) (children_of sw).

(** The components loaded with [lazy] (line 11). *)
Definition is_lazy (page : Node) : bool :=
  bool_decide (tag_of page = Some AboutPage).

(** What [App] shows at a location, given whether the lazy chunk has
    arrived: [Suspense] shows its fallback until then. *)
Definition render (loaded : bool) (location : string) : option Node :=
  sw ← find_first Switch App;
  suspense ← find_first Suspense App;
  page ← switch location sw;
  Some (if is_lazy page && negb loaded then prop "fallback" suspense else page).

(** The page of a location, by the order of the routes. *)
Definition page_of (location : string) : Tag :=
  if matchPath WELCOME location then WelcomePage
  else if matchPath ABOUT location then AboutPage
  else if existsb (fun pattern => matchPath pattern location) mainPagePaths
       then MainPage
       else NotFoundPage.

End app.

(** A router that matches a path against itself only, and the paths of
    the application, for the witnesses. *)
Definition exactRouter : RouterLibrary :=
  {| matchPath pattern location := bool_decide (pattern = location) |}.

Definition samplePaths : Paths :=
  {| WELCOME := "/welcome"; ABOUT := "/about"; HOME := "/"; MINT := "/mint";
     MINT_GATEWAY := "/mint/gateway"; RELEASE := "/release";
     RELEASE_GATEWAY := "/release/gateway" |}.

Section app_theorems.
Context `{Paths} `{RouterLibrary}.

Lemma switch_routes location :
  switch location (El Switch [] routes) = Some (El (page_of location) [] []).
Proof.
  unfold switch, page_of. simpl. unfold route_matches. simpl.
  destruct (matchPath WELCOME location); [done|]. simpl.
  destruct (matchPath ABOUT location); [done|]. simpl.
  rewrite !orb_false_r.
  by repeat (destruct (matchPath _ location); simpl; [done|]).
Qed.

Lemma render_page_eq loaded location :
  render loaded location
  = Some (if bool_decide (page_of location = AboutPage) && negb loaded
          then El AppLoader [] [] else El (page_of location) [] []).
Proof.
  unfold render. change (find_first Switch App) with (Some (El Switch [] routes)).
  simpl. rewrite switch_routes. simpl. unfold is_lazy. simpl.
  by destruct (page_of location), loaded.
Qed.

(** C38: Every location renders exactly one page, the one of the first
    route that matches in the order of the source: the welcome page, the
    about page, the main page for each of its five paths, and the not-found
    page for every other location; while the about page is loading, the
    loader is shown in its place. *)
Theorem render_page loaded location :
  render loaded location
  = Some (if bool_decide (page_of location = AboutPage) && negb loaded
          then El AppLoader [] [] else El (page_of location) [] []).
Proof. apply render_page_eq. Qed.

(** The not-found page is shown exactly for the locations that no
    declared path matches. *)
Theorem not_found_iff location :
  render true location = Some (El NotFoundPage [] [])
  <-> matchPath WELCOME location = false /\ matchPath ABOUT location = false
      /\ Forall (fun pattern => matchPath pattern location = false) mainPagePaths.
Proof.
  rewrite render_page_eq, andb_false_r. unfold page_of, mainPagePaths. simpl.
  rewrite !Forall_cons, Forall_nil.
  repeat (destruct (matchPath _ location); simpl); naive_solver.
Qed.

(** The order of the routes decides: a location that matches the
    welcome path renders the welcome page, whatever else it matches. *)
Theorem welcome_first loaded location :
  matchPath WELCOME location = true ->
  render loaded location = Some (El WelcomePage [] []).
Proof.
  intros Hw. rewrite render_page_eq. unfold page_of. by rewrite Hw.
Qed.

End app_theorems.

Lemma welcome_first_witness :
  render (H := samplePaths) (H0 := exactRouter) false "/welcome"
  = Some (El WelcomePage [] []).
Proof. by apply (welcome_first (H := samplePaths) (H0 := exactRouter)). Defined.
