(* ===== verification/Amount.v ===== *)
(** * Amount: the amounts the deposit screens format

    MintStatuses.tsx formats a locked amount with
    [new BigNumber(lockAmount).shiftedBy(-lockAssetDecimals).toString()].
    bignumber.js is a dependency, not a source of the repository: this file
    models the three operations of that expression the way the library
    documents and implements them, on decimal literals.

    - [BigNumber]: not-a-number, an infinity, or a sign, the coefficient's
      digits without leading or trailing zeros (["0"] for zero) and the
      decimal exponent of the first digit.
    - [BigNumber_of_string]: the constructor on a string, for the decimal
      literals (an optional minus sign, digits with an optional point, an
      optional exponent), ["Infinity"] and ["-Infinity"]; every other string
      is not-a-number here.  Before it gives up on a string the library
      also removes white space at its ends and a plus sign at its front,
      and reads what follows a prefix 0x, 0b or 0o in that base; no amount
      of the SDK has them and the model leaves that out.  [plain] is the
      domain of the model: the strings that the library does not rewrite,
      on which [BigNumber_of_string] is the constructor.  A theorem on
      strings that are no decimal literals assumes it.
    - [shiftedBy]: the integer check on the argument and the product with
      [1e<k>], overflow to infinity and underflow to zero included, at the
      exponents the library has when it is not configured: [MAX_EXP] is
      1e7 and [MIN_EXP] is -1e7.
    - [toString]: exponential notation when the exponent is at most -7 or
      at least 21, fixed-point notation otherwise.

    Strings are handled as lists of characters between the two ends. *)

From Stdlib Require Import ZArith Lia Ascii String DecimalString DecimalZ DecimalPos.
From stdpp Require Import base tactics option list numbers strings.
From S2P Require Import Prelude.

#[local] Open Scope char_scope.
#[local] Open Scope Z_scope.

(** ** Characters *)

(** [\d] *)
Definition is_digit (a : ascii) : bool :=
  let n := nat_of_ascii a in (48 <=? n)%nat && (n <=? 57)%nat.

Definition is_zero (a : ascii) : bool := Ascii.eqb a "0".
Definition is_dot (a : ascii) : bool := Ascii.eqb a ".".
Definition is_e (a : ascii) : bool := Ascii.eqb a "e" || Ascii.eqb a "E".

(** A string of digits. *)
Definition digits (l : list ascii) : Prop := Forall (fun a => is_digit a = true) l.

Definition is_nil (l : list ascii) : bool :=
  match l with [] => true | _ => false end.

(** Leading zeros removed. *)
Fixpoint lstrip0 (l : list ascii) : list ascii :=
  match l with
  | a :: l' => if is_zero a then lstrip0 l' else l
  | [] => []
  end.

(** Trailing zeros removed. *)
Definition rstrip0 (l : list ascii) : list ascii := reverse (lstrip0 (reverse l)).

(** The characters before the first one that satisfies [p], and those after
    it when there is one: [str.indexOf], [str.search]. *)
Fixpoint break (p : ascii -> bool) (l : list ascii)
  : list ascii * option (list ascii) :=
  match l with
  | [] => ([], None)
  | a :: l' =>
      if p a then ([], Some l')
      else let '(x, y) := break p l' in (a :: x, y)
  end.

(** [String(e)] for an integer, and [+str] on digits with an optional
    sign. *)
Definition Z_to_chars (z : Z) : list ascii :=
  list_ascii_of_string (NilZero.string_of_int (Z.to_int z)).

Definition unsignedInt (l : list ascii) : option Z :=
  Z.of_uint <$> NilZero.uint_of_string (string_of_list_ascii l).

Definition signedInt (l : list ascii) : option Z :=
  match l with
  | a :: ds =>
      if Ascii.eqb a "-" then Z.opp <$> unsignedInt ds
      else if Ascii.eqb a "+" then unsignedInt ds
      else unsignedInt l
  | [] => None
  end.

(** ** Numbers *)

(** The range of the exponent, as the library sets it (the application
    does not call [BigNumber.config]). *)
Definition MAX_EXP : Z := 10000000.
Definition MIN_EXP : Z := -10000000.
Definition MAX_SAFE_INTEGER : Z := 9007199254740991.
Definition TO_EXP_NEG : Z := -7.
Definition TO_EXP_POS : Z := 21.

Inductive BigNumber :=
| NaN
| Infinity (neg : bool)
| Finite (neg : bool) (c : list ascii) (e : Z).

#[export] Instance BigNumber_eq_dec : EqDecision BigNumber.
Proof. solve_decision. Defined.

Definition zero (neg : bool) : BigNumber := Finite neg ["0"] 0.

(** The end of the constructor and of [normalise]: zeros stripped, the
    exponent checked.  [e] is the exponent of the character before
    [digits]. *)
Definition make (neg : bool) (digits : list ascii) (e : Z) : BigNumber :=
  let str := lstrip0 digits in
  let i := Z.of_nat (length digits - length str) in
  match rstrip0 str with
  | [] => zero neg
  | c =>
      let e' := e - i - 1 in
      if MAX_EXP <? e' then Infinity neg
      else if e' <? MIN_EXP then zero neg
      else Finite neg c e'
  end.

(** Digits, digits with a point, or a point with digits after it: the
    integer and the fractional digits. *)
Definition mantissa (l : list ascii) : option (list ascii * list ascii) :=
  match break is_dot l with
  | (ip, None) =>
      if forallb is_digit ip && negb (is_nil ip) then Some (ip, []) else None
  | (ip, Some fp) =>
      if forallb is_digit ip && forallb is_digit fp && negb (is_nil ip && is_nil fp)
      then Some (ip, fp) else None
  end.

(** The literal without its sign: integer digits, fractional digits and
    exponent. *)
Definition unsignedLiteral (l : list ascii)
  : option (list ascii * list ascii * Z) :=
  let '(m, ex) := break is_e l in
  '(ip, fp) ← mantissa m;
  x ← match ex with None => Some 0 | Some xs => signedInt xs end;
  Some (ip, fp, x).

(** [isNumeric], with what the constructor reads from the string. *)
Definition numeric (l : list ascii)
  : option (bool * (list ascii * list ascii * Z)) :=
  match l with
  | a :: l' =>
      if Ascii.eqb a "-" then pair true <$> unsignedLiteral l'
      else pair false <$> unsignedLiteral l
  | [] => None
  end.

(** [parseNumeric] on a string it does not rewrite ([plain], below). *)
Definition parseNumeric (s : string) : BigNumber :=
  if decide (s = "Infinity"%string) then Infinity false
  else if decide (s = "-Infinity"%string) then Infinity true
  else NaN.

(** [new BigNumber(str)] *)
Definition BigNumber_of_string (s : string) : BigNumber :=
  match numeric (list_ascii_of_string s) with
  | Some (neg, (ip, fp, x)) => make neg (ip ++ fp) (Z.of_nat (length ip) + x)
  | None => parseNumeric s
  end.

(** White space, for [\s]; a character outside ASCII counts, as it may be
    part of white space of Unicode. *)
Definition is_space (a : ascii) : bool :=
  let n := nat_of_ascii a in
  ((9 <=? n) && (n <=? 13) || (n =? 32) || (128 <=? n))%nat.

Definition is_base_letter (a : ascii) : bool :=
  existsb (Ascii.eqb a) ["x"; "X"; "b"; "B"; "o"; "O"].

(** The characters of a decimal literal. *)
Definition literal_char (a : ascii) : bool :=
  is_digit a || is_dot a || is_e a || Ascii.eqb a "+" || Ascii.eqb a "-".

(** An optional minus sign, a zero and the letter of a base. *)
Definition base_prefixed (l : list ascii) : bool :=
  match (match l with
         | a :: l' => if Ascii.eqb a "-" then l' else l
         | [] => []
         end) with
  | z :: b :: _ => is_zero z && is_base_letter b
  | _ => false
  end.

(** The strings [parseNumeric] leaves as they are: no white space at
    either end, no plus sign at the front, no base prefix. *)
Definition plain (s : string) : bool :=
  let l := list_ascii_of_string s in
  match l with
  | a :: _ => negb (is_space a) && negb (Ascii.eqb a "+")
  | [] => true
  end
  && match last l with Some a => negb (is_space a) | None => true end
  && negb (base_prefixed l).

(** [this.times('1e' + k)] *)
Definition timesPowerOfTen (k : Z) (x : BigNumber) : BigNumber :=
  match x with
  | NaN => NaN
  | Infinity neg => if k <? MIN_EXP then NaN else Infinity neg
  | Finite neg c e =>
      if decide (c = ["0"]) then (if MAX_EXP <? k then NaN else zero neg)
      else if MAX_EXP <? k then Infinity neg
      else if k <? MIN_EXP then zero neg
      else if MAX_EXP <? e + k then Infinity neg
      else if e + k <? MIN_EXP then zero neg
      else Finite neg c (e + k)
  end.

Inductive BigNumberError :=
| ArgumentOutOfRange (k : Z).   (* [BigNumber Error] Argument out of range *)

#[export] Instance BigNumberError_eq_dec : EqDecision BigNumberError.
Proof. solve_decision. Defined.

(** [x.shiftedBy(k)]: [intCheck] throws outside the safe integers. *)
Definition shiftedBy (k : Z) (x : BigNumber) : result BigNumberError BigNumber :=
  if (- MAX_SAFE_INTEGER <=? k) && (k <=? MAX_SAFE_INTEGER)
  then Ok (timesPowerOfTen k x)
  else Err (ArgumentOutOfRange k).

(** [toExponential(str, e)] *)
Definition toExponential (str : list ascii) (e : Z) : list ascii :=
  match str with
  | a :: (_ :: _) as rest => a :: "." :: rest
  | _ => str
  end ++ (if e <? 0 then ["e"] else ["e"; "+"]) ++ Z_to_chars e.

(** [toFixedPoint(str, e, '0')] *)
Definition toFixedPoint (str : list ascii) (e : Z) : list ascii :=
  let len := Z.of_nat (length str) in
  if e <? 0 then "0" :: "." :: replicate (Z.to_nat (- e - 1)) "0" ++ str
  else if len <? e + 1 then str ++ replicate (Z.to_nat (e + 1 - len)) "0"
  else if e + 1 <? len
       then take (Z.to_nat (e + 1)) str ++ "." :: drop (Z.to_nat (e + 1)) str
       else str.

Definition toChars (x : BigNumber) : list ascii :=
  match x with
  | NaN => list_ascii_of_string "NaN"
  | Infinity neg =>
      (if neg then ["-"] else []) ++ list_ascii_of_string "Infinity"
  | Finite neg c e =>
      (if neg && negb (bool_decide (c = ["0"])) then ["-"] else [])
      ++ (if (e <=? TO_EXP_NEG) || (TO_EXP_POS <=? e)
          then toExponential c e else toFixedPoint c e)
  end.

(** [x.toString()] *)
Definition toString (x : BigNumber) : string := string_of_list_ascii (toChars x).

(** [new BigNumber(amount).shiftedBy(-decimals).toString()] *)
Definition formatAmount (amount : string) (decimals : Z)
  : result BigNumberError string :=
  toString <$> shiftedBy (- decimals) (BigNumber_of_string amount).

(** ** Normalised numbers

    What the constructor and the operations maintain: the coefficient is a
    string of digits, ["0"] with exponent 0, or without zeros at its ends
    and with an exponent within the limits. *)

Definition normalised (x : BigNumber) : Prop :=
  match x with
  | Finite _ c e =>
      forallb is_digit c = true
      /\ ((c = ["0"] /\ e = 0)
          \/ (lstrip0 c = c /\ rstrip0 c = c /\ c <> [] /\ MIN_EXP <= e <= MAX_EXP))
  | _ => True
  end.

(** The coefficient of a number that is not zero. *)
Definition coefficient (c : list ascii) : Prop :=
  digits c /\ lstrip0 c = c /\ rstrip0 c = c /\ c <> [].

(** What a printed literal reads back as: the digits of [c] between two
    blocks of zeros, and the exponent [e] for the first digit of [c]. *)
Definition reads_as (body c : list ascii) (e : Z) : Prop :=
  exists ip fp x n m,
    unsignedLiteral body = Some (ip, fp, x)
    /\ ip ++ fp = replicate n "0" ++ c ++ replicate m "0"
    /\ Z.of_nat (length ip) + x - Z.of_nat n - 1 = e
    /\ exists a rest, body = a :: rest /\ is_digit a = true.

#[export] Instance normalised_dec x : Decision (normalised x).
Proof. destruct x; simpl; apply _. Defined.

(** Zero with a minus sign prints as ["0"]. *)
Definition negative_zero (x : BigNumber) : bool :=
  match x with
  | Finite true c _ => bool_decide (c = ["0"])
  | _ => false
  end.

(** Numbers up to the sign of zero: the library keeps the sign of a zero
    through its operations, and [toString] does not print it. *)
#[export] Instance BigNumber_equiv : Equiv BigNumber := fun x y =>
  x = y \/ exists n1 n2 e, x = Finite n1 ["0"] e /\ y = Finite n2 ["0"] e.

(** ** Characters and zeros *)

Section char_lemmas.
Implicit Types (a : ascii) (l c : list ascii) (p : ascii -> bool).

Lemma is_digit_other a b :
  is_digit b = false -> is_digit a = true -> Ascii.eqb a b = false.
Proof.
  intros Hb Ha. destruct (Ascii.eqb_spec a b) as [->|]; [congruence | done].
Qed.

Lemma is_digit_not_dot a : is_digit a = true -> is_dot a = false.
Proof. by apply is_digit_other. Qed.

Lemma is_digit_not_e a : is_digit a = true -> is_e a = false.
Proof.
  intros Ha. unfold is_e.
  by rewrite (is_digit_other a "e"), (is_digit_other a "E").
Qed.

Lemma is_dot_not_e a : is_dot a = true -> is_e a = false.
Proof. by intros ->%Ascii.eqb_eq. Qed.

Lemma length_list_ascii_of_string (s : string) :
  length (list_ascii_of_string s) = String.length s.
Proof. induction s; simpl; by f_equal. Qed.

Lemma digits_forallb l : forallb is_digit l = true <-> digits l.
Proof. apply forallb_Forall. Qed.

Lemma digits_app l1 l2 : digits (l1 ++ l2) <-> digits l1 /\ digits l2.
Proof. apply Forall_app. Qed.

Lemma digits_zeros n : digits (replicate n "0").
Proof. by apply Forall_replicate. Qed.

Lemma break_app p l1 a l2 :
  Forall (fun x => p x = false) l1 -> p a = true ->
  break p (l1 ++ a :: l2) = (l1, Some l2).
Proof.
  intros Hl Ha. induction Hl as [|x l1 Hx _ IH]; simpl.
  - by rewrite Ha.
  - by rewrite Hx, IH.
Qed.

Lemma break_none p l : Forall (fun x => p x = false) l -> break p l = (l, None).
Proof.
  induction 1 as [|x l Hx _ IH]; simpl; [done|]. by rewrite Hx, IH.
Qed.

(** [lstrip0] removes a block of zeros and nothing else. *)
Lemma lstrip0_spec l :
  exists n, l = replicate n "0" ++ lstrip0 l
            /\ lstrip0 (lstrip0 l) = lstrip0 l
            /\ (length l - length (lstrip0 l) = n)%nat.
Proof.
  induction l as [|a l (n & Hl & Hi & Hn)]; simpl; [by exists 0%nat|].
  destruct (is_zero a) eqn:Ha.
  - apply Ascii.eqb_eq in Ha as ->. exists (S n). simpl.
    split_and!; [by f_equal | done |].
    assert (length l = n + length (lstrip0 l))%nat as Hlen
      by (rewrite Hl at 1; by rewrite length_app, length_replicate).
    lia.
  - exists 0%nat. simpl. rewrite Ha. split_and!; [done..|lia].
Qed.

Lemma lstrip0_idem l : lstrip0 (lstrip0 l) = lstrip0 l.
Proof. by destruct (lstrip0_spec l) as (? & ? & ? & ?). Qed.

Lemma lstrip0_zeros n l : lstrip0 (replicate n "0" ++ l) = lstrip0 l.
Proof. induction n; simpl; done. Qed.

(** A string is kept exactly when its head is not zero. *)
Lemma lstrip0_head a l : lstrip0 (a :: l) = a :: l <-> is_zero a = false.
Proof.
  simpl. destruct (is_zero a); [|done]. split; [|done]. intros Hl.
  destruct (lstrip0_spec l) as (n & Hn & _). rewrite Hl in Hn.
  apply (f_equal length) in Hn. rewrite length_app in Hn. simpl in Hn. lia.
Qed.

Lemma lstrip0_fixed_app l l' : lstrip0 l = l -> l <> [] -> lstrip0 (l ++ l') = l ++ l'.
Proof.
  destruct l as [|a l]; [done|]. intros Hl%lstrip0_head _.
  by apply (lstrip0_head a (l ++ l')).
Qed.

Lemma rstrip0_zeros l n : rstrip0 (l ++ replicate n "0") = rstrip0 l.
Proof.
  unfold rstrip0. by rewrite reverse_app, reverse_replicate, lstrip0_zeros.
Qed.

Lemma rstrip0_idem l : rstrip0 (rstrip0 l) = rstrip0 l.
Proof. unfold rstrip0. by rewrite reverse_involutive, lstrip0_idem. Qed.

Lemma rstrip0_spec l : exists n, l = rstrip0 l ++ replicate n "0".
Proof.
  destruct (lstrip0_spec (reverse l)) as (n & Hl & _). exists n. unfold rstrip0.
  rewrite <- (reverse_involutive l) at 1. rewrite Hl at 1.
  by rewrite reverse_app, reverse_replicate.
Qed.

(** Stripping at the end keeps a head that is not zero. *)
Lemma lstrip0_rstrip0 l : lstrip0 l = l -> lstrip0 (rstrip0 l) = rstrip0 l.
Proof.
  intros Hl. destruct (rstrip0_spec l) as (n & Hn).
  destruct (rstrip0 l) as [|a r] eqn:Hr; [done|].
  rewrite Hn in Hl. by apply lstrip0_head in Hl; apply lstrip0_head.
Qed.

Lemma digits_lstrip0 l : digits l -> digits (lstrip0 l).
Proof.
  destruct (lstrip0_spec l) as (n & Hl & _). intros Hd. rewrite Hl in Hd.
  by apply digits_app in Hd as [_ ?].
Qed.

Lemma digits_rstrip0 l : digits l -> digits (rstrip0 l).
Proof.
  destruct (rstrip0_spec l) as (n & Hl). intros Hd. rewrite Hl in Hd.
  by apply digits_app in Hd as [? _].
Qed.

End char_lemmas.

(** ** Exponents as strings *)

Section exponent_lemmas.
Implicit Types (z e : Z) (p : positive).

Lemma digits_of_uint u : digits (list_ascii_of_string (NilEmpty.string_of_uint u)).
Proof. induction u; simpl; by constructor. Qed.

Lemma unsignedInt_pos p : unsignedInt (Z_to_chars (Z.pos p)) = Some (Z.pos p).
Proof.
  unfold unsignedInt, Z_to_chars. simpl.
  rewrite string_of_list_ascii_of_string, NilZero.usu
    by apply Unsigned.to_uint_nonnil.
  simpl. unfold Z.of_uint. by rewrite Unsigned.of_to.
Qed.

Lemma string_of_uint_nonnil u :
  u <> Decimal.Nil -> NilZero.string_of_uint u = NilEmpty.string_of_uint u.
Proof. by destruct u. Qed.

Lemma digits_Z_to_chars z : 0 <= z -> digits (Z_to_chars z) /\ Z_to_chars z <> [].
Proof.
  destruct z as [|p|p]; [by repeat constructor | | lia]. intros _.
  unfold Z_to_chars. simpl. pose proof (Unsigned.to_uint_nonnil p) as Hp.
  rewrite string_of_uint_nonnil by done.
  split; [apply digits_of_uint | by destruct (Pos.to_uint p)].
Qed.

Lemma unsignedInt_Z_to_chars z : 0 <= z -> unsignedInt (Z_to_chars z) = Some z.
Proof. destruct z; [done | intros _; apply unsignedInt_pos | lia]. Qed.

Lemma signedInt_digits l : digits l -> signedInt l = unsignedInt l.
Proof.
  destruct 1 as [|a l Ha _]; [done|]. simpl.
  by rewrite (is_digit_other a "-"), (is_digit_other a "+").
Qed.

(** The exponent that [toExponential] prints reads back. *)
Lemma signedInt_exponent e :
  signedInt ((if e <? 0 then [] else ["+"]) ++ Z_to_chars e) = Some e.
Proof.
  destruct e as [|p|p]; [done | simpl; apply unsignedInt_pos |].
  change (Z_to_chars (Z.neg p)) with ("-" :: Z_to_chars (Z.pos p)).
  simpl. by rewrite unsignedInt_pos.
Qed.

End exponent_lemmas.

(** ** Normal forms *)

Section number_lemmas.
Implicit Types (x : BigNumber) (c l ip fp : list ascii) (e k : Z) (neg : bool).

Lemma normalised_Finite neg c e :
  normalised (Finite neg c e)
  <-> digits c /\ ((c = ["0"] /\ e = 0)
                   \/ (coefficient c /\ MIN_EXP <= e <= MAX_EXP)).
Proof. unfold coefficient. simpl. rewrite digits_forallb. tauto. Qed.

Lemma coefficient_not_zero c : coefficient c -> c <> ["0"].
Proof. by intros (_ & Hl & _ & Hc) ->. Qed.

(** What [make] does to a coefficient between two blocks of zeros. *)
Lemma make_pad neg n c m e :
  coefficient c ->
  make neg (replicate n "0" ++ c ++ replicate m "0") e
  = if MAX_EXP <? e - Z.of_nat n - 1 then Infinity neg
    else if e - Z.of_nat n - 1 <? MIN_EXP then zero neg
    else Finite neg c (e - Z.of_nat n - 1).
Proof.
  intros (_ & Hl & Hr & Hc). unfold make.
  rewrite lstrip0_zeros, (lstrip0_fixed_app c), rstrip0_zeros, Hr by done.
  rewrite length_app, length_replicate, Nat.add_sub. by destruct c.
Qed.

Lemma normalised_zero neg : normalised (zero neg).
Proof. apply normalised_Finite. split; [by repeat constructor | by left]. Qed.

Lemma coefficient_strip l :
  digits l -> rstrip0 (lstrip0 l) <> [] -> coefficient (rstrip0 (lstrip0 l)).
Proof.
  intros Hd Hc.
  split_and!; auto using digits_rstrip0, digits_lstrip0, lstrip0_rstrip0,
    lstrip0_idem, rstrip0_idem.
Qed.

Lemma normalised_make neg l e : digits l -> normalised (make neg l e).
Proof.
  intros Hd. unfold make.
  destruct (rstrip0 (lstrip0 l)) as [|a c] eqn:Hc; [apply normalised_zero|].
  case_match eqn:Hmax; [done|]. case_match eqn:Hmin; [apply normalised_zero|].
  apply Z.ltb_ge in Hmax, Hmin. rewrite <- Hc. apply normalised_Finite.
  assert (coefficient (rstrip0 (lstrip0 l))) as Hco
    by (apply coefficient_strip; [done | by rewrite Hc]).
  split; [apply Hco | right; split; [done | lia]].
Qed.

(** The constructor on a string of digits: zero, or a coefficient with the
    exponent of an integer. *)
Lemma make_digits neg l :
  digits l -> Z.of_nat (length l) <= MAX_EXP ->
  make neg l (Z.of_nat (length l)) = zero neg
  \/ exists c e, make neg l (Z.of_nat (length l)) = Finite neg c e
       /\ coefficient c /\ 0 <= e < Z.of_nat (length l).
Proof.
  intros Hd Hlen. unfold make.
  destruct (rstrip0 (lstrip0 l)) as [|a c] eqn:Hc; [by left | right].
  assert (lstrip0 l <> []) as Hne by (by intros Hnil; rewrite Hnil in Hc).
  assert (length (lstrip0 l) <= length l)%nat
    by (destruct (lstrip0_spec l) as (n & Hl & _);
        rewrite Hl at 2; rewrite length_app; lia).
  assert (0 < length (lstrip0 l))%nat by (destruct (lstrip0 l); [done | simpl; lia]).
  eexists _, _. rewrite !(proj2 (Z.ltb_ge _ _)) by (unfold MIN_EXP; lia).
  split_and!; [done | | lia | lia].
  rewrite <- Hc. apply coefficient_strip; [done | by rewrite Hc].
Qed.

Lemma mantissa_digits l ip fp : mantissa l = Some (ip, fp) -> digits (ip ++ fp).
Proof.
  unfold mantissa. destruct (break is_dot l) as [ip' [fp'|]];
    case_match; intros; simplify_eq; do_bool;
    rewrite ?app_nil_r; try apply digits_app; by rewrite <- !digits_forallb.
Qed.

End number_lemmas.

(** ** Reading what was printed *)

Section reading.
Implicit Types (x : BigNumber) (c l m ip fp xs : list ascii) (e : Z) (neg : bool).

Lemma digits_no_e l : digits l -> Forall (fun a => is_e a = false) l.
Proof. intros Hd. eapply Forall_impl; [done | apply is_digit_not_e]. Qed.

Lemma digits_no_dot l : digits l -> Forall (fun a => is_dot a = false) l.
Proof. intros Hd. eapply Forall_impl; [done | apply is_digit_not_dot]. Qed.

Lemma mantissa_int l : digits l -> l <> [] -> mantissa l = Some (l, []).
Proof.
  intros Hd Hl. unfold mantissa. rewrite break_none by by apply digits_no_dot.
  apply digits_forallb in Hd as ->. by destruct l.
Qed.

Lemma mantissa_point ip fp :
  digits ip -> digits fp -> ip <> [] -> mantissa (ip ++ "." :: fp) = Some (ip, fp).
Proof.
  intros Hi Hf Hn. unfold mantissa.
  rewrite break_app by (by apply digits_no_dot || done).
  apply digits_forallb in Hi as ->, Hf as ->. by destruct ip.
Qed.

Lemma unsignedLiteral_plain m ip fp :
  Forall (fun a => is_e a = false) m -> mantissa m = Some (ip, fp) ->
  unsignedLiteral m = Some (ip, fp, 0).
Proof. intros He Hm. unfold unsignedLiteral. by rewrite break_none, Hm. Qed.

Lemma unsignedLiteral_exponent m xs ip fp e :
  Forall (fun a => is_e a = false) m -> mantissa m = Some (ip, fp) ->
  signedInt xs = Some e ->
  unsignedLiteral (m ++ "e" :: xs) = Some (ip, fp, e).
Proof.
  intros He Hm Hx. unfold unsignedLiteral. rewrite break_app by done.
  by rewrite Hm; simpl; rewrite Hx.
Qed.

Lemma exponent_suffix e :
  (if e <? 0 then ["e"] else ["e"; "+"]) ++ Z_to_chars e
  = "e" :: (if e <? 0 then [] else ["+"]) ++ Z_to_chars e.
Proof. by destruct (e <? 0). Qed.

Lemma reads_exponential c e : coefficient c -> reads_as (toExponential c e) c e.
Proof.
  intros (Hd & _ & _ & Hc). unfold toExponential. rewrite exponent_suffix.
  destruct c as [|a [|b r]]; [done| |]; apply Forall_cons in Hd as [Ha Hd].
  - exists [a], [], e, 0%nat, 0%nat. split_and!; [|done|simpl; lia|by eexists _, _].
    apply unsignedLiteral_exponent, signedInt_exponent;
      [by apply digits_no_e; constructor | apply mantissa_int; by repeat constructor].
  - exists [a], (b :: r), e, 0%nat, 0%nat.
    split_and!; [|simpl; by rewrite app_nil_r|simpl; lia|by eexists _, _].
    apply (unsignedLiteral_exponent (a :: "." :: b :: r)), signedInt_exponent.
    + constructor; [by apply is_digit_not_e|]. constructor; [done|].
      by apply digits_no_e.
    + by apply (mantissa_point [a]); [repeat constructor|..].
Qed.

Lemma reads_fixed c e : coefficient c -> reads_as (toFixedPoint c e) c e.
Proof.
  intros (Hd & Hl & Hr & Hc). unfold toFixedPoint.
  assert (exists a rest, c = a :: rest /\ is_digit a = true) as (a & rest & -> & Ha)
    by (destruct Hd; [done | by eexists _, _]).
  set (c := a :: rest) in *.
  destruct (Z.ltb_spec e 0); [|destruct (Z.ltb_spec (Z.of_nat (length c)) (e + 1));
    [|destruct (Z.ltb_spec (e + 1) (Z.of_nat (length c)))]].
  - exists ["0"], (replicate (Z.to_nat (- e - 1)) "0" ++ c), 0,
      (S (Z.to_nat (- e - 1))), 0%nat.
    split_and!; [|simpl; by rewrite app_nil_r|simpl; lia|by eexists _, _].
    assert (digits (replicate (Z.to_nat (- e - 1)) "0" ++ c))
      by (apply digits_app; auto using digits_zeros).
    apply unsignedLiteral_plain; [|by apply (mantissa_point ["0"]); [repeat constructor|..]].
    do 2 (constructor; [done|]). by apply digits_no_e.
  - exists (c ++ replicate (Z.to_nat (e + 1 - Z.of_nat (length c))) "0"), [], 0,
      0%nat, (Z.to_nat (e + 1 - Z.of_nat (length c))).
    split_and!; [|simpl; by rewrite app_nil_r|
      rewrite length_app, length_replicate; lia|by eexists _, _].
    assert (digits (c ++ replicate (Z.to_nat (e + 1 - Z.of_nat (length c))) "0"))
      by (apply digits_app; auto using digits_zeros).
    apply unsignedLiteral_plain; [by apply digits_no_e | by apply mantissa_int].
  - replace (Z.to_nat (e + 1)) with (S (Z.to_nat e)) by lia.
    exists (take (S (Z.to_nat e)) c), (drop (S (Z.to_nat e)) c), 0, 0%nat, 0%nat.
    assert (digits (take (S (Z.to_nat e)) c) /\ digits (drop (S (Z.to_nat e)) c))
      as [Ht Hdr] by (split; [by apply Forall_take | by apply Forall_drop]).
    split_and!; [|simpl; by rewrite take_drop, app_nil_r|
      rewrite length_take; lia|by eexists _, _].
    apply unsignedLiteral_plain; [|by apply mantissa_point].
    apply Forall_app; split; [by apply digits_no_e|].
    constructor; [done | by apply digits_no_e].
  - exists c, [], 0, 0%nat, 0%nat.
    split_and!; [|simpl; by rewrite app_nil_r|lia|by eexists _, _].
    apply unsignedLiteral_plain; [by apply digits_no_e | by apply mantissa_int].
Qed.

Lemma numeric_signed neg body ip fp e :
  unsignedLiteral body = Some (ip, fp, e) ->
  (exists a rest, body = a :: rest /\ is_digit a = true) ->
  numeric ((if neg then ["-"] else []) ++ body) = Some (neg, (ip, fp, e)).
Proof.
  intros Hu (a & rest & -> & Ha). destruct neg; simpl; [by rewrite Hu|].
  by rewrite (is_digit_other a "-"), Hu.
Qed.

(** The literal that [toString] prints for a number that is not zero
    reads back as that number. *)
Lemma make_reads neg body c e :
  coefficient c -> MIN_EXP <= e <= MAX_EXP -> reads_as body c e ->
  exists ip fp k,
    numeric ((if neg then ["-"] else []) ++ body) = Some (neg, (ip, fp, k))
    /\ make neg (ip ++ fp) (Z.of_nat (length ip) + k) = Finite neg c e.
Proof.
  intros Hc He (ip & fp & k & n & m & Hu & Happ & Hexp & Hhead).
  exists ip, fp, k. split; [by apply numeric_signed|].
  rewrite Happ, make_pad by done.
  replace (Z.of_nat (length ip) + k - Z.of_nat n - 1) with e by lia.
  by rewrite !(proj2 (Z.ltb_ge _ _)) by lia.
Qed.

Lemma reads_toChars c e :
  coefficient c ->
  reads_as (if (e <=? TO_EXP_NEG) || (TO_EXP_POS <=? e)
            then toExponential c e else toFixedPoint c e) c e.
Proof. intros. case_match; auto using reads_exponential, reads_fixed. Qed.

Lemma of_string_numeric s neg ip fp k :
  numeric (list_ascii_of_string s) = Some (neg, (ip, fp, k)) ->
  BigNumber_of_string s = make neg (ip ++ fp) (Z.of_nat (length ip) + k).
Proof. unfold BigNumber_of_string. by intros ->. Qed.

Lemma of_string_toString x :
  normalised x -> negative_zero x = false -> BigNumber_of_string (toString x) = x.
Proof.
  destruct x as [|neg|neg c e]; [done | by destruct neg |].
  intros [Hd [[-> ->]|[Hc He]]]%normalised_Finite Hz; [by destruct neg|].
  pose proof (coefficient_not_zero _ Hc) as Hnz.
  destruct (make_reads neg _ c e Hc He (reads_toChars c e Hc))
    as (ip & fp & k & Hn & Hm).
  rewrite (of_string_numeric _ neg ip fp k); [done|].
  unfold toString, toChars. rewrite list_ascii_of_string_of_list_ascii.
  by rewrite bool_decide_eq_false_2, andb_true_r.
Qed.

Lemma of_string_digits l :
  digits l -> l <> [] ->
  BigNumber_of_string (string_of_list_ascii l) = make false l (Z.of_nat (length l)).
Proof.
  intros Hd Hl.
  rewrite (of_string_numeric _ false l [] 0); [by rewrite app_nil_r, Z.add_0_r|].
  rewrite list_ascii_of_string_of_list_ascii. apply (numeric_signed false).
  - apply unsignedLiteral_plain; [by apply digits_no_e | by apply mantissa_int].
  - destruct Hd; [done | by eexists _, _].
Qed.

End reading.

(** ** Shifting *)

Section shifting.
Implicit Types (x y : BigNumber) (c l : list ascii) (e k d : Z) (neg : bool).

Lemma times_zero neg k : k <= MAX_EXP -> timesPowerOfTen k (zero neg) = zero neg.
Proof. intros Hk. simpl. by rewrite (proj2 (Z.ltb_ge _ _)). Qed.

Lemma times_Finite neg c e k :
  coefficient c -> MIN_EXP <= k <= MAX_EXP -> MIN_EXP <= e + k <= MAX_EXP ->
  timesPowerOfTen k (Finite neg c e) = Finite neg c (e + k).
Proof.
  intros Hc%coefficient_not_zero Hk He. simpl.
  rewrite decide_False by done. by rewrite !(proj2 (Z.ltb_ge _ _)) by lia.
Qed.

Lemma normalised_times k x : normalised x -> normalised (timesPowerOfTen k x).
Proof.
  destruct x as [|neg|neg c e]; [done | by simpl; case_match |].
  intros [Hd [[-> ->]|[Hc He]]]%normalised_Finite; simpl.
  - case_match; [exact I | apply normalised_zero].
  - rewrite decide_False by by apply coefficient_not_zero.
    repeat case_match; try exact I; try apply normalised_zero.
    apply normalised_Finite. split; [done|]. right. split; [done|].
    repeat match goal with H : (_ <? _) = false |- _ => apply Z.ltb_ge in H end.
    lia.
Qed.

Lemma shiftedBy_safe k x :
  - MAX_SAFE_INTEGER <= k <= MAX_SAFE_INTEGER ->
  shiftedBy k x = Ok (timesPowerOfTen k x).
Proof.
  intros Hk. unfold shiftedBy.
  by rewrite (proj2 (Z.leb_le _ _)), (proj2 (Z.leb_le _ _)) by lia.
Qed.

Lemma formatAmount_safe s d :
  - MAX_SAFE_INTEGER <= d <= MAX_SAFE_INTEGER ->
  formatAmount s d = Ok (toString (timesPowerOfTen (- d) (BigNumber_of_string s))).
Proof. intros Hd. unfold formatAmount. by rewrite shiftedBy_safe by lia. Qed.

End shifting.

(** ** Up to the sign of zero *)

#[export] Instance BigNumber_equivalence : Equivalence (≡@{BigNumber}).
Proof.
  split.
  - by left.
  - intros x y [->|(n1 & n2 & e & -> & ->)]; [by left | right; eauto].
  - intros x y z [->|(n1 & n2 & e & -> & ->)]; [done|].
    intros [<-|(n3 & n4 & e' & [= <- <-] & ->)]; right; eauto.
Qed.

#[export] Instance toString_proper : Proper ((≡) ==> (=)) toString.
Proof.
  intros x y [->|(n1 & n2 & e & -> & ->)]; [done|].
  unfold toString, toChars. by rewrite bool_decide_eq_true_2, !andb_false_r.
Qed.

#[export] Instance timesPowerOfTen_proper k :
  Proper ((≡) ==> (≡)) (timesPowerOfTen k).
Proof.
  intros x y [->|(n1 & n2 & e & -> & ->)]; [done|]. simpl.
  case_match; [done|]. right. by exists n1, n2, 0.
Qed.

Section sign_of_zero.
Implicit Types (x y : BigNumber).

Lemma normalised_negative_zero x :
  normalised x -> negative_zero x = true -> x = zero true.
Proof.
  destruct x as [| |[] c e]; try done. intros Hx ->%bool_decide_eq_true.
  apply normalised_Finite in Hx as [_ [[_ ->]|[Hc _]]];
    [done | by apply coefficient_not_zero in Hc].
Qed.

(** Reading what [toString] printed gives the number back, up to the sign
    of zero. *)
Lemma of_string_toString_equiv x :
  normalised x -> BigNumber_of_string (toString x) ≡ x.
Proof.
  intros Hx. destruct (negative_zero x) eqn:Hz.
  - rewrite (normalised_negative_zero x Hx Hz). right. by exists false, true, 0.
  - by rewrite of_string_toString.
Qed.

End sign_of_zero.

(** ** The domain of the model

    The strings that the constructor reads as decimal literals are among
    those the library does not rewrite. *)

Section domain.
Implicit Types (a : ascii) (l m xs : list ascii) (s : string).

Lemma literal_char_plain a :
  literal_char a = true -> is_space a = false /\ is_base_letter a = false.
Proof. destruct a as [[] [] [] [] [] [] [] []]; by vm_compute. Qed.

Lemma uint_of_char_digit a d u :
  uint_of_char a (Some d) = Some u -> is_digit a = true.
Proof. destruct a as [[] [] [] [] [] [] [] []]; by vm_compute. Qed.

Lemma break_spec p l x y :
  break p l = (x, y) ->
  match y with
  | Some r => exists a, p a = true /\ l = x ++ a :: r
  | None => l = x
  end.
Proof.
  revert x y. induction l as [|a l IH]; simpl; intros x y; [by intros [= <- <-]|].
  destruct (p a) eqn:Ha; [intros [= <- <-]; by exists a|].
  destruct (break p l) as [x' y']. intros [= <- <-].
  specialize (IH x' y' eq_refl). destruct y' as [r|]; [|by rewrite IH].
  destruct IH as (b & Hb & ->). by exists b.
Qed.

Lemma unsignedInt_digits l z : unsignedInt l = Some z -> digits l.
Proof.
  unfold unsignedInt. intros (u & Hu & _)%fmap_Some.
  assert (NilEmpty.uint_of_string (string_of_list_ascii l) = Some u) as Hu'
    by by destruct l.
  clear Hu. revert u Hu'.
  induction l as [|a l IH]; intros u; simpl; [constructor|].
  destruct (NilEmpty.uint_of_string _) as [d|] eqn:Hd;
    [|by destruct a as [[] [] [] [] [] [] [] []]].
  intros Ha%uint_of_char_digit. constructor; [done | by eapply IH].
Qed.

Lemma digits_literal l : digits l -> Forall (fun a => literal_char a = true) l.
Proof.
  intros Hd. eapply Forall_impl; [done|]. intros a Ha. unfold literal_char.
  by rewrite Ha.
Qed.

Lemma signedInt_literal xs z :
  signedInt xs = Some z -> Forall (fun a => literal_char a = true) xs.
Proof.
  destruct xs as [|a xs]; [done|]. simpl.
  destruct (Ascii.eqb_spec a "-") as [->|];
    [|destruct (Ascii.eqb_spec a "+") as [->|]].
  - intros (u & Hu%unsignedInt_digits & _)%fmap_Some.
    constructor; [done | by apply digits_literal].
  - intros Hu%unsignedInt_digits. constructor; [done | by apply digits_literal].
  - intros Hu%unsignedInt_digits. by apply digits_literal.
Qed.

Lemma mantissa_literal m ip fp :
  mantissa m = Some (ip, fp) ->
  Forall (fun a => literal_char a = true) m
  /\ exists a m', m = a :: m' /\ is_digit a || is_dot a = true.
Proof.
  unfold mantissa. destruct (break is_dot m) as [ip' [fp'|]] eqn:Hd;
    apply break_spec in Hd.
  - destruct Hd as (b & Hb & ->).
    destruct (forallb is_digit ip') eqn:Hi; [|done].
    destruct (forallb is_digit fp') eqn:Hf; [|done]. intros _.
    apply digits_forallb in Hi, Hf. split.
    + apply Forall_app. split; [by apply digits_literal|].
      constructor; [|by apply digits_literal].
      unfold literal_char. by rewrite Hb, orb_true_r.
    + destruct Hi as [|a ip' Ha _]; [exists b, fp'; by rewrite Hb, orb_true_r|].
      exists a, (ip' ++ b :: fp'). by rewrite Ha.
  - subst ip'. destruct (forallb is_digit m) eqn:Hi; [|done].
    apply digits_forallb in Hi. destruct m as [|a m]; [done|]. intros _.
    split; [by apply digits_literal|]. exists a, m.
    by rewrite (Forall_inv Hi).
Qed.

(** A literal without its sign consists of digits, a point, the letter
    of the exponent and signs, and starts with a digit or the point. *)
Lemma unsignedLiteral_literal l r :
  unsignedLiteral l = Some r ->
  Forall (fun a => literal_char a = true) l
  /\ exists a l', l = a :: l' /\ is_digit a || is_dot a = true.
Proof.
  unfold unsignedLiteral. destruct (break is_e l) as [m ex] eqn:Hb.
  apply break_spec in Hb.
  destruct (mantissa m) as [[ip fp]|] eqn:Hm; simpl; [|done].
  apply mantissa_literal in Hm as [Hl (a & m' & -> & Ha)].
  destruct ex as [xs|]; [|subst; intros _; split; [done | by exists a, m']].
  destruct Hb as (b & Hb & ->).
  destruct (signedInt xs) as [z|] eqn:Hs; [|done]. intros _.
  split; [|by exists a, (m' ++ b :: xs)].
  apply Forall_app. split; [done|]. constructor; [|by eapply signedInt_literal].
  unfold literal_char. by rewrite Hb, !orb_true_r.
Qed.

Lemma numeric_literal l r :
  numeric l = Some r ->
  Forall (fun a => literal_char a = true) l
  /\ exists a l', l = a :: l' /\ Ascii.eqb a "+" = false.
Proof.
  destruct l as [|a l]; [done|]. simpl.
  destruct (Ascii.eqb_spec a "-") as [->|Hm].
  - intros (r' & [Hl _]%unsignedLiteral_literal & _)%fmap_Some.
    split; [by constructor | by exists "-", l].
  - intros (r' & [Hl (b & l' & [= <- <-] & Hb)]%unsignedLiteral_literal & _)%fmap_Some.
    split; [done|]. exists a, l. split; [done|].
    destruct (Ascii.eqb_spec a "+") as [->|]; done.
Qed.

(** Every decimal literal is in the domain of the model. *)
Lemma numeric_plain s r : numeric (list_ascii_of_string s) = Some r -> plain s = true.
Proof.
  intros [Hl (a & l' & Hs & Ha)]%numeric_literal. unfold plain. rewrite Hs in *.
  assert (Forall (fun b => is_space b = false /\ is_base_letter b = false) (a :: l'))
    as Hp by (eapply Forall_impl; [done | apply literal_char_plain]).
  rewrite Ha, (proj1 (Forall_inv Hp)). simpl. apply andb_true_iff. split.
  - destruct (last (a :: l')) as [b|] eqn:Hlast; [|done].
    apply last_Some_elem_of in Hlast.
    by rewrite (proj1 (proj1 (Forall_forall _ _) Hp b Hlast)).
  - unfold base_prefixed. apply negb_true_iff.
    destruct (Ascii.eqb a "-"), l' as [|b [|c l'']]; try done;
      apply andb_false_iff; right;
      repeat (apply Forall_cons in Hp as [? Hp]); naive_solver.
Qed.
End domain.

(** ** What the three operations guarantee *)

Section amount_theorems.
Implicit Types (x y : BigNumber) (c l ip fp : list ascii) (e k d : Z) (s raw : string).

Lemma unsignedLiteral_digits l ip fp k :
  unsignedLiteral l = Some (ip, fp, k) -> digits (ip ++ fp).
Proof.
  unfold unsignedLiteral. destruct (break is_e l) as [m ex].
  destruct (mantissa m) as [[ip' fp']|] eqn:Hm; simpl; [|done].
  case_match; simpl; intros; simplify_option_eq; by eapply mantissa_digits.
Qed.

Lemma numeric_digits l neg ip fp k :
  numeric l = Some (neg, (ip, fp, k)) -> digits (ip ++ fp).
Proof.
  unfold numeric. destruct l as [|a l]; [done|].
  case_match; intros; simplify_option_eq; by eapply unsignedLiteral_digits.
Qed.

Lemma make_coefficient neg c e :
  coefficient c -> MIN_EXP <= e - 1 <= MAX_EXP -> make neg c e = Finite neg c (e - 1).
Proof.
  intros Hc He. pose proof (make_pad neg 0 c 0 e Hc) as Hm.
  simpl in Hm. rewrite app_nil_r, Z.sub_0_r in Hm.
  by rewrite Hm, !(proj2 (Z.ltb_ge _ _)) by lia.
Qed.

(** Shifting down, printing, reading and shifting up again. *)
Lemma shift_back x d :
  x = zero false
  \/ (exists c e, x = Finite false c e /\ coefficient c /\ 0 <= e <= MAX_EXP) ->
  0 <= d <= MAX_EXP ->
  timesPowerOfTen d (BigNumber_of_string (toString (timesPowerOfTen (- d) x))) = x.
Proof.
  intros [->|(c & e & -> & Hc & He)] Hd.
  - rewrite times_zero, of_string_toString, times_zero;
      auto using normalised_zero; lia.
  - assert (MIN_EXP = - MAX_EXP) as HM by done.
    assert (normalised (Finite false c (e + - d)))
      by (apply normalised_Finite; split; [apply Hc | right; split; [done | lia]]).
    rewrite times_Finite, of_string_toString, times_Finite by (done || lia).
    f_equal. lia.
Qed.

(** An amount in base units reads as zero or as a positive integer. *)
Lemma of_string_amount raw :
  digits (list_ascii_of_string raw) -> raw <> ""%string ->
  Z.of_nat (String.length raw) <= MAX_EXP ->
  BigNumber_of_string raw = zero false
  \/ (exists c e, BigNumber_of_string raw = Finite false c e
        /\ coefficient c /\ 0 <= e <= MAX_EXP).
Proof.
  rewrite <- length_list_ascii_of_string.
  remember (list_ascii_of_string raw) as l eqn:Hl. intros Hd Hne Hlen.
  assert (raw = string_of_list_ascii l) as ->
    by (subst; symmetry; apply string_of_list_ascii_of_string).
  rewrite of_string_digits by (done || by intros ->).
  destruct (make_digits false _ Hd Hlen) as [Hm|(c & e & Hm & Hc & He)];
    rewrite Hm; [by left | right]. exists c, e. split; [done | split; [done | lia]].
Qed.

(** The constructor returns a number in normal form, whatever the string:
    digits only in the coefficient, no zeros at its ends, the exponent
    within the library's limits. *)
Lemma BigNumber_of_string_normalised s : normalised (BigNumber_of_string s).
Proof.
  unfold BigNumber_of_string.
  destruct (numeric _) as [[neg [[ip fp] k]]|] eqn:Hn.
  - by apply normalised_make, (numeric_digits _ _ _ _ _ Hn).
  - unfold parseNumeric. by repeat case_match.
Qed.

(** [shiftedBy] keeps the normal form, overflow to infinity and underflow
    to zero included. *)
Lemma shiftedBy_normalised k x y :
  normalised x -> shiftedBy k x = Ok y -> normalised y.
Proof.
  unfold shiftedBy. case_match; [|done]. intros Hx [= <-].
  by apply normalised_times.
Qed.

(** [shiftedBy] throws exactly when its argument is outside the safe
    integers, and the error carries the argument. *)
Lemma shiftedBy_throws k x err :
  shiftedBy k x = Err err
  <-> (k < - MAX_SAFE_INTEGER \/ MAX_SAFE_INTEGER < k) /\ err = ArgumentOutOfRange k.
Proof.
  unfold shiftedBy.
  destruct (Z.leb_spec (- MAX_SAFE_INTEGER) k), (Z.leb_spec k MAX_SAFE_INTEGER);
    simpl; naive_solver lia.
Qed.

(** [toString] is canonical: two normal forms that print the same are the
    same number. *)
Lemma toString_injective x y :
  normalised x -> normalised y ->
  negative_zero x = false -> negative_zero y = false ->
  toString x = toString y -> x = y.
Proof.
  intros Hx Hy Hzx Hzy Heq.
  by rewrite <- (of_string_toString x), <- (of_string_toString y), Heq.
Qed.

(** C7: The round trip of the decimal shift: an amount in base units
    formatted with [d] decimals and shifted back by [d] is the amount. *)
Theorem formatAmount_roundtrip raw d :
  digits (list_ascii_of_string raw) -> raw <> ""%string ->
  Z.of_nat (String.length raw) <= MAX_EXP -> 0 <= d <= MAX_EXP ->
  exists s, formatAmount raw d = Ok s
    /\ formatAmount s (- d) = Ok (toString (BigNumber_of_string raw)).
Proof.
  intros Hd Hne Hlen Hdr. assert (MAX_EXP <= MAX_SAFE_INTEGER) by done.
  rewrite formatAmount_safe by lia. eexists. split; [done|].
  rewrite formatAmount_safe, Z.opp_involutive by lia. do 2 f_equal.
  by apply shift_back; [apply of_string_amount|].
Qed.

Lemma coefficient_length c : coefficient c -> (0 < length c)%nat.
Proof. intros (_ & _ & _ & Hc). destruct c; [done | simpl; lia]. Qed.

Lemma of_string_coefficient c :
  coefficient c -> Z.of_nat (length c) <= MAX_EXP ->
  BigNumber_of_string (string_of_list_ascii c)
  = Finite false c (Z.of_nat (length c) - 1).
Proof.
  intros Hc Hlen. pose proof (coefficient_length c Hc).
  rewrite of_string_digits by apply Hc.
  apply make_coefficient; [done | unfold MIN_EXP; lia].
Qed.

Lemma times_0 x : normalised x -> timesPowerOfTen 0 x = x.
Proof.
  destruct x as [|neg|neg c e]; [done..|].
  intros [Hd [[-> ->]|[Hc He]]]%normalised_Finite; [done|].
  rewrite times_Finite by (done || lia). by rewrite Z.add_0_r.
Qed.

(** Printing, reading and printing again prints the same, zero with a
    minus sign included. *)
Lemma toString_of_string_toString x :
  normalised x -> toString (BigNumber_of_string (toString x)) = toString x.
Proof. intros Hx. by rewrite of_string_toString_equiv. Qed.

(** The formatted amount is canonical: whatever the amount and the
    decimals, formatting the result again without a shift returns it
    unchanged. *)
Theorem formatAmount_idempotent raw d s :
  formatAmount raw d = Ok s -> formatAmount s 0 = Ok s.
Proof.
  unfold formatAmount at 1, shiftedBy. case_match; [|done]. intros [= <-].
  assert (normalised (timesPowerOfTen (- d) (BigNumber_of_string raw))) as Hx
    by apply normalised_times, BigNumber_of_string_normalised.
  rewrite formatAmount_safe by done. simpl.
  by rewrite of_string_toString_equiv, times_0.
Qed.

(** C32: Formatting moves the decimal point: an amount whose digits are
    [ip ++ fp], formatted with as many decimals as [fp] has digits, prints
    as [ip], a point and [fp], as long as [ip] has at most 21 digits. *)
Theorem formatAmount_point ip fp :
  coefficient (ip ++ fp) -> ip <> [] -> fp <> [] ->
  (length ip <= 21)%nat -> Z.of_nat (length (ip ++ fp)) <= MAX_EXP ->
  formatAmount (string_of_list_ascii (ip ++ fp)) (Z.of_nat (length fp))
  = Ok (string_of_list_ascii (ip ++ "." :: fp)).
Proof.
  intros Hc Hi Hf Hip Hlen. assert (MAX_EXP <= MAX_SAFE_INTEGER) by done.
  assert (MIN_EXP = - MAX_EXP) by done.
  assert (0 < length ip /\ 0 < length fp)%nat as [? ?]
    by (destruct ip, fp; simpl; done || lia).
  rewrite length_app in Hlen.
  rewrite formatAmount_safe, of_string_coefficient, times_Finite, length_app
    by (done || rewrite ?length_app; lia).
  replace (Z.of_nat (length ip + length fp) - 1 + - Z.of_nat (length fp))
    with (Z.of_nat (length ip) - 1) by lia.
  unfold toString, toChars, toFixedPoint. simpl. rewrite length_app.
  rewrite !(proj2 (Z.leb_gt _ _)), !(proj2 (Z.ltb_ge _ _)),
    (proj2 (Z.ltb_lt _ _)) by (unfold TO_EXP_NEG, TO_EXP_POS; lia).
  replace (Z.to_nat (Z.of_nat (length ip) - 1 + 1)) with (length ip) by lia.
  by rewrite take_app_length, drop_app_length.
Qed.

(** C26: An amount below one millionth of a unit prints in exponential
    notation: with at least six more decimals than the amount has digits,
    the formatted string is [toExponential]'s. *)
Theorem formatAmount_small c d :
  coefficient c -> Z.of_nat (length c) + 6 <= d <= MAX_EXP ->
  formatAmount (string_of_list_ascii c) d
  = Ok (string_of_list_ascii (toExponential c (Z.of_nat (length c) - 1 - d))).
Proof.
  intros Hc Hd. assert (MAX_EXP <= MAX_SAFE_INTEGER) by done.
  assert (MIN_EXP = - MAX_EXP) by done. pose proof (coefficient_length c Hc).
  rewrite formatAmount_safe, of_string_coefficient, times_Finite
    by (done || lia).
  unfold toString, toChars. simpl.
  by rewrite (proj2 (Z.leb_le _ _)) by (unfold TO_EXP_NEG; lia).
Qed.

(** C25: The exponent of the library is bounded: an amount formatted with
    more than [MAX_EXP] decimals, or whose exponent after the shift falls
    below [MIN_EXP], prints as 0; shifted beyond [MAX_EXP] it prints as
    Infinity; in between it is the number with the shifted exponent. *)
Theorem formatAmount_range c d :
  coefficient c -> Z.of_nat (length c) <= MAX_EXP ->
  - MAX_SAFE_INTEGER <= d <= MAX_SAFE_INTEGER ->
  let e := Z.of_nat (length c) - 1 - d in
  formatAmount (string_of_list_ascii c) d
  = Ok (if (MAX_EXP <? d) || (e <? MIN_EXP) then "0"%string
        else if (d <? MIN_EXP) || (MAX_EXP <? e) then "Infinity"%string
        else toString (Finite false c e)).
Proof.
  intros Hc Hlen Hd e. pose proof (coefficient_length c Hc).
  assert (MIN_EXP = - MAX_EXP) by done.
  rewrite formatAmount_safe, of_string_coefficient by done. f_equal.
  simpl. rewrite decide_False by by apply coefficient_not_zero.
  replace (Z.of_nat (length c) - 1 + - d) with e by (unfold e; lia).
  destruct (Z.ltb_spec MAX_EXP (- d)), (Z.ltb_spec (- d) MIN_EXP),
    (Z.ltb_spec MAX_EXP d), (Z.ltb_spec d MIN_EXP),
    (Z.ltb_spec MAX_EXP e), (Z.ltb_spec e MIN_EXP); simpl; done || lia.
Qed.

Lemma of_string_invalid s :
  numeric (list_ascii_of_string s) = None ->
  s <> "Infinity"%string -> s <> "-Infinity"%string ->
  BigNumber_of_string s = NaN.
Proof.
  intros Hn Hi Hm. unfold BigNumber_of_string, parseNumeric. rewrite Hn.
  by rewrite !decide_False.
Qed.

Lemma formatAmount_NaN s d r :
  BigNumber_of_string s = NaN -> formatAmount s d = Ok r -> r = "NaN"%string.
Proof.
  unfold formatAmount, shiftedBy. intros ->. by case_match; intros [= <-].
Qed.

(** A string that is no decimal literal, and that the library does not
    rewrite, formats to "NaN": the malformed amount is not reported, it is
    printed. *)
Theorem formatAmount_invalid s d :
  plain s = true -> numeric (list_ascii_of_string s) = None ->
  s <> "Infinity"%string -> s <> "-Infinity"%string ->
  - MAX_SAFE_INTEGER <= d <= MAX_SAFE_INTEGER ->
  formatAmount s d = Ok "NaN"%string.
Proof.
  intros _ Hn Hi Hm Hd. rewrite formatAmount_safe by done.
  by rewrite of_string_invalid.
Qed.

End amount_theorems.

(** ** Witnesses *)

Lemma coefficient_15 : coefficient (list_ascii_of_string "15").
Proof. by repeat split; [repeat constructor|]. Qed.

Lemma formatAmount_roundtrip_witness :
  exists s, formatAmount "1500000" 6 = Ok s
    /\ formatAmount s (- 6) = Ok (toString (BigNumber_of_string "1500000")).
Proof. apply formatAmount_roundtrip; by repeat constructor. Defined.

Lemma formatAmount_idempotent_witness :
  formatAmount "1.5e-17" 0 = Ok "1.5e-17"%string.
Proof. by apply (formatAmount_idempotent "15" 18). Defined.

Lemma formatAmount_point_witness :
  formatAmount "15" 1 = Ok "1.5"%string.
Proof.
  apply (formatAmount_point ["1"] ["5"]); try done; [|simpl; lia].
  apply coefficient_15.
Defined.

Lemma formatAmount_small_witness :
  formatAmount "15" 18 = Ok "1.5e-17"%string.
Proof.
  apply (formatAmount_small (list_ascii_of_string "15") 18);
    [apply coefficient_15 | done].
Defined.

Lemma formatAmount_invalid_witness :
  formatAmount "1,5" 6 = Ok "NaN"%string.
Proof. by apply formatAmount_invalid. Defined.

Lemma formatAmount_range_witness :
  formatAmount "15" 10000002 = Ok "0"%string
  /\ formatAmount "15" (- 10000000) = Ok "Infinity"%string.
Proof.
  split.
  - apply (formatAmount_range (list_ascii_of_string "15") 10000002);
      [apply coefficient_15 | done | done].
  - apply (formatAmount_range (list_ascii_of_string "15") (- 10000000));
      [apply coefficient_15 | done | done].
Defined.
