(* ===== verification/AmountValue.v ===== *)
(** * AmountValue: the number a formatted amount denotes

    [Amount] models [new BigNumber(lockAmount).shiftedBy(-lockAssetDecimals)
    .toString()] (MintStatuses.tsx, lines 77-80) on strings of characters,
    the way bignumber.js computes it.  This file gives the reference the
    specification has in mind (section 4.2: the decimal point is shifted
    left by the decimals, in exact arithmetic): [value] is the rational
    number a [BigNumber] stands for, its coefficient read in base ten times
    the power of ten of its exponent, and [formatAmount_value] states that
    the string [formatAmount] returns denotes the amount divided by ten to
    the decimals.

    Values are compared with the equality of [Q], under [option]
    ([same_value]): not-a-number and the infinities have no value. *)

From Stdlib Require Import ZArith QArith Qpower Qfield Lia Ascii String.
From stdpp Require Import base tactics option list numbers strings.
From S2P Require Import Prelude Amount.

#[local] Open Scope char_scope.
#[local] Open Scope Z_scope.

Definition digit_value (a : ascii) : Z := Z.of_nat (nat_of_ascii a) - 48.

(** A string of digits read in base ten. *)
Definition digits_value (l : list ascii) : Z :=
  foldl (fun n a => 10 * n + digit_value a) 0 l.

Definition pow10 (k : Z) : Q := (10 ^ k)%Q.

Definition sign (neg : bool) : Z := if neg then -1 else 1.

(** The number [x] stands for: the exponent is that of the first digit of
    the coefficient. *)
Definition value (x : BigNumber) : option Q :=
  match x with
  | Finite neg c e =>
      Some (inject_Z (sign neg * digits_value c)
            * pow10 (e + 1 - Z.of_nat (length c)))%Q
  | NaN | Infinity _ => None
  end.

Definition same_value (a b : option Q) : Prop :=
  match a, b with
  | Some p, Some q => (p == q)%Q
  | None, None => True
  | _, _ => False
  end.

(** ** Digits *)

Section digit_lemmas.
Implicit Types (l c : list ascii) (n : nat).

Lemma digits_value_snoc l a :
  digits_value (l ++ [a]) = 10 * digits_value l + digit_value a.
Proof. unfold digits_value. by rewrite foldl_app. Qed.

Lemma digits_value_app l1 l2 :
  digits_value (l1 ++ l2)
  = digits_value l1 * 10 ^ Z.of_nat (length l2) + digits_value l2.
Proof.
  induction l2 as [|a l2 IH] using rev_ind.
  - rewrite app_nil_r. simpl. unfold digits_value at 3. simpl. lia.
  - rewrite app_assoc, !digits_value_snoc, IH, length_app, Nat2Z.inj_add.
    rewrite Z.pow_add_r by lia. simpl length. lia.
Qed.

Lemma digits_value_zeros n : digits_value (replicate n "0") = 0.
Proof. induction n as [|n IH]; [done | exact IH]. Qed.

(** Zeros in front do not count; zeros at the end are powers of ten. *)
Lemma digits_value_lstrip0 l : digits_value (lstrip0 l) = digits_value l.
Proof.
  destruct (lstrip0_spec l) as (n & Hl & _). rewrite Hl at 2.
  rewrite digits_value_app, digits_value_zeros. lia.
Qed.

Lemma digits_value_rstrip0 l :
  exists n, length l = (length (rstrip0 l) + n)%nat
    /\ digits_value l = digits_value (rstrip0 l) * 10 ^ Z.of_nat n.
Proof.
  destruct (rstrip0_spec l) as [n Hl]. exists n. split.
  - rewrite Hl at 1. by rewrite length_app, length_replicate.
  - rewrite Hl at 1.
    rewrite digits_value_app, digits_value_zeros, length_replicate. lia.
Qed.

End digit_lemmas.

(** ** Powers of ten *)

Section power_lemmas.
Implicit Types (k : Z).

Lemma ten_not_0 : ~ (10 == 0)%Q.
Proof. done. Qed.

Lemma pow10_add a b : (pow10 (a + b) == pow10 a * pow10 b)%Q.
Proof. apply Qpower_plus, ten_not_0. Qed.

Lemma pow10_not_0 k : ~ (pow10 k == 0)%Q.
Proof. apply Qpower_not_0, ten_not_0. Qed.

Lemma pow10_inject k : 0 <= k -> (inject_Z (10 ^ k) == pow10 k)%Q.
Proof. intros Hk. by apply Zpower_Qpower. Qed.

Lemma pow10_opp k : 0 <= k -> (pow10 (- k) == / inject_Z (10 ^ k))%Q.
Proof.
  intros Hk. unfold pow10. rewrite Qpower_opp. apply Qinv_comp.
  symmetry. by apply (Zpower_Qpower 10).
Qed.

(** Digits moved from the coefficient into the exponent. *)
Lemma pow10_shift (z : Z) n k :
  (inject_Z (z * 10 ^ Z.of_nat n) * pow10 k
   == inject_Z z * pow10 (k + Z.of_nat n))%Q.
Proof.
  rewrite inject_Z_mult, pow10_inject, pow10_add by lia. ring.
Qed.

End power_lemmas.

(** ** Values *)

#[export] Instance same_value_equivalence : Equivalence same_value.
Proof.
  split.
  - by intros [p|].
  - intros [p|] [q|]; simpl; first [done | by intros ->].
  - intros [p|] [q|] [r|]; simpl; first [done | by intros -> ->].
Qed.

Section value_lemmas.
Implicit Types (x y : BigNumber) (l c : list ascii) (e k d : Z) (neg : bool).

Lemma value_zero neg : same_value (value (zero neg)) (Some 0%Q).
Proof. simpl. by destruct neg. Qed.

(** The value does not see the sign of zero. *)
Lemma value_equiv x y : x ≡ y -> same_value (value x) (value y).
Proof.
  intros [->|(n1 & n2 & e & -> & ->)]; [done|]. simpl.
  by destruct n1, n2.
Qed.

(** What the constructor makes of digits, within the exponent range. *)
Lemma value_make neg l e :
  MIN_EXP <= e - Z.of_nat (length l) -> e - 1 <= MAX_EXP ->
  same_value (value (make neg l e))
    (Some (inject_Z (sign neg * digits_value l)
           * pow10 (e - Z.of_nat (length l)))%Q).
Proof.
  intros Hlo Hhi. unfold make.
  destruct (lstrip0_spec l) as (i & Hl & _ & Hi).
  destruct (digits_value_rstrip0 (lstrip0 l)) as (n & Hn & Hv).
  assert (length l = (i + length (lstrip0 l))%nat) as Hlen
    by (rewrite Hl at 1; by rewrite length_app, length_replicate).
  rewrite <- (digits_value_lstrip0 l), Hv, Hi.
  destruct (rstrip0 (lstrip0 l)) as [|a c]; simpl in Hn.
  - etrans; [apply value_zero|]. simpl. by destruct neg.
  - rewrite !(proj2 (Z.ltb_ge _ _)) by lia. simpl.
    rewrite Z.mul_assoc, pow10_shift. apply Qmult_comp; [done|].
    unfold pow10. f_equiv. lia.
Qed.

(** Multiplying by a power of ten, within the exponent range. *)
Lemma value_times neg c e k :
  c = ["0"] \/ coefficient c ->
  MIN_EXP <= k <= MAX_EXP -> MIN_EXP <= e + k <= MAX_EXP ->
  same_value (value (timesPowerOfTen k (Finite neg c e)))
    (Some (inject_Z (sign neg * digits_value c)
           * pow10 (e + 1 - Z.of_nat (length c)) * pow10 k)%Q).
Proof.
  intros [->|Hc] Hk He.
  - simpl. rewrite (proj2 (Z.ltb_ge _ _)) by lia. simpl. by destruct neg.
  - rewrite times_Finite by done. simpl.
    rewrite <- Qmult_assoc, <- pow10_add. apply Qmult_comp; [done|].
    unfold pow10. f_equiv. lia.
Qed.

(** An amount in base units stands for the integer it spells. *)
Lemma value_of_digits l :
  digits l -> l <> [] -> Z.of_nat (length l) <= MAX_EXP ->
  same_value (value (BigNumber_of_string (string_of_list_ascii l)))
    (Some (inject_Z (digits_value l))).
Proof.
  intros Hd Hl Hlen. rewrite of_string_digits by done.
  etrans; [apply value_make; unfold MIN_EXP; lia|]. simpl.
  rewrite Z.sub_diag. change (pow10 0) with 1%Q.
  rewrite Qmult_1_r. by destruct (digits_value l).
Qed.

End value_lemmas.

Section value_theorems.
Implicit Types (raw s : string) (d : Z).

(** C8: The formatted amount denotes the amount divided by ten to the
    decimals: for an amount in base units (a string of digits) and
    decimals within the exponent range, the string that [formatAmount]
    returns reads back as a number whose value is the integer the amount
    spells over [10 ^ d], in exact rational arithmetic. *)
Theorem formatAmount_value raw d :
  digits (list_ascii_of_string raw) -> raw <> ""%string ->
  Z.of_nat (String.length raw) <= MAX_EXP -> 0 <= d <= MAX_EXP ->
  exists s, formatAmount raw d = Ok s
    /\ same_value (value (BigNumber_of_string s))
         (Some (inject_Z (digits_value (list_ascii_of_string raw))
                / inject_Z (10 ^ d))%Q).
Proof.
  intros Hd Hne Hlen Hdr. assert (MAX_EXP <= MAX_SAFE_INTEGER) by done.
  assert (MIN_EXP = - MAX_EXP) as HM by done.
  rewrite formatAmount_safe by lia. eexists. split; [done|].
  pose proof (BigNumber_of_string_normalised raw) as Hn.
  rewrite (value_equiv _ _ (of_string_toString_equiv _ (normalised_times _ _ Hn))).
  assert (same_value (value (BigNumber_of_string raw))
            (Some (inject_Z (digits_value (list_ascii_of_string raw))))) as Hv.
  { rewrite <- (string_of_list_ascii_of_string raw) at 1.
    apply value_of_digits; [done|by destruct raw|].
    by rewrite length_list_ascii_of_string. }
  destruct (of_string_amount raw Hd Hne Hlen) as [Hx|(c & e & Hx & Hc & He)];
    rewrite Hx in *.
  - etrans; [apply (value_times false ["0"] 0); [by left|lia..]|].
    simpl in *. rewrite <- Hv. unfold Qdiv. by rewrite !Qmult_0_l.
  - etrans; [apply (value_times false c e); [by right|lia..]|].
    simpl in *. rewrite Hv, pow10_opp by lia. done.
Qed.

End value_theorems.

Lemma formatAmount_value_witness :
  exists s, formatAmount "1500000" 6 = Ok s
    /\ same_value (value (BigNumber_of_string s))
         (Some (inject_Z (digits_value (list_ascii_of_string "1500000"))
                / inject_Z (10 ^ 6))%Q).
Proof.
  apply (formatAmount_value "1500000" 6); [by repeat constructor|done|done|done].
Defined.
