(* ===== verification/Submitter.v ===== *)
(** * Submitter: the contract of [useChainTransactionSubmitter]

    The hook is imported by MintH2HStatuses.tsx from
    features/gateway/gatewayTransactionHooks, which is not among the
    sources; its state machine is taken from the specification (sections 3
    and 4.1): a phase and the last error, [submit] guarded against
    re-entry, [reset] for retry, and the SDK's answers to one submission
    (accepted, completed, rejected).  What the sources fix is the shape of
    the hook's result, the record [SubmitterHook] that each component
    destructures.

    [ChainTransactionStatus] is the SDK's status of one leg, which the
    components receive as props and compare against. *)

From Stdlib Require Import ZArith Lia.
From stdpp Require Import base tactics option list numbers strings.
From S2P Require Import Prelude View.

(** ** The SDK's status of a leg *)

Module ChainTransactionStatus.
Inductive status := Pending | Confirming | Done | Reverted.

#[export] Instance status_eq_dec : EqDecision status.
Proof. solve_decision. Defined.
End ChainTransactionStatus.
Export (hints) ChainTransactionStatus.

(** ** The submission state of one leg *)

Inductive Phase := Idle | Submitting | Waiting | Done | Errored.

#[export] Instance Phase_eq_dec : EqDecision Phase.
Proof. solve_decision. Defined.

Record SubmissionState := mkSubmission {
  phase : Phase;
  lastError : option Error
}.

#[export] Instance SubmissionState_eq_dec : EqDecision SubmissionState.
Proof. solve_decision. Defined.

(** [wrap(chainTransaction)]: a fresh submitter. *)
Definition wrap : SubmissionState := {| phase := Idle; lastError := None |}.

(** A submission is in flight or has completed: [submit] is a no-op. *)
Definition busy (s : SubmissionState) : bool :=
  match phase s with
  | Submitting | Waiting | Done => true
  | Idle | Errored => false
  end.

(** [submit()]: the new state, and whether the external submit operation
    was invoked. *)
Definition submit (s : SubmissionState) : SubmissionState * bool :=
  if busy s then (s, false)
  else ({| phase := Submitting; lastError := None |}, true).

(** [reset()]: clears the error; leaves [Errored] for [Idle]. *)
Definition reset (s : SubmissionState) : SubmissionState :=
  {| phase := match phase s with Errored => Idle | p => p end;
     lastError := None |}.

(** What the SDK answers to a submission. *)
Inductive SdkEvent :=
| Accepted               (* the submit call resolved *)
| Completed              (* the awaited confirmation arrived *)
| Rejected (e : Error).  (* the submit or the wait threw *)

#[export] Instance SdkEvent_eq_dec : EqDecision SdkEvent.
Proof. solve_decision. Defined.

Definition sdk (ev : SdkEvent) (s : SubmissionState) : SubmissionState :=
  match ev, phase s with
  | Accepted, Submitting => {| phase := Waiting; lastError := lastError s |}
  | Completed, Waiting => {| phase := Done; lastError := lastError s |}
  | Rejected e, (Submitting | Waiting) => {| phase := Errored; lastError := Some e |}
  | _, _ => s
  end.

(** The promise returned by [submit] has settled: nothing is in flight. *)
Definition in_flight (s : SubmissionState) : bool :=
  match phase s with Submitting | Waiting => true | _ => false end.

(** ** What the hook returns *)

Record SubmitterHook := mkHook {
  handleSubmit : Handler;
  submitting : bool;
  done : bool;
  waiting : bool;
  errorSubmitting : option Error;
  handleReset : Handler
}.

Definition useChainTransactionSubmitter (l : Leg) (s : SubmissionState)
  : SubmitterHook :=
  {| handleSubmit := OnSubmit l;
     submitting := bool_decide (phase s = Submitting);
     done := bool_decide (phase s = Done);
     waiting := bool_decide (phase s = Waiting);
     errorSubmitting := match phase s with Errored => lastError s | _ => None end;
     handleReset := OnReset l |}.

(** ** Well-formed states

    An error is recorded exactly in phase [Errored]. *)

Definition wf (s : SubmissionState) : Prop :=
  phase s = Errored <-> is_Some (lastError s).

#[export] Instance wf_dec s : Decision (wf s).
Proof. unfold wf. apply _. Defined.

(** The order of the phases of one attempt. *)
Definition rank (p : Phase) : nat :=
  match p with
  | Idle | Errored => 0
  | Submitting => 1
  | Waiting => 2
  | Done => 3
  end.

Section submitter_lemmas.
Implicit Types (s : SubmissionState) (ev : SdkEvent) (e : Error).

Ltac crush s :=
  destruct s as [[] [?|]]; unfold wf in *; simpl in *;
  try done; try naive_solver.

Lemma wf_wrap : wf wrap.
Proof. unfold wf; simpl. split; [done | by intros [? ?]]. Qed.

Lemma wf_submit s : wf s -> wf (submit s).1.
Proof. unfold submit, busy. crush s. Qed.

Lemma wf_reset s : wf (reset s).
Proof. crush s. Qed.

Lemma wf_sdk ev s : wf s -> wf (sdk ev s).
Proof. unfold sdk. destruct ev; crush s. Qed.

Lemma submit_busy s : busy s = true -> submit s = (s, false).
Proof. unfold submit. by intros ->. Qed.

Lemma submit_free s :
  busy s = false -> submit s = ({| phase := Submitting; lastError := None |}, true).
Proof. unfold submit. by intros ->. Qed.

Lemma submit_issued_iff s : (submit s).2 = true <-> busy s = false.
Proof. unfold submit. destruct (busy s); simpl; naive_solver. Qed.

Lemma busy_after_submit s : busy (submit s).1 = true.
Proof. unfold submit. destruct (busy s) eqn:Hb; simpl; done. Qed.

Lemma submit_idempotent s : submit (submit s).1 = ((submit s).1, false).
Proof. apply submit_busy, busy_after_submit. Qed.

Lemma reset_errored s : phase s = Errored -> reset s = wrap.
Proof. unfold reset, wrap. by intros ->. Qed.

Lemma reset_wf_noop s : wf s -> phase s <> Errored -> reset s = s.
Proof. crush s. Qed.

Lemma sdk_rejected_in_flight e s :
  in_flight s = true -> sdk (Rejected e) s = {| phase := Errored; lastError := Some e |}.
Proof. unfold in_flight, sdk. crush s. Qed.

Lemma sdk_not_in_flight ev s : in_flight s = false -> sdk ev s = s.
Proof. unfold in_flight, sdk. destruct ev; crush s. Qed.

Lemma sdk_rank ev s :
  phase (sdk ev s) = Errored \/ rank (phase s) <= rank (phase (sdk ev s)).
Proof. unfold sdk. destruct ev; destruct s as [[] ?]; simpl; auto; lia. Qed.

Lemma submit_rank s : rank (phase s) <= rank (phase (submit s).1).
Proof. unfold submit, busy. destruct s as [[] ?]; simpl; lia. Qed.

Lemma in_flight_busy s : in_flight s = true -> busy s = true.
Proof. unfold in_flight, busy. by destruct (phase s). Qed.

Lemma not_busy_not_in_flight s : busy s = false -> in_flight s = false.
Proof. unfold busy, in_flight. by destruct (phase s). Qed.

Lemma wf_submitting : wf (mkSubmission Submitting None).
Proof. apply (wf_submit wrap), wf_wrap. Qed.

Lemma hook_flags_exclusive l s :
  let h := useChainTransactionSubmitter l s in
  (if submitting h then 1 else 0) + (if waiting h then 1 else 0)
  + (if done h then 1 else 0)
  + (match errorSubmitting h with Some _ => 1 | None => 0 end) <= 1.
Proof. destruct s as [[] [?|]]; simpl; lia. Qed.

Lemma hook_busy l s :
  let h := useChainTransactionSubmitter l s in
  submitting h || waiting h || done h = busy s.
Proof. destruct s as [[] ?]; reflexivity. Qed.

Lemma hook_error l s e :
  wf s ->
  errorSubmitting (useChainTransactionSubmitter l s) = Some e
  <-> phase s = Errored /\ lastError s = Some e.
Proof. crush s. Qed.

Lemma hook_error_None l s :
  wf s ->
  errorSubmitting (useChainTransactionSubmitter l s) = None <-> phase s <> Errored.
Proof. crush s. Qed.

End submitter_lemmas.

#[export] Hint Resolve wf_wrap wf_submit wf_reset wf_sdk wf_submitting : bridge.
#[export] Hint Rewrite submit_idempotent busy_after_submit : bridge.
