(* ===== verification/Config.v ===== *)
(** * Config: the collaborators of the components

    The objects and functions the components import and only call: the
    SDK's gateway object (by the fields the sources read), the asset and
    chain registries of utils/tokensConfig and utils/chainsConfig, the theme
    colours, and the clock helpers of utils/time, utils/dates and
    gatewayUtils.  Each is a class, so that the theorems on the components
    hold for every registry, theme and clock; [Sample] instantiates them for
    the witnesses. *)

From Stdlib Require Import ZArith Lia.
From stdpp Require Import base tactics option list numbers strings.
From S2P Require Import Prelude View Amount.

#[local] Open Scope Z_scope.

(** ** The SDK's gateway object, by the paths the sources read *)

Record Gateway := mkGateway {
  params_asset : string;        (* gateway.params.asset *)
  params_from_chain : string;   (* gateway.params.from.chain *)
  params_to_chain : string;     (* gateway.params.to.chain *)
  fromChain_chain : string;     (* gateway.fromChain.chain *)
  params_amount : string        (* the amount getGatewayParams returns *)
}.

(** [getGatewayParams(gateway)] of features/gateway/gatewayHooks. *)
Record GatewayParams := mkGatewayParams {
  asset : string;
  from : string;
  to : string;
  amount : string
}.

Definition getGatewayParams (gateway : Gateway) : GatewayParams :=
  {| asset := params_asset gateway;
     from := params_from_chain gateway;
     to := params_to_chain gateway;
     amount := params_amount gateway |}.

(** ** Registries *)

Module AssetConfig.
Record config := mk {
  fullName : string;
  shortName : string;
  color : option string;    (* may be undefined *)
  Icon : string;            (* components, by name *)
  RenIcon : string
}.

#[export] Instance config_eq_dec : EqDecision config.
Proof. solve_decision. Defined.
End AssetConfig.
Export (hints) AssetConfig.

Module ChainConfig.
Record config := mk {
  fullName : string;
  Icon : string
}.

#[export] Instance config_eq_dec : EqDecision config.
Proof. solve_decision. Defined.
End ChainConfig.
Export (hints) ChainConfig.

Class Registry := {
  assetConfigs : string -> option AssetConfig.config;
  chainConfigs : string -> option ChainConfig.config;
  getRenFullName : string -> string;
  getRenAssetName : string -> string
}.

(** A render fails when an identifier has no configuration, or when
    bignumber.js throws. *)
Inductive RenderError :=
| UnknownAsset (name : string)
| UnknownChain (name : string)
| BigNumberThrew (e : BigNumberError).

#[export] Instance RenderError_eq_dec : EqDecision RenderError.
Proof. solve_decision. Defined.

Definition getAssetConfig `{Registry} (name : string)
  : result RenderError AssetConfig.config :=
  of_option (UnknownAsset name) (assetConfigs name).

Definition getChainConfig `{Registry} (name : string)
  : result RenderError ChainConfig.config :=
  of_option (UnknownChain name) (chainConfigs name).

(** ** Theme *)

Class Theme := {
  orangeLight : string;     (* theme/colors *)
  skyBlue : string          (* theme.customColors.skyBlue *)
}.

(** ** Clock *)

Class Clock := {
  now : Z;                          (* Date.now(), in milliseconds *)
  getHours : Z -> Z;                (* utils/dates *)
  GATEWAY_EXPIRY_OFFSET_MS : Z      (* features/gateway/gatewayUtils *)
}.

(** [getRemainingTime(expiryTime)] of utils/time: never negative. *)
Definition getRemainingTime `{Clock} (expiryTime : Z) : Z :=
  Z.max 0 (expiryTime - now).

(** ** Sample collaborators, for the witnesses *)

Module Sample.

Definition btc : AssetConfig.config :=
  AssetConfig.mk "Bitcoin" "BTC" (Some "#f7931a") "BtcIcon" "RenBtcIcon".
Definition dai : AssetConfig.config :=
  AssetConfig.mk "Dai" "DAI" None "DaiIcon" "RenDaiIcon".
Definition bitcoin : ChainConfig.config := ChainConfig.mk "Bitcoin" "BitcoinChainIcon".
Definition ethereum : ChainConfig.config := ChainConfig.mk "Ethereum" "EthereumChainIcon".

#[export] Instance registry : Registry := {|
  assetConfigs a :=
    if decide (a = "BTC") then Some btc
    else if decide (a = "DAI") then Some dai else None;
  chainConfigs c :=
    if decide (c = "Bitcoin") then Some bitcoin
    else if decide (c = "Ethereum") then Some ethereum else None;
  getRenFullName n := "Ren " +:+ n;
  getRenAssetName a := "ren" +:+ a
|}.

#[export] Instance theme : Theme := {| orangeLight := "#FFC681"; skyBlue := "#6CBDF2" |}.

#[export] Instance clock : Clock := {|
  now := 1000;
  getHours ms := ms / 3600000;
  GATEWAY_EXPIRY_OFFSET_MS := 86400000
|}.

#[export] Instance i18n : I18n := {| t key := key; t_with key _ := key |}.

Definition gateway : Gateway :=
  {| params_asset := "BTC"; params_from_chain := "Bitcoin";
     params_to_chain := "Ethereum"; fromChain_chain := "Bitcoin";
     params_amount := "0.5" |}.

End Sample.

Section config_lemmas.
Context `{Registry} `{Clock}.

Lemma getAssetConfig_Ok name c :
  getAssetConfig name = Ok c <-> assetConfigs name = Some c.
Proof. apply of_option_Ok. Qed.

Lemma getAssetConfig_Err name e :
  getAssetConfig name = Err e <-> assetConfigs name = None /\ e = UnknownAsset name.
Proof. unfold getAssetConfig. rewrite of_option_Err. naive_solver. Qed.

Lemma getChainConfig_Ok name c :
  getChainConfig name = Ok c <-> chainConfigs name = Some c.
Proof. apply of_option_Ok. Qed.

Lemma getChainConfig_Err name e :
  getChainConfig name = Err e <-> chainConfigs name = None /\ e = UnknownChain name.
Proof. unfold getChainConfig. rewrite of_option_Err. naive_solver. Qed.

Lemma getRemainingTime_nonneg expiry : 0 <= getRemainingTime expiry.
Proof. unfold getRemainingTime. lia. Qed.

Lemma getRemainingTime_expired expiry : expiry <= now -> getRemainingTime expiry = 0.
Proof. unfold getRemainingTime. lia. Qed.

Lemma getRemainingTime_pending expiry :
  now <= expiry -> getRemainingTime expiry = expiry - now.
Proof. unfold getRemainingTime. lia. Qed.

End config_lemmas.

#[export] Hint Rewrite @getAssetConfig_Ok @getChainConfig_Ok : bridge.
#[export] Hint Resolve getRemainingTime_nonneg : bridge.
