(* ===== verification/MintStatuses.v ===== *)
(** * MintStatuses: the deposit screens

    The two components of
    src/src/features/gateway/steps/mint/MintStatuses.tsx and the helper
    [maxConfirmations], with the effects they run on the ambient providers.

    - [MintDepositConfirmationStatus]: the progress of a deposit that is
      being confirmed, and the effect that sets the paper's title.
    - [MintDepositAcceptedStatus]: the accepted deposit, the two effects
      that talk to the notification service, and the stubs the source
      leaves in place of the submission ([submitting], [onSubmit],
      [submittingError], ...), kept as the source has them.

    A component is a function from its props, in the order of the source,
    to the tree it renders; the prop [transaction], which neither component
    reads, is left out.  An effect is a function on [Providers], the state of
    the title and notification providers, which are not among the sources
    and are taken from the specification (section 6).  A mounted component
    moves on [Mount], [Render] and [Unmount]; an effect runs again when one
    of its dependencies changed, after the cleanup of its previous run.
    Dependencies are compared by value: the registries hand out one
    configuration per identifier.  [deposit_step] puts the two screens
    under the same providers, as the application does, their events
    interleaved in any order. *)

From Stdlib Require Import ZArith Lia.
From stdpp Require Import base tactics option list numbers strings.
From S2P Require Import Prelude View Amount Submitter Config.

#[local] Open Scope Z_scope.

(** ** The providers *)

(** A notification on screen: its message and the options it was shown
    with. *)
Record Snackbar := mkSnackbar {
  message : Node;
  variant : option string;
  persist : bool
}.

Record Providers := mkProviders {
  paperTitle : string;                (* usePaperTitle *)
  actionRequired : bool;              (* useSetActionRequired *)
  snackbars : list (Z * Snackbar);    (* the notifications shown, by key *)
  nextKey : Z                         (* the key of the next notification *)
}.

(** The screens call [closeNotification(notification)] with an undefined
    [notification] (line 218).  What the service does then is behind the
    interface of the specification, which takes a handle: the service
    ignores the call, or it hands the key on to the snackbar library,
    which closes every notification when the key is undefined.  The
    theorems on notifications say which of the two they are about. *)
Class NotificationService := { closesAllOnUndefined : bool }.

Definition setTitle (title : string) (env : Providers) : Providers :=
  mkProviders title (actionRequired env) (snackbars env) (nextKey env).

Definition setActionRequired (b : bool) (env : Providers) : Providers :=
  mkProviders (paperTitle env) b (snackbars env) (nextKey env).

Definition setSnackbars (l : list (Z * Snackbar)) (env : Providers) : Providers :=
  mkProviders (paperTitle env) (actionRequired env) l (nextKey env).

(** [showNotification(message, options)]: the key of the new notification. *)
Definition showNotification (m : Node) (v : option string) (p : bool)
    (env : Providers) : Z * Providers :=
  (nextKey env,
   mkProviders (paperTitle env) (actionRequired env)
     (snackbars env ++ [(nextKey env, mkSnackbar m v p)]) (nextKey env + 1)).

(** [closeNotification(key)] *)
Definition closeNotification `{NotificationService} (key : option Z)
    (env : Providers) : Providers :=
  match key with
  | Some k => setSnackbars (filter (fun kn => kn.1 <> k) (snackbars env)) env
  | None => if closesAllOnUndefined then setSnackbars [] env else env
  end.

(** The keys of the service are positive and fresh. *)
Definition fresh (env : Providers) : Prop :=
  0 < nextKey env /\ Forall (fun kn => kn.1 < nextKey env) (snackbars env).

(** The events of a component's life. *)
Inductive Lifecycle (P : Type) :=
| Mount (p : P)
| Render (p : P)
| Unmount.
Arguments Mount {P} p.
Arguments Render {P} p.
Arguments Unmount {P}.

(** ** Shared by the two components *)

(** [maxConfirmations] (lines 149-154). *)
Definition maxConfirmations (actual target : Z) : Z :=
  if actual >? target then target else actual.

(** [lockAmountFormatted] (lines 77-80 and 189-192). *)
Definition lockAmountFormatted (lockAmount : option string)
    (lockAssetDecimals : option Z) : result RenderError (option string) :=
  match lockAmount, lockAssetDecimals with
  | Some a, Some d =>
      match formatAmount a d with
      | Ok s => Ok (Some s)
      | Err e => Err (BigNumberThrew e)
      end
  | _, _ => Ok None
  end.

(** The props of the two components (lines 43-53 and 156-166). *)
Record ConfirmationProps := mkConfirmationProps {
  c_gateway : Gateway;
  c_lockConfirmations : option Z;
  c_lockTargetConfirmations : option Z;
  c_lockStatus : ChainTransactionStatus.status;
  c_lockAmount : option string;
  c_lockAssetDecimals : option Z;
  c_lockTxId : option string;
  c_lockTxUrl : option string
}.

Record AcceptedProps := mkAcceptedProps {
  a_gateway : Gateway;
  a_expiryTime : Z;
  a_lockTargetConfirmations : option Z;
  a_lockConfirmations : option Z;
  a_lockAmount : option string;
  a_lockAssetDecimals : option Z;
  a_lockTxId : option string;
  a_lockTxUrl : option string
}.

(** The state of a mounted [MintDepositAcceptedStatus]: its two pieces of
    [useState], the [key] that the closure of the expiry effect holds, and
    the dependencies the notification effect last ran with. *)
Record AcceptedState := mkAccepted {
  notification : option Z;
  mintTimeRemained : Z;
  expiryKey : Z;
  deps : AssetConfig.config * ChainConfig.config * option Z
}.

Section components.
Context `{I18n} `{Registry} `{Theme} `{Clock} `{NotificationService}.

(** [lockTxId !== null && lockTxUrl !== null && <TransactionDetailsButton/>]
    (lines 133-139 and 290-296). *)
Definition transactionDetails (lockChainConfig : ChainConfig.config)
    (lockTxId lockTxUrl : option string) : Node :=
  match lockTxId, lockTxUrl with
  | Some id, Some url =>
      El TransactionDetailsButton [
        ("label", Str (ChainConfig.fullName lockChainConfig));
        ("address", Str id);
        ("link", Str url)
      ] []
  | _, _ => Bool false
  end.

(** ** MintDepositConfirmationStatus (lines 56-147) *)

(** [confirmed] (line 76). *)
Definition confirmed (lockStatus : ChainTransactionStatus.status) : bool :=
  bool_decide (lockStatus = ChainTransactionStatus.Done).

(** [lockProcessingTime] (line 81). *)
Definition lockProcessingTime : Z := 500.

(** The title the effect sets (lines 83-89). *)
Definition confirmationTitle (confirmed : bool) : string :=
  if confirmed then t "mint.deposit-confirmed-label"
  else t "mint.deposit-confirming-label".

Definition MintDepositConfirmationStatus
    (gateway : Gateway)
    (lockConfirmations lockTargetConfirmations : option Z)
    (lockStatus : ChainTransactionStatus.status)
    (lockAmount : option string) (lockAssetDecimals : option Z)
    (lockTxId lockTxUrl : option string)
    : result RenderError Node :=
  lockAssetConfig ← getAssetConfig (params_asset gateway);
  lockChainConfig ← getChainConfig (fromChain_chain gateway);
  let Icon := AssetConfig.Icon lockAssetConfig in
  formatted ← lockAmountFormatted lockAmount lockAssetDecimals;
  Ok (Frag [
    El ProgressWrapper [] [
      El ProgressWithContent [
        ("color", Str (or_else (AssetConfig.color lockAssetConfig) orangeLight));
        ("confirmations", undefinedForNull Num lockConfirmations);
        ("targetConfirmations", undefinedForNull Num lockTargetConfirmations)
      ] [El (Dyn Icon) [("fontSize", Str "inherit"); ("color", Str "inherit")] []]
    ];
    El SmallWrapper [] [
      El Typography [("variant", Str "body1"); ("align", Str "center")] [
        match lockConfirmations, lockTargetConfirmations with
        | Some lc, Some ltc =>
            Frag [Num lc; Str " of "; Num ltc; Str " confirmations"]
        | _, _ =>
            El Skeleton [("variant", Str "text"); ("width", Num 120);
                         ("height", Num 14)] []
        end
      ]
    ];
    El MediumWrapper [] [
      match formatted with
      | Some amount =>
          El BigAssetAmount [
            ("value",
              El NumberFormatText [
                ("value", Str amount);
                ("spacedSuffix", Str (AssetConfig.shortName lockAssetConfig))
              ] [])
          ] []
      | None => El Skeleton [("width", Num 120); ("height", Num 32)] []
      end
    ];
    transactionDetails lockChainConfig lockTxId lockTxUrl;
    El ProcessingTimeWrapper [] [
      El Typography [("variant", Str "caption"); ("component", Str "p");
                     ("align", Str "center")] [
        Str "Estimated time remaining: "; Num lockProcessingTime; Str " minutes"
      ]
    ]
  ]).

Definition confirmation_view (p : ConfirmationProps) : result RenderError Node :=
  MintDepositConfirmationStatus (c_gateway p)
    (c_lockConfirmations p) (c_lockTargetConfirmations p) (c_lockStatus p)
    (c_lockAmount p) (c_lockAssetDecimals p) (c_lockTxId p) (c_lockTxUrl p).

(** The mounted component: [None] when it is not mounted, else the value
    of [confirmed] the title effect last ran with.  A render that throws
    unmounts the component. *)
Definition confirmation_step (e : Lifecycle ConfirmationProps)
    (s : option bool * Providers) : option bool * Providers :=
  let '(st, env) := s in
  match e, st with
  | Mount p, None =>
      if is_Ok (confirmation_view p)
      then (Some (confirmed (c_lockStatus p)),
            setTitle (confirmationTitle (confirmed (c_lockStatus p))) env)
      else s
  | Render p, Some dep =>
      if is_Ok (confirmation_view p)
      then (Some (confirmed (c_lockStatus p)),
            if bool_decide (confirmed (c_lockStatus p) = dep) then env
            else setTitle (confirmationTitle (confirmed (c_lockStatus p))) env)
      else (None, env)
  | Unmount, Some _ => (None, env)
  | _, _ => s
  end.

(** ** MintDepositAcceptedStatus (lines 168-306) *)

(** [notificationMessage] (lines 202-213): the confirmations are clamped
    to the target here, and nowhere else. *)
Definition notificationMessage (lockConfirmations lockTargetConfirmations : Z)
    (lockAssetConfig : AssetConfig.config) (mintChainConfig : ChainConfig.config)
    : string :=
  t_with "mint.deposit-accepted-notification-message" [
    ("confirmations", Num (maxConfirmations lockConfirmations lockTargetConfirmations));
    ("targetConfirmations", Num lockTargetConfirmations);
    ("currency", Str (AssetConfig.shortName lockAssetConfig));
    ("chain", Str (ChainConfig.fullName mintChainConfig))
  ].

(** The notification effect (lines 196-216): what it leaves in
    [notification] and in the providers. *)
Definition notificationEffect
    (lockConfirmations lockTargetConfirmations : option Z)
    (lockAssetConfig : AssetConfig.config) (mintChainConfig : ChainConfig.config)
    (notification : option Z) (env : Providers) : option Z * Providers :=
  match lockConfirmations, lockTargetConfirmations with
  | Some lc, Some ltc =>
      if truthy notification then
        let '(key, env') :=
          showNotification
            (Str (notificationMessage lc ltc lockAssetConfig mintChainConfig))
            None false env in
        (Some key, env')
      else (notification, env)
  | _, _ => (notification, env)
  end.

(** Its cleanup (lines 217-219). *)
Definition notificationCleanup (notification : option Z) (env : Providers)
  : Providers :=
  closeNotification notification env.

(** [variant] of the expiry notification (line 230). *)
Definition expiryVariant (mintTimeRemained : Z) : string :=
  if getHours mintTimeRemained <? 12 then "error" else "warning".

(** The expiry effect (lines 224-234): the [key] it keeps. *)
Definition expiryEffect (mintTimeRemained : Z) (env : Providers) : Z * Providers :=
  if mintTimeRemained <? GATEWAY_EXPIRY_OFFSET_MS
  then showNotification
         (El GatewayTransactionValidityMessage
            [("milliseconds", Num mintTimeRemained)] [])
         (Some (expiryVariant mintTimeRemained)) true env
  else (0, env).

(** Its cleanup (lines 235-239). *)
Definition expiryCleanup (key : Z) (env : Providers) : Providers :=
  if truthy key then closeNotification (Some key) env else env.

(** The stubs (lines 244-250). *)
Definition submitting : bool := false.
Definition onSubmit : Handler := OnNoop.
Definition onReload : Handler := OnNoop.
Definition onRetry : Handler := OnNoop.
Definition submittingError : string := "".
Definition open : bool := false.
Definition error : Node := Obj [].

Definition MintDepositAcceptedStatus
    (gateway : Gateway) (expiryTime : Z)
    (lockConfirmations lockTargetConfirmations : option Z)
    (lockAmount : option string) (lockAssetDecimals : option Z)
    (lockTxId lockTxUrl : option string)
    : result RenderError Node :=
  lockAssetConfig ← getAssetConfig (params_asset gateway);
  lockChainConfig ← getChainConfig (params_from_chain gateway);
  mintChainConfig ← getChainConfig (params_to_chain gateway);
  formatted ← lockAmountFormatted lockAmount lockAssetDecimals;
  let Icon := ChainConfig.Icon lockChainConfig in
  Ok (Frag [
    El ProgressWrapper [] [
      if submitting then
        El ProgressWithContent [("color", Str skyBlue); ("processing", Bool true)] [
          El (Dyn Icon) [("fontSize", Str "inherit"); ("color", Str "inherit")] []
        ]
      else
        El ProgressWithContent [
          ("color", Str (or_else (AssetConfig.color lockAssetConfig) skyBlue));
          ("confirmations", undefinedForNull Num lockConfirmations);
          ("targetConfirmations", undefinedForNull Num lockTargetConfirmations)
        ] [El (Dyn Icon) [("fontSize", Str "inherit"); ("color", Str "inherit")] []]
    ];
    El Typography [("variant", Str "body1"); ("align", Str "center");
                   ("gutterBottom", Bool true)] [
      El NumberFormatText [
        ("value", nullable Str formatted);
        ("spacedSuffix", Str (AssetConfig.fullName lockAssetConfig))
      ] [];
      Str " ";
      Str (t "mint.received-label")
    ];
    El ActionButtonWrapper [] [
      El ActionButton [("onClick", Fn onSubmit); ("disabled", Bool submitting)] [
        Str (if submitting then t "mint.minting-label" else t "mint.mint-label");
        Str " ";
        Str (getRenFullName (AssetConfig.fullName lockAssetConfig));
        js_and (Bool submitting) (Str "...")
      ]
    ];
    El ActionButtonWrapper [] [
      transactionDetails lockChainConfig lockTxId lockTxUrl
    ];
    El Debug [("it", Obj [("error", error)])] [];
    El SubmitErrorDialog [
      ("open", Bool (truthy submittingError));
      ("onAction", Fn onReload);
      ("onAlternativeAction", Fn onRetry);
      ("error", error)
    ] []
  ]).

Definition accepted_view (p : AcceptedProps) : result RenderError Node :=
  MintDepositAcceptedStatus (a_gateway p) (a_expiryTime p)
    (a_lockConfirmations p) (a_lockTargetConfirmations p)
    (a_lockAmount p) (a_lockAssetDecimals p) (a_lockTxId p) (a_lockTxUrl p).

(** The configurations the notification effect depends on. *)
Definition accepted_configs (p : AcceptedProps)
  : result RenderError (AssetConfig.config * ChainConfig.config) :=
  lockAssetConfig ← getAssetConfig (params_asset (a_gateway p));
  mintChainConfig ← getChainConfig (params_to_chain (a_gateway p));
  Ok (lockAssetConfig, mintChainConfig).

(** The first render and the effects after it, in the order of the source.
    [useSetPaperTitle] and [useSetActionRequired] (lines 182-183) are hooks
    of the providers that set their value in an effect: React runs the
    effects of a render once it has completed, in the order of the hooks,
    and none of them when a lookup (lines 185-187) or the formatting
    (line 191) has thrown.  [useState(getRemainingTime(expiryTime))]
    (line 222) keeps the value of the first render; the later renders
    evaluate the argument, which only reads the clock, and drop it. *)
Definition accepted_mount (p : AcceptedProps) (env : Providers)
  : option AcceptedState * Providers :=
  match accepted_view p, accepted_configs p with
  | Ok _, Ok (lockAssetConfig, mintChainConfig) =>
      let env := setTitle (t "mint.deposit-accepted-submit-title") env in
      let env := setActionRequired true env in
      let remained := getRemainingTime (a_expiryTime p) in
      let '(notification', env) :=
        notificationEffect (a_lockConfirmations p) (a_lockTargetConfirmations p)
          lockAssetConfig mintChainConfig None env in
      let '(key, env) := expiryEffect remained env in
      (Some (mkAccepted notification' remained key
               (lockAssetConfig, mintChainConfig, None)), env)
  | _, _ => (None, env)
  end.

(** The cleanups, in the order of the effects. *)
Definition accepted_unmount (st : AcceptedState) (env : Providers) : Providers :=
  expiryCleanup (expiryKey st) (notificationCleanup (deps st).2 env).

(** A later render: the notification effect runs again when one of
    [lockAssetConfig], [mintChainConfig], [notification] changed, after
    the cleanup of its previous run; the expiry effect depends on
    [mintTimeRemained], which never changes.  A render that throws
    unmounts the component. *)
Definition accepted_render (p : AcceptedProps) (st : AcceptedState)
    (env : Providers) : option AcceptedState * Providers :=
  match accepted_view p, accepted_configs p with
  | Ok _, Ok (lockAssetConfig, mintChainConfig) =>
      let deps' := (lockAssetConfig, mintChainConfig, notification st) in
      if bool_decide (deps' = deps st) then (Some st, env)
      else
        let env := notificationCleanup (deps st).2 env in
        let '(notification', env) :=
          notificationEffect (a_lockConfirmations p) (a_lockTargetConfirmations p)
            lockAssetConfig mintChainConfig (notification st) env in
        (Some (mkAccepted notification' (mintTimeRemained st) (expiryKey st) deps'),
         env)
  | _, _ => (None, accepted_unmount st env)
  end.

Definition accepted_step (e : Lifecycle AcceptedProps)
    (s : option AcceptedState * Providers) : option AcceptedState * Providers :=
  let '(st, env) := s in
  match e, st with
  | Mount p, None => accepted_mount p env
  | Render p, Some st => accepted_render p st env
  | Unmount, Some st => (None, accepted_unmount st env)
  | _, _ => s
  end.

(** The two screens under the same providers: an event in the life of
    the confirmation screen or of the accepted screen. *)
Definition deposit_step
    (e : Lifecycle ConfirmationProps + Lifecycle AcceptedProps)
    (s : option bool * option AcceptedState * Providers)
  : option bool * option AcceptedState * Providers :=
  let '(c, a, env) := s in
  match e with
  | inl e => let '(c', env') := confirmation_step e (c, env) in (c', a, env')
  | inr e => let '(a', env') := accepted_step e (a, env) in (c, a', env')
  end.

End components.

(** The accepted screen and the providers, of the two screens together. *)
Definition accepted_of (s : option bool * option AcceptedState * Providers)
  : option AcceptedState * Providers := (s.1.2, s.2).

(** ** What the accepted screen keeps true

    [expiryShown] is the notification of the expiry effect; [accepted_inv]
    relates a mounted or unmounted component to the notifications [l0] that
    were on screen before it was first mounted. *)

Section accepted_invariant.
Context `{Clock}.

Definition expirySnackbar (remained : Z) : Snackbar :=
  mkSnackbar
    (El GatewayTransactionValidityMessage [("milliseconds", Num remained)] [])
    (Some (expiryVariant remained)) true.

Definition expiryShown (remained key : Z) : list (Z * Snackbar) :=
  if remained <? GATEWAY_EXPIRY_OFFSET_MS then [(key, expirySnackbar remained)]
  else [].

Record mounted_inv (l0 : list (Z * Snackbar)) (st : AcceptedState)
    (env : Providers) : Prop := mk_mounted_inv {
  minv_notification : notification st = None;
  minv_deps : (deps st).2 = None;
  minv_snackbars :
    snackbars env = l0 ++ expiryShown (mintTimeRemained st) (expiryKey st);
  minv_key :
    if mintTimeRemained st <? GATEWAY_EXPIRY_OFFSET_MS
    then 0 < expiryKey st /\ Forall (fun kn => kn.1 < expiryKey st) l0
    else expiryKey st = 0
}.

(** What holds whatever the service does: the notification effect never
    sets its state, so the key its cleanup closes is undefined. *)
Definition notification_unset (a : option AcceptedState) : Prop :=
  match a with
  | Some st => notification st = None /\ (deps st).2 = None
  | None => True
  end.

Definition accepted_inv (l0 : list (Z * Snackbar))
    (s : option AcceptedState * Providers) : Prop :=
  fresh s.2
  /\ match s.1 with
     | Some st => mounted_inv l0 st s.2
     | None => snackbars s.2 = l0
     end.

End accepted_invariant.

(** ** The providers, case by case *)

Section provider_lemmas.
Context `{NotificationService}.
Implicit Types (env : Providers) (k : Z) (l : list (Z * Snackbar)).

Lemma closeNotification_undefined env :
  closeNotification None env
  = if closesAllOnUndefined then setSnackbars [] env else env.
Proof. done. Qed.

(** Closing the newest key leaves the older notifications. *)
Lemma filter_newest l k x :
  Forall (fun kn => kn.1 < k) l ->
  filter (fun kn : Z * Snackbar => kn.1 <> k) (l ++ [(k, x)]) = l.
Proof.
  intros Hl. rewrite filter_app, filter_cons_False, filter_nil, app_nil_r
    by (simpl; by intros []).
  induction Hl as [|kn l Hk _ IH]; [done|].
  rewrite filter_cons_True by lia. by f_equal.
Qed.

Lemma fresh_showNotification m v p env :
  fresh env -> fresh (showNotification m v p env).2.
Proof.
  intros [Hpos Hkeys]. split; simpl; [lia|].
  apply Forall_app. split; [|by repeat constructor; simpl; lia].
  eapply Forall_impl; [done|]. simpl. lia.
Qed.

Lemma fresh_setSnackbars l env :
  Forall (fun kn => kn.1 < nextKey env) l -> 0 < nextKey env ->
  fresh (setSnackbars l env).
Proof. by split. Qed.

End provider_lemmas.

(** ** The effects of the accepted screen *)

Section accepted_lemmas.
Context `{I18n} `{Registry} `{Theme} `{Clock} `{NotificationService}.
Implicit Types (env : Providers) (st : AcceptedState) (p : AcceptedProps).

Lemma notificationEffect_undefined lc ltc a c env :
  notificationEffect lc ltc a c None env = (None, env).
Proof. unfold notificationEffect. by repeat case_match. Qed.

Lemma expiryEffect_spec remained env :
  expiryEffect remained env
  = if remained <? GATEWAY_EXPIRY_OFFSET_MS
    then (nextKey env,
          mkProviders (paperTitle env) (actionRequired env)
            (snackbars env ++ expiryShown remained (nextKey env)) (nextKey env + 1))
    else (0, env).
Proof. unfold expiryEffect, expiryShown, showNotification. by case_match. Qed.

(** The expiry effect establishes the invariant of a mounted component. *)
Lemma mounted_inv_expiryEffect remained deps0 env key env' :
  fresh env -> deps0.2 = None ->
  expiryEffect remained env = (key, env') ->
  fresh env' /\ mounted_inv (snackbars env) (mkAccepted None remained key deps0) env'.
Proof.
  intros [Hpos Hkeys] Hdeps. rewrite expiryEffect_spec. unfold expiryShown.
  destruct (remained <? GATEWAY_EXPIRY_OFFSET_MS) eqn:Hlt; intros [= <- <-].
  - split; [apply (fresh_showNotification _ _ _ env); by split|].
    split; simpl; unfold expiryShown; rewrite ?Hlt; done.
  - split; [done|]. split; simpl; unfold expiryShown; rewrite ?Hlt; try done.
    by rewrite app_nil_r.
Qed.

(** The cleanups give back the notifications that were there before. *)
Lemma accepted_unmount_releases l0 st env :
  closesAllOnUndefined = false -> fresh env -> mounted_inv l0 st env ->
  fresh (accepted_unmount st env) /\ snackbars (accepted_unmount st env) = l0.
Proof.
  intros Hclose [Hpos Hkeys] [Hn Hd Hs Hk]. unfold accepted_unmount, notificationCleanup.
  rewrite Hd, closeNotification_undefined, Hclose. unfold expiryCleanup, expiryShown in *.
  destruct (mintTimeRemained st <? GATEWAY_EXPIRY_OFFSET_MS).
  - destruct Hk as [Hkpos Hl0].
    rewrite (proj2 (truthy_Z_iff _)) by lia. simpl.
    rewrite Hs, filter_newest by done. split; [|done].
    apply fresh_setSnackbars; [|done]. rewrite Hs in Hkeys.
    by apply Forall_app in Hkeys as [? _].
  - rewrite Hk. simpl. rewrite Hs. by rewrite app_nil_r in *.
Qed.

Lemma accepted_inv_mount l0 p env :
  fresh env -> snackbars env = l0 -> accepted_inv l0 (accepted_mount p env).
Proof.
  intros Hf <-. unfold accepted_mount.
  destruct (accepted_view p) as [v|]; [|done].
  destruct (accepted_configs p) as [[ac cc]|]; [|done].
  rewrite notificationEffect_undefined.
  destruct (expiryEffect _ _) as [key env'] eqn:He.
  by apply (mounted_inv_expiryEffect _ (ac, cc, None)) in He.
Qed.

Lemma accepted_inv_render l0 p st env :
  closesAllOnUndefined = false -> fresh env -> mounted_inv l0 st env ->
  accepted_inv l0 (accepted_render p st env).
Proof.
  intros Hclose Hf Hm. unfold accepted_render.
  destruct (accepted_view p) as [v|]; [|by apply accepted_unmount_releases].
  destruct (accepted_configs p) as [[ac cc]|]; [|by apply accepted_unmount_releases].
  case_bool_decide; [done|]. destruct Hm as [Hn Hd Hs Hk].
  unfold notificationCleanup.
  rewrite Hd, Hn, closeNotification_undefined, Hclose, notificationEffect_undefined.
  by split.
Qed.

Lemma accepted_inv_step l0 e s :
  closesAllOnUndefined = false -> accepted_inv l0 s -> accepted_inv l0 (accepted_step e s).
Proof.
  intros Hclose. destruct s as [[st|] env], e as [p|p|]; intros [Hf Hi];
    simpl in *; try (by split).
  - by apply accepted_inv_render.
  - by apply accepted_unmount_releases.
  - by apply accepted_inv_mount.
Qed.

(** The confirmation screen touches the title only, which the invariant
    of the accepted screen does not read. *)
Lemma confirmation_step_frame e c env :
  exists title, (confirmation_step e (c, env)).2 = setTitle title env.
Proof.
  exists (paperTitle (confirmation_step e (c, env)).2).
  destruct e as [p|p|], c as [dep|], env; simpl; try done;
    destruct (is_Ok _); simpl; try done; by case_bool_decide.
Qed.

Lemma accepted_inv_setTitle l0 a title env :
  accepted_inv l0 (a, env) -> accepted_inv l0 (a, setTitle title env).
Proof. intros [Hf Hi]. split; [done|]. destruct a as [st|]; [|done]. by destruct Hi. Qed.

(** The invariant of the accepted screen holds whatever the confirmation
    screen does beside it. *)
Lemma deposit_inv_step l0 e s :
  closesAllOnUndefined = false ->
  accepted_inv l0 (accepted_of s) -> accepted_inv l0 (accepted_of (deposit_step e s)).
Proof.
  intros Hclose. destruct s as [[c a] env], e as [e|e];
    unfold accepted_of, deposit_step; cbn [fst snd].
  - destruct (confirmation_step_frame e c env) as [title Ht].
    destruct (confirmation_step e (c, env)) as [c' env']; cbn [fst snd] in *.
    subst env'. apply accepted_inv_setTitle.
  - intros Hi. apply (accepted_inv_step l0 e) in Hi; [|done].
    by destruct (accepted_step e (a, env)).
Qed.

(** The notification state stays undefined, with any service. *)
Lemma notification_unset_step e a env :
  notification_unset a -> notification_unset (accepted_step e (a, env)).1.
Proof.
  destruct a as [st|], e as [p|p|]; simpl; try done.
  - intros [Hn Hd]. unfold accepted_render.
    destruct (accepted_view p) as [v|]; [|done].
    destruct (accepted_configs p) as [[ac cc]|]; [|done].
    case_bool_decide; [done|]. by rewrite Hn, notificationEffect_undefined.
  - intros _. unfold accepted_mount.
    destruct (accepted_view p) as [v|]; [|done].
    destruct (accepted_configs p) as [[ac cc]|]; [|done].
    rewrite notificationEffect_undefined. by destruct (expiryEffect _ _).
Qed.

Lemma notification_unset_deposit e s :
  notification_unset s.1.2 -> notification_unset (deposit_step e s).1.2.
Proof.
  destruct s as [[c a] env], e as [e|e]; unfold deposit_step; cbn [fst snd].
  - by destruct (confirmation_step e (c, env)).
  - intros Hi. apply (notification_unset_step e a env) in Hi.
    by destruct (accepted_step e (a, env)).
Qed.

(** With a service that closes every notification on an undefined key,
    the cleanups leave none. *)
Lemma accepted_unmount_forwarded st env :
  closesAllOnUndefined = true -> (deps st).2 = None ->
  snackbars (accepted_unmount st env) = [].
Proof.
  intros Hclose Hd. unfold accepted_unmount, notificationCleanup, expiryCleanup.
  rewrite Hd, closeNotification_undefined, Hclose. by case_match.
Qed.

(** Then an event in the life of the mounted screen changes nothing, or
    it runs the cleanup of the notification effect and no notification is
    left. *)
Lemma accepted_step_forwarded e st env :
  closesAllOnUndefined = true -> notification_unset (Some st) ->
  accepted_step e (Some st, env) = (Some st, env)
  \/ snackbars (accepted_step e (Some st, env)).2 = [].
Proof.
  intros Hclose [Hn Hd]. destruct e as [p|p|]; simpl; [by left| |right].
  - unfold accepted_render.
    destruct (accepted_view p) as [v|];
      [|right; by apply accepted_unmount_forwarded].
    destruct (accepted_configs p) as [[ac cc]|];
      [|right; by apply accepted_unmount_forwarded].
    case_bool_decide; [by left | right]. unfold notificationCleanup.
    by rewrite Hd, Hn, closeNotification_undefined, Hclose,
      notificationEffect_undefined.
  - by apply accepted_unmount_forwarded.
Qed.

End accepted_lemmas.

(** ** The rendered trees *)

(** Open a successful render of a deposit screen. *)
Ltac open_view Hv :=
  repeat match type of Hv with
  | context [getAssetConfig ?a] => destruct (getAssetConfig a); simpl in Hv
  | context [getChainConfig ?c] => destruct (getChainConfig c); simpl in Hv
  | context [lockAmountFormatted ?a ?d] =>
      destruct (lockAmountFormatted a d) as [[?|]|]; simpl in Hv
  end; simplify_result.

Section view_lemmas.
Context `{I18n} `{Registry} `{Theme} `{Clock} `{NotificationService}.

Lemma lockAmountFormatted_None lockAmount lockAssetDecimals :
  lockAmountFormatted lockAmount lockAssetDecimals = Ok None
  <-> lockAmount = None \/ lockAssetDecimals = None.
Proof.
  unfold lockAmountFormatted. destruct lockAmount, lockAssetDecimals;
    try case_match; naive_solver.
Qed.

Lemma lockAmountFormatted_Some a d :
  - MAX_SAFE_INTEGER <= d <= MAX_SAFE_INTEGER ->
  lockAmountFormatted (Some a) (Some d)
  = Ok (Some (toString (timesPowerOfTen (- d) (BigNumber_of_string a)))).
Proof. intros Hd. unfold lockAmountFormatted. by rewrite formatAmount_safe. Qed.

Lemma lockAmountFormatted_Err lockAmount lockAssetDecimals e :
  lockAmountFormatted lockAmount lockAssetDecimals = Err e
  <-> exists a d, lockAmount = Some a /\ lockAssetDecimals = Some d
        /\ (d < - MAX_SAFE_INTEGER \/ MAX_SAFE_INTEGER < d)
        /\ e = BigNumberThrew (ArgumentOutOfRange (- d)).
Proof.
  unfold lockAmountFormatted, formatAmount, shiftedBy.
  destruct lockAmount as [a|], lockAssetDecimals as [d|]; try naive_solver.
  destruct (Z.leb_spec (- MAX_SAFE_INTEGER) (- d)),
    (Z.leb_spec (- d) MAX_SAFE_INTEGER); simpl; naive_solver lia.
Qed.

Lemma clickable_transactionDetails c lockTxId lockTxUrl :
  clickable (transactionDetails c lockTxId lockTxUrl) = [].
Proof. by destruct lockTxId, lockTxUrl. Qed.

Lemma confirmation_clickable p v : confirmation_view p = Ok v -> clickable v = [].
Proof.
  unfold confirmation_view, MintDepositConfirmationStatus. intros Hv.
  open_view Hv;
    by destruct (c_lockConfirmations p), (c_lockTargetConfirmations p),
      (c_lockTxId p), (c_lockTxUrl p).
Qed.

Lemma accepted_clickable p v : accepted_view p = Ok v -> clickable v = [OnNoop].
Proof.
  unfold accepted_view, MintDepositAcceptedStatus. intros Hv.
  open_view Hv; destruct (a_lockTxId p), (a_lockTxUrl p); simpl;
    by rewrite !clickable_undefinedForNull_Num.
Qed.

End view_lemmas.
