(* ===== verification/DepositProperties.v ===== *)
(** * DepositProperties: what the deposit screens guarantee

    The theorems on the two components of MintStatuses.tsx: the clamp of
    the confirmations, the branches of the rendered trees, the title that
    follows the status of the lock, and the notifications of the accepted
    screen over its life (shown at most once, released on unmount, the
    deposit notification that no state ever shows, and the cleanup that
    never has a key to close), also while the confirmation screen lives
    beside it under the same providers. *)

From Stdlib Require Import ZArith Lia String.
From stdpp Require Import base tactics option list numbers strings.
From S2P Require Import Prelude View Amount Submitter Config MintStatuses.

#[local] Open Scope Z_scope.

(** Sample services and props, for the witnesses. *)
Definition ignoringService : NotificationService := {| closesAllOnUndefined := false |}.
Definition forwardingService : NotificationService := {| closesAllOnUndefined := true |}.

Definition sampleProviders : Providers :=
  mkProviders "Mint" false
    [(3, mkSnackbar (Str "Wallet connected") (Some "success"%string) false)] 4.

Definition sampleConfirmation : ConfirmationProps :=
  mkConfirmationProps Sample.gateway (Some 2) (Some 6)
    ChainTransactionStatus.Confirming (Some "1500000"%string) (Some 6)
    (Some "ab12"%string) (Some "https://explorer/ab12"%string).

Definition sampleAccepted : AcceptedProps :=
  mkAcceptedProps Sample.gateway 3600000 (Some 6) (Some 9)
    (Some "1500000"%string) (Some 8) None None.

(** The same deposit for another asset, with a later expiry time. *)
Definition sampleAcceptedLater : AcceptedProps :=
  mkAcceptedProps
    (mkGateway "DAI" "Bitcoin" "Ethereum" "Bitcoin" "0.5") 99999999999
    (Some 6) (Some 9) (Some "1500000"%string) (Some 8) None None.

(** The accepted screen once mounted on the sample providers. *)
Definition sampleMounted : AcceptedState :=
  mkAccepted None 3599000 4 (Sample.btc, Sample.ethereum, None).

Definition sampleMountedProviders : Providers :=
  mkProviders "mint.deposit-accepted-submit-title" true
    [(3, mkSnackbar (Str "Wallet connected") (Some "success"%string) false);
     (4, mkSnackbar
           (El GatewayTransactionValidityMessage [("milliseconds", Num 3599000)] [])
           (Some "error"%string) true)] 5.

Definition sampleMalformed : ConfirmationProps :=
  mkConfirmationProps Sample.gateway None (Some 6)
    ChainTransactionStatus.Confirming (Some "1,5"%string) (Some 6) None None.

(** The deposit is confirmed while the accepted screen is already shown;
    both screens are unmounted in the end. *)
Definition sampleDepositRun
  : list (Lifecycle ConfirmationProps + Lifecycle AcceptedProps) :=
  [inl (Mount sampleConfirmation);
   inr (Mount sampleAccepted);
   inl (Render (mkConfirmationProps Sample.gateway (Some 6) (Some 6)
                  ChainTransactionStatus.Done (Some "1500000"%string) (Some 6)
                  (Some "ab12"%string) (Some "https://explorer/ab12"%string)));
   inr (Render sampleAcceptedLater);
   inr Unmount;
   inl Unmount].

Section deposit_theorems.
Context `{I18n} `{Registry} `{Theme} `{Clock} `{NotificationService}.
Implicit Types (env : Providers) (st : AcceptedState).

Implicit Types
  (tr : list (Lifecycle ConfirmationProps + Lifecycle AcceptedProps)).

Lemma deposit_inv_run env0 tr :
  closesAllOnUndefined = false -> fresh env0 ->
  accepted_inv (snackbars env0)
    (accepted_of (run_events deposit_step tr (None, None, env0))).
Proof.
  intros Hclose Hf.
  apply (run_events_invariant deposit_step
           (fun s => accepted_inv (snackbars env0) (accepted_of s))); [by split|].
  intros e s. by apply deposit_inv_step.
Qed.

Lemma notification_unset_run env0 tr :
  notification_unset (run_events deposit_step tr (None, None, env0)).1.2.
Proof.
  apply (run_events_invariant deposit_step (fun s => notification_unset s.1.2));
    [done|].
  intros e s. apply notification_unset_deposit.
Qed.

(** C19: [maxConfirmations] clamps: it returns the target when the actual
    count is above it and the actual count otherwise, that is, the minimum
    of the two. *)
Theorem maxConfirmations_min actual target :
  maxConfirmations actual target = Z.min actual target.
Proof. unfold maxConfirmations. rewrite Z.gtb_ltb. case_match; do_bool; lia. Qed.

(** C9: Over every interleaving of the lives of the two deposit screens
    under the same providers, with a service that ignores an undefined
    key: the service's keys stay fresh; while the accepted screen is
    mounted its [notification] state is undefined and the notifications on
    screen are those from before plus the expiry notification; while it is
    not, they are those from before.  The confirmation screen, which sets
    the title beside it, does not interfere. *)
Theorem accepted_notifications_invariant env0 tr :
  closesAllOnUndefined = false -> fresh env0 ->
  accepted_inv (snackbars env0)
    (accepted_of (run_events deposit_step tr (None, None, env0))).
Proof. apply deposit_inv_run. Qed.

(** C20: Release on unmount: whenever the accepted screen is not mounted,
    the notifications are exactly those that were shown before it was
    first mounted, whatever the confirmation screen did meanwhile. *)
Theorem accepted_unmount_restores env0 tr :
  closesAllOnUndefined = false -> fresh env0 ->
  let s := accepted_of (run_events deposit_step tr (None, None, env0)) in
  s.1 = None -> snackbars s.2 = snackbars env0.
Proof.
  intros Hclose Hf s Hst. destruct (deposit_inv_run env0 tr Hclose Hf) as [_ Hi].
  fold s in Hi. by rewrite Hst in Hi.
Qed.

(** C24: The deposit notification is never shown: every notification on
    screen during the lives of the deposit screens was there before or is
    the expiry notification. *)
Theorem deposit_notification_never_shown env0 tr kn :
  closesAllOnUndefined = false -> fresh env0 ->
  kn ∈ snackbars (run_events deposit_step tr (None, None, env0)).2 ->
  kn ∈ snackbars env0 \/ exists remained, kn.2 = expirySnackbar remained.
Proof.
  intros Hclose Hf. destruct (deposit_inv_run env0 tr Hclose Hf) as [_ Hi].
  destruct (run_events _ _ _) as [[c [st|]] env]; unfold accepted_of in Hi;
    simpl in *; [|rewrite Hi; by left].
  rewrite (minv_snackbars _ _ _ Hi), elem_of_app. unfold expiryShown.
  intros [?|Hin]; [by left | right]. case_match; [|by apply elem_of_nil in Hin].
  apply list_elem_of_singleton in Hin as ->. by eexists.
Qed.

(** C34: The cleanup of the notification effect never has a key: in
    every state the two deposit screens reach, whatever the service, the
    notification state of a mounted accepted screen and the key that the
    cleanup of its notification effect closes are undefined.  So with a
    service that closes every notification on an undefined key, as the
    snackbar library does, an event of the mounted accepted screen that
    changes anything at all (a render with other configurations, a render
    that throws, the unmount) leaves no notification on screen, neither
    those of other components nor the expiry notification of the screen
    itself. *)
Theorem notification_cleanup_without_key env0 tr :
  let s := run_events deposit_step tr (None, None, env0) in
  notification_unset s.1.2
  /\ (closesAllOnUndefined = true ->
      forall e, is_Some s.1.2 -> deposit_step (inr e) s <> s ->
      snackbars (deposit_step (inr e) s).2 = []).
Proof.
  intros s. pose proof (notification_unset_run env0 tr) as Hi. fold s in Hi.
  split; [done|]. intros Hclose e [st Hst].
  destruct s as [[c a] env]. simpl in Hst, Hi. subst a. unfold deposit_step.
  destruct (accepted_step_forwarded e st env Hclose Hi) as [->| Hs]; [done|].
  by destruct (accepted_step e (Some st, env)).
Qed.

(** C33: What mounting the accepted screen does: the remaining time is
    read once, the title and the action flag are set, and the expiry
    notification is shown, persistent, exactly when the remaining time is
    below the offset, as an error under twelve hours and as a warning
    otherwise. *)
Theorem accepted_mount_expiry p env st env' :
  accepted_mount p env = (Some st, env') ->
  mintTimeRemained st = getRemainingTime (a_expiryTime p)
  /\ paperTitle env' = t "mint.deposit-accepted-submit-title"
  /\ actionRequired env' = true
  /\ snackbars env'
     = snackbars env ++ expiryShown (mintTimeRemained st) (nextKey env).
Proof.
  unfold accepted_mount. destruct (accepted_view p) as [v|]; [|done].
  destruct (accepted_configs p) as [[ac cc]|]; [|done].
  rewrite notificationEffect_undefined, expiryEffect_spec. unfold expiryShown.
  destruct (_ <? _) eqn:Hlt; intros [= <- <-]; simpl;
    by rewrite Hlt, ?app_nil_r.
Qed.

(** C39: A later render never restarts the countdown: whatever expiry
    time the new props carry, [mintTimeRemained] and the notifications on
    screen stay as they were. *)
Theorem accepted_render_keeps_countdown l0 p st env st' env' :
  closesAllOnUndefined = false -> mounted_inv l0 st env ->
  accepted_render p st env = (Some st', env') ->
  mintTimeRemained st' = mintTimeRemained st /\ snackbars env' = snackbars env.
Proof.
  intros Hclose [Hn Hd Hs Hk]. unfold accepted_render.
  destruct (accepted_view p) as [v|]; [|done].
  destruct (accepted_configs p) as [[ac cc]|]; [|done].
  case_bool_decide; [by intros [= <- <-]|]. unfold notificationCleanup.
  rewrite Hd, Hn, closeNotification_undefined, Hclose, notificationEffect_undefined.
  by intros [= <- <-].
Qed.

(** C29: The accepted screen offers one handler, the button's, and it
    does nothing: the button is never disabled and the error dialog never
    opens, whatever the props. *)
Theorem accepted_offers_noop p v :
  accepted_view p = Ok v ->
  clickable v = [OnNoop]
  /\ find_all SubmitErrorDialog v
     = [El SubmitErrorDialog [("open", Bool false); ("onAction", Fn OnNoop);
          ("onAlternativeAction", Fn OnNoop); ("error", Obj [])] []].
Proof.
  intros Hv. split; [by apply (accepted_clickable p)|].
  revert Hv. unfold accepted_view, MintDepositAcceptedStatus. intros Hv.
  open_view Hv;
    by destruct (a_lockConfirmations p), (a_lockTargetConfirmations p),
      (a_lockTxId p), (a_lockTxUrl p).
Qed.

(** C31: The title follows the status of the lock: over every sequence of
    mounts, renders and unmounts of the confirmation screen, while it is
    mounted the paper's title is the one for the value of [confirmed] that
    the last render computed. *)
Theorem confirmation_title_invariant env0
    (tr : list (Lifecycle ConfirmationProps)) :
  match (run_events confirmation_step tr (None, env0)).1 with
  | Some dep =>
      paperTitle (run_events confirmation_step tr (None, env0)).2
      = confirmationTitle dep
  | None => True
  end.
Proof.
  apply (run_events_invariant confirmation_step (fun s =>
    match s.1 with Some dep => paperTitle s.2 = confirmationTitle dep | None => True end));
    [done|].
  intros [p|p|] [[dep|] env]; simpl; try done; intros Hi;
    destruct (is_Ok _); simpl; try done.
  case_bool_decide as Heq; [by rewrite Heq | done].
Qed.

(** The placeholders of the confirmation screen: one skeleton stands
    for the confirmations unless both counts are known, one for the amount
    unless the amount and the decimals are both known; nothing else renders
    a skeleton. *)
Theorem confirmation_skeletons p v :
  confirmation_view p = Ok v ->
  count Skeleton v
  = ((if both (c_lockConfirmations p) (c_lockTargetConfirmations p) is Some _
      then 0 else 1)
     + (if both (c_lockAmount p) (c_lockAssetDecimals p) is Some _
        then 0 else 1))%nat.
Proof.
  unfold confirmation_view, MintDepositConfirmationStatus, lockAmountFormatted.
  intros Hv.
  destruct (getAssetConfig _), (getChainConfig _); simpl in Hv; try done.
  destruct (c_lockAmount p) as [amount|], (c_lockAssetDecimals p) as [d|];
    [destruct (formatAmount amount d)|..]; simpl in Hv; simplify_result;
    by destruct (c_lockConfirmations p), (c_lockTargetConfirmations p),
      (c_lockTxId p), (c_lockTxUrl p).
Qed.

(** The confirmation screen fails to render exactly when the asset
    has no configuration, or the chain of the lock has none, or
    bignumber.js throws on the decimals; the lookups come first, in the
    order of the source. *)
Theorem confirmation_render_fails_iff p e :
  confirmation_view p = Err e
  <-> (assetConfigs (params_asset (c_gateway p)) = None
       /\ e = UnknownAsset (params_asset (c_gateway p)))
      \/ (is_Some (assetConfigs (params_asset (c_gateway p)))
          /\ chainConfigs (fromChain_chain (c_gateway p)) = None
          /\ e = UnknownChain (fromChain_chain (c_gateway p)))
      \/ (is_Some (assetConfigs (params_asset (c_gateway p)))
          /\ is_Some (chainConfigs (fromChain_chain (c_gateway p)))
          /\ lockAmountFormatted (c_lockAmount p) (c_lockAssetDecimals p) = Err e).
Proof.
  unfold confirmation_view, MintDepositConfirmationStatus, getAssetConfig,
    getChainConfig.
  destruct (assetConfigs _), (chainConfigs _); simpl;
    try destruct (lockAmountFormatted _ _); simpl; naive_solver.
Qed.

(** C28: The confirmations are displayed as the SDK reports them: when
    both counts are known, the text and the progress indicator of the
    confirmation screen carry the actual count, also when it is above the
    target. *)
Theorem confirmations_shown_unclamped p v lc ltc :
  confirmation_view p = Ok v ->
  c_lockConfirmations p = Some lc -> c_lockTargetConfirmations p = Some ltc ->
  Frag [Num lc; Str " of "; Num ltc; Str " confirmations"] ∈ subnodes v
  /\ (prop "confirmations" <$> find_first ProgressWithContent v) = Some (Num lc).
Proof.
  unfold confirmation_view, MintDepositConfirmationStatus.
  intros Hv Hlc Hltc. rewrite Hlc, Hltc in Hv.
  open_view Hv; (split; [|done]); simpl;
    rewrite !elem_of_cons, !elem_of_app, !elem_of_cons; naive_solver.
Qed.

(** C40: The formatted amount is absent exactly when the amount or the
    decimals are, and formatting throws exactly when both are present and
    the decimals are outside the safe integers. *)
Theorem lockAmountFormatted_branches lockAmount lockAssetDecimals :
  (lockAmountFormatted lockAmount lockAssetDecimals = Ok None
   <-> lockAmount = None \/ lockAssetDecimals = None)
  /\ forall e, lockAmountFormatted lockAmount lockAssetDecimals = Err e
      <-> exists a d, lockAmount = Some a /\ lockAssetDecimals = Some d
            /\ (d < - MAX_SAFE_INTEGER \/ MAX_SAFE_INTEGER < d)
            /\ e = BigNumberThrew (ArgumentOutOfRange (- d)).
Proof.
  split; [apply lockAmountFormatted_None | apply lockAmountFormatted_Err].
Qed.

(** C27: A malformed amount is displayed, not replaced by the placeholder:
    when [lockAmount] is no decimal literal and no infinity, and has
    nothing the library would remove or read in another base before it
    gives up (white space at an end, a plus sign in front, a prefix 0x, 0b
    or 0o: [plain]), the confirmation screen renders the amount "NaN" with
    the asset's suffix. *)
Theorem malformed_amount_shows_NaN p v a d :
  confirmation_view p = Ok v ->
  c_lockAmount p = Some a -> c_lockAssetDecimals p = Some d ->
  plain a = true -> numeric (list_ascii_of_string a) = None ->
  a <> "Infinity"%string -> a <> "-Infinity"%string ->
  exists suffix,
    find_all NumberFormatText v
    = [El NumberFormatText [("value", Str "NaN"); ("spacedSuffix", Str suffix)] []].
Proof.
  unfold confirmation_view, MintDepositConfirmationStatus, lockAmountFormatted.
  intros Hv Ha Hd _ Hn Hi Hm. rewrite Ha, Hd in Hv.
  apply of_string_invalid in Hn; [|done..].
  destruct (getAssetConfig _), (getChainConfig _); simpl in Hv; try done.
  destruct (formatAmount a d) as [r|] eqn:Hr; simpl in Hv; simplify_result.
  apply (formatAmount_NaN _ _ _ Hn) in Hr as ->. eexists.
  by destruct (c_lockConfirmations p), (c_lockTargetConfirmations p),
    (c_lockTxId p), (c_lockTxUrl p).
Qed.

End deposit_theorems.

(** ** Witnesses on the sample collaborators *)

#[local] Existing Instances Sample.i18n Sample.registry Sample.theme Sample.clock.

Lemma fresh_sampleProviders : fresh sampleProviders.
Proof. split; [done | by repeat constructor]. Qed.

Lemma accepted_notifications_invariant_witness :
  accepted_inv (H := Sample.clock) (snackbars sampleProviders)
    (accepted_of
       (run_events (deposit_step (H3 := ignoringService)) (take 4 sampleDepositRun)
          (None, None, sampleProviders))).
Proof.
  by apply (accepted_notifications_invariant (H3 := ignoringService));
    [|apply fresh_sampleProviders].
Defined.

Lemma accepted_unmount_restores_witness :
  paperTitle (run_events (deposit_step (H3 := ignoringService)) sampleDepositRun
                (None, None, sampleProviders)).2
  = "mint.deposit-confirmed-label"%string
  /\ snackbars (run_events (deposit_step (H3 := ignoringService)) sampleDepositRun
                  (None, None, sampleProviders)).2
     = snackbars sampleProviders.
Proof.
  split; [done|].
  by apply (accepted_unmount_restores (H3 := ignoringService) sampleProviders
              sampleDepositRun); [|apply fresh_sampleProviders|].
Defined.

Lemma deposit_notification_never_shown_witness :
  let kn := (4, expirySnackbar (H := Sample.clock) 3599000) in
  kn ∈ snackbars sampleProviders
  \/ exists remained, kn.2 = expirySnackbar (H := Sample.clock) remained.
Proof.
  apply (deposit_notification_never_shown (H3 := ignoringService)
           sampleProviders (take 3 sampleDepositRun));
    [done | apply fresh_sampleProviders|].
  vm_compute. by right; left.
Defined.

Lemma notification_cleanup_without_key_witness :
  let s := run_events (deposit_step (H3 := forwardingService)) (take 2 sampleDepositRun)
             (None, None, sampleProviders) in
  length (snackbars s.2) = 2%nat
  /\ snackbars (deposit_step (H3 := forwardingService)
                  (inr (Render sampleAcceptedLater)) s).2 = [].
Proof.
  split; [done|].
  apply (proj2 (notification_cleanup_without_key (H3 := forwardingService)
                  sampleProviders (take 2 sampleDepositRun))
           eq_refl (Render sampleAcceptedLater)); [by eexists|].
  intros Heq. by apply (f_equal (fun s => length (snackbars s.2))) in Heq.
Defined.

Lemma accepted_mount_expiry_witness :
  mintTimeRemained sampleMounted = getRemainingTime (a_expiryTime sampleAccepted)
  /\ paperTitle sampleMountedProviders = t "mint.deposit-accepted-submit-title"
  /\ actionRequired sampleMountedProviders = true
  /\ snackbars sampleMountedProviders
     = snackbars sampleProviders
       ++ expiryShown (mintTimeRemained sampleMounted) (nextKey sampleProviders).
Proof.
  by apply (accepted_mount_expiry sampleAccepted).
Defined.

Lemma sampleMounted_inv :
  mounted_inv (snackbars sampleProviders) sampleMounted sampleMountedProviders.
Proof. split; try done. simpl. split; [lia | by repeat constructor]. Qed.

Lemma accepted_render_keeps_countdown_witness :
  mintTimeRemained
    (mkAccepted None 3599000 4 (Sample.dai, Sample.ethereum, None))
  = mintTimeRemained sampleMounted
  /\ snackbars sampleMountedProviders = snackbars sampleMountedProviders.
Proof.
  by apply (accepted_render_keeps_countdown (H3 := ignoringService)
              (snackbars sampleProviders) sampleAcceptedLater sampleMounted
              sampleMountedProviders);
    [|apply sampleMounted_inv|].
Defined.

Lemma accepted_offers_noop_witness :
  exists v, accepted_view sampleAccepted = Ok v
    /\ clickable v = [OnNoop]
    /\ find_all SubmitErrorDialog v
       = [El SubmitErrorDialog [("open", Bool false); ("onAction", Fn OnNoop);
            ("onAlternativeAction", Fn OnNoop); ("error", Obj [])] []].
Proof.
  eexists. split; [by vm_compute|].
  by apply (accepted_offers_noop sampleAccepted).
Defined.

Lemma confirmation_skeletons_witness :
  exists v, confirmation_view sampleMalformed = Ok v
    /\ count Skeleton v = (1 + 0)%nat.
Proof.
  eexists. split; [by vm_compute|].
  by apply (confirmation_skeletons sampleMalformed).
Defined.

Lemma malformed_amount_shows_NaN_witness :
  exists v, confirmation_view sampleMalformed = Ok v
    /\ exists suffix,
         find_all NumberFormatText v
         = [El NumberFormatText [("value", Str "NaN"); ("spacedSuffix", Str suffix)] []].
Proof.
  eexists. split; [by vm_compute|].
  by apply (malformed_amount_shows_NaN sampleMalformed _ "1,5" 6).
Defined.

Lemma confirmations_shown_unclamped_witness :
  exists v,
    confirmation_view
      (mkConfirmationProps Sample.gateway (Some 9) (Some 6)
         ChainTransactionStatus.Done None None None None) = Ok v
    /\ Frag [Num 9; Str " of "; Num 6; Str " confirmations"] ∈ subnodes v
    /\ (prop "confirmations" <$> find_first ProgressWithContent v) = Some (Num 9).
Proof.
  eexists. split; [by vm_compute|].
  by apply (confirmations_shown_unclamped
              (mkConfirmationProps Sample.gateway (Some 9) (Some 6)
                 ChainTransactionStatus.Done None None None None)).
Defined.
