(* ===== verification/MintH2H.v ===== *)
(** * MintH2H: the host-to-host mint screens

    The three components of
    src/src/features/gateway/steps/mint/MintH2HStatuses.tsx as functions from
    their props and from what their hooks return to the tree they render,
    and [handleSubmitBoth], the callback that submits the RenVM leg and then
    the out leg.

    A component's destructured props are the function's first arguments, in
    the order of the source; the values its hooks read from ambient state
    follow (the balance, the wallet's connection, the state of each
    submitter).  [mintingInfo], [receivingInfo] and [networkSwitchingNote]
    are the JSX blocks that the source repeats verbatim in all three
    components, [confirmationsProgress] the one the two progress screens
    share. *)

From Stdlib Require Import ZArith Lia.
From stdpp Require Import base tactics option list numbers strings.
From S2P Require Import Prelude View Submitter Config.

#[local] Open Scope Z_scope.

Section components.
Context `{I18n} `{Registry}.

(** [<HorizontalPadder><LabelWithValue .../></HorizontalPadder>]: the
    balance of the asset, a skeleton while it is not known (lines 82-103). *)
Definition balanceInfo (balance : option string) (asset : string) : Node :=
  El HorizontalPadder [] [
    El LabelWithValue [
      ("label", Str (t "common.balance" +:+ ":"));
      ("value",
        El span [] [
          match balance with
          | None =>
              El InlineSkeleton [
                ("variant", Str "rect");
                ("animation", Str "pulse");
                ("width", Num 40);
                ("height", Num 12)
              ] []
          | Some b => El Fade [("in", Bool true)] [El span [] [Str b]]
          end;
          El span [] [Str " "; Str asset]
        ])
    ] []
  ].

(** [<SimpleAssetInfo label={t("mint.minting-label")} value={amount}
    asset={asset} />] (lines 104-108, and again at 232-236 and 376-380). *)
Definition mintingInfo (amount asset : string) : Node :=
  El SimpleAssetInfo [
    ("label", Str (t "mint.minting-label"));
    ("value", Str amount);
    ("asset", Str asset)
  ] [].

(** [<ProgressWithContent confirmations={undefinedForNull(...)}
    targetConfirmations={undefinedForNull(...)}><Icon fontSize="inherit" />
    </ProgressWithContent>] (lines 224-229, and again at 367-372). *)
Definition confirmationsProgress (confirmations targetConfirmations : option Z)
    (Icon : string) : Node :=
  El ProgressWithContent [
    ("confirmations", undefinedForNull Num confirmations);
    ("targetConfirmations", undefinedForNull Num targetConfirmations)
  ] [El (Dyn Icon) [("fontSize", Str "inherit")] []].

(** [<MediumTopWrapper><AssetInfo .../></MediumTopWrapper>]: the amount
    received, its USD equivalent when known (lines 109-132, and again at
    237-260 and 381-404). *)
Definition receivingInfo (outputAmount outputAmountUsd : option string)
    (renAsset RenIcon : string) : Node :=
  El MediumTopWrapper [] [
    El AssetInfo [
      ("label", Str (t "common.receiving-label"));
      ("value",
        El NumberFormatText [
          ("value", nullable Str outputAmount);
          ("spacedSuffix", Str renAsset);
          ("decimalScale", Num 3)
        ] []);
      ("valueEquivalent",
        match outputAmountUsd with
        | Some usd =>
            El NumberFormatText [
              ("prefix", Str " = $");
              ("value", Str usd);
              ("spacedSuffix", Str "USD");
              ("decimalScale", Num 2);
              ("fixedDecimalScale", Bool true)
            ] []
        | None => Null
        end);
      ("Icon", El (Dyn RenIcon) [("fontSize", Str "inherit")] [])
    ] []
  ].

(** [<HorizontalPadder><Box ...>...</Box></HorizontalPadder>]: the note on
    network switching (lines 137-151, and again at 265-279 and 409-423). *)
Definition networkSwitchingNote : Node :=
  El HorizontalPadder [] [
    El Box [
      ("mt", Num 3);
      ("display", Str "flex");
      ("justifyContent", Str "space-between");
      ("alignItems", Str "center")
    ] [
      El Box [("maxWidth", Num 240)] [
        El Typography [("variant", Str "caption"); ("color", Str "textSecondary")] [
          Str (t "h2h.network-switching-message")
        ]
      ];
      El TooltipWithIcon [("title", Str (t "h2h.network-switching-tooltip"))] []
    ]
  ].

(** [{x.errorSubmitting && <SubmitErrorDialog open={true}
    error={x.errorSubmitting} onAction={x.handleReset} />}]. *)
Definition errorDialog (x : SubmitterHook) : Node :=
  js_and (undefinedForNull ErrV (errorSubmitting x))
    (El SubmitErrorDialog [
       ("open", Bool true);
       ("error", undefinedForNull ErrV (errorSubmitting x));
       ("onAction", Fn (handleReset x))
     ] []).

Definition MintH2HLockTransactionStatus
    (gateway : Gateway) (Fees : option Node)
    (outputAmount outputAmountUsd : option string)
    (balance : option string) (gateway_in : SubmissionState)
    : result RenderError Node :=
  let '(mkGatewayParams asset _ _ amount) := getGatewayParams gateway in
  assetConfig ← getAssetConfig asset;
  let renAsset := getRenAssetName asset in
  let RenIcon := AssetConfig.RenIcon assetConfig in
  let x := useChainTransactionSubmitter LegIn gateway_in in
  Ok (Frag [
    El PaperContent [("bottomPadding", Bool true)] [
      balanceInfo balance asset;
      mintingInfo amount asset;
      receivingInfo outputAmount outputAmountUsd renAsset RenIcon
    ];
    El Divider [] [];
    El PaperContent [("topPadding", Bool true); ("darker", Bool true)] [
      nullable id Fees;
      networkSwitchingNote;
      El MultipleActionButtonWrapper [] [
        El ActionButton [
          ("onClick", Fn (handleSubmit x));
          ("disabled", Bool (submitting x || waiting x || done x))
        ] [
          Str (if submitting x || waiting x
               then t "gateway.submitting-tx-label"
               else t "gateway.submit-tx-label")
        ];
        errorDialog x
      ]
    ]
  ]).

(** [showSwitchWalletDialog] (lines 216-217). *)
Definition showSwitchWalletDialog
    (lockStatus : option ChainTransactionStatus.status) (connected : bool) : bool :=
  bool_decide (lockStatus = Some ChainTransactionStatus.Done) && negb connected.

(** The [disabled] prop of the button that submits both legs (lines
    283-291 and 427-435): [legStatus] is [lockStatus] in the lock screen and
    [mintStatus] in the mint screen. *)
Definition bothDisabled (out renVM : SubmitterHook)
    (legStatus : option ChainTransactionStatus.status) : bool :=
  submitting out || waiting out || done out
  || submitting renVM || waiting renVM || done renVM
  || bool_decide (legStatus = Some ChainTransactionStatus.Confirming).

(** The button that submits both legs and the two error dialogs (lines
    280-311 and 424-455). *)
Definition submitBothActions (out renVM : SubmitterHook)
    (legStatus : option ChainTransactionStatus.status) : Node :=
  El MultipleActionButtonWrapper [] [
    El ActionButton [
      ("onClick", Fn OnSubmitBoth);
      ("disabled", Bool (bothDisabled out renVM legStatus))
    ] [
      Str (if submitting out || waiting out || submitting renVM || waiting renVM
           then t "gateway.submitting-tx-label"
           else t "gateway.submit-tx-label")
    ];
    errorDialog renVM;
    errorDialog out
  ].

Definition MintH2HLockTransactionProgressStatus
    (gateway : Gateway) (Fees : option Node)
    (outputAmount outputAmountUsd : option string)
    (lockConfirmations lockTargetConfirmations : option Z)
    (lockStatus : option ChainTransactionStatus.status)
    (connected : bool) (transaction_renVM transaction_out : SubmissionState)
    : result RenderError Node :=
  let '(mkGatewayParams asset from to amount) := getGatewayParams gateway in
  fromChainConfig ← getChainConfig from;
  assetConfig ← getAssetConfig asset;
  let renAsset := getRenAssetName asset in
  let RenIcon := AssetConfig.RenIcon assetConfig in
  let renVM := useChainTransactionSubmitter LegRenVM transaction_renVM in
  let out := useChainTransactionSubmitter LegOut transaction_out in
  let Icon := ChainConfig.Icon fromChainConfig in
  Ok (Frag [
    El SwitchWalletDialog [
      ("open", Bool (showSwitchWalletDialog lockStatus connected));
      ("targetChain", Str to)
    ] [];
    El PaperContent [("bottomPadding", Bool true)] [
      El ProgressWrapper [] [
        confirmationsProgress lockConfirmations lockTargetConfirmations Icon
      ];
      mintingInfo amount asset;
      receivingInfo outputAmount outputAmountUsd renAsset RenIcon
    ];
    El Divider [] [];
    El PaperContent [("topPadding", Bool true); ("darker", Bool true)] [
      El FeesToggler [] [nullable id Fees];
      networkSwitchingNote;
      submitBothActions out renVM lockStatus
    ]
  ]).

Definition MintH2HMintTransactionProgressStatus
    (gateway : Gateway)
    (renVMStatus mintStatus : option ChainTransactionStatus.status)
    (mintConfirmations mintTargetConfirmations : option Z)
    (outputAmount outputAmountUsd : option string) (Fees : option Node)
    (transaction_renVM transaction_out : SubmissionState)
    : result RenderError Node :=
  let '(mkGatewayParams asset _ to amount) := getGatewayParams gateway in
  mintChainConfig ← getChainConfig to;
  assetConfig ← getAssetConfig asset;
  let renAsset := getRenAssetName asset in
  let renVM := useChainTransactionSubmitter LegRenVM transaction_renVM in
  let out := useChainTransactionSubmitter LegOut transaction_out in
  let RenIcon := AssetConfig.RenIcon assetConfig in
  let Icon := ChainConfig.Icon mintChainConfig in
  Ok (Frag [
    El PaperContent [("bottomPadding", Bool true)] [
      El ProgressWrapper [] [
        if bool_decide (renVMStatus = Some ChainTransactionStatus.Confirming)
        then
          El ProgressWithContent [("processing", Bool true)] [
            El TransactionStatusInfo [("status", Str "Submitting to RenVM...")] []
          ]
        else confirmationsProgress mintConfirmations mintTargetConfirmations Icon
      ];
      mintingInfo amount asset;
      receivingInfo outputAmount outputAmountUsd renAsset RenIcon
    ];
    El Divider [] [];
    El PaperContent [("topPadding", Bool true); ("darker", Bool true)] [
      nullable id Fees;
      networkSwitchingNote;
      submitBothActions out renVM mintStatus
    ]
  ]).

End components.

(** ** The submitters of a page, and the callbacks that drive them

    A mounted screen owns one submitter per leg it wraps.  [calls] lists
    the external submit operations invoked so far, oldest first; [waiters]
    counts the invocations of [handleSubmitBoth] suspended at
    [await renVM.handleSubmit()]. *)

Record PageState := mkPage {
  gateway_in : SubmissionState;
  transaction_renVM : SubmissionState;
  transaction_out : SubmissionState;
  waiters : nat;
  calls : list Leg
}.

Definition initial : PageState :=
  {| gateway_in := wrap; transaction_renVM := wrap; transaction_out := wrap;
     waiters := 0; calls := [] |}.

Definition leg_state (l : Leg) (st : PageState) : SubmissionState :=
  match l with
  | LegIn => gateway_in st
  | LegRenVM => transaction_renVM st
  | LegOut => transaction_out st
  end.

Definition set_leg (l : Leg) (s : SubmissionState) (st : PageState) : PageState :=
  match l with
  | LegIn =>
      mkPage s (transaction_renVM st) (transaction_out st) (waiters st) (calls st)
  | LegRenVM =>
      mkPage (gateway_in st) s (transaction_out st) (waiters st) (calls st)
  | LegOut =>
      mkPage (gateway_in st) (transaction_renVM st) s (waiters st) (calls st)
  end.

Definition record_call (l : Leg) (st : PageState) : PageState :=
  mkPage (gateway_in st) (transaction_renVM st) (transaction_out st)
    (waiters st) (calls st ++ [l]).

Definition set_waiters (n : nat) (st : PageState) : PageState :=
  mkPage (gateway_in st) (transaction_renVM st) (transaction_out st) n (calls st).

(** [x.handleSubmit()] on the submitter of leg [l]: the state after the
    synchronous part of the call, and whether the returned promise is still
    pending (it is when a submission was issued; a guarded call returns at
    once). *)
Definition invokeSubmit (l : Leg) (st : PageState) : PageState * bool :=
  let '(s, issued) := submit (leg_state l st) in
  let st' := set_leg l s st in
  (if issued then record_call l st' else st', issued).

(** [x.handleReset()]. *)
Definition invokeReset (l : Leg) (st : PageState) : PageState :=
  set_leg l (reset (leg_state l st)) st.

(** The rest of [handleSubmitBoth] after its first [await]:
    [await out.handleSubmit()], after which the callback returns. *)
Definition continueWithOut (st : PageState) : PageState :=
  (invokeSubmit LegOut st).1.

(** [handleSubmitBoth] (lines 207-210 and 351-354):
    [await renVM.handleSubmit(); await out.handleSubmit();]. *)
Definition handleSubmitBoth (st : PageState) : PageState :=
  let '(st1, pending) := invokeSubmit LegRenVM st in
  if pending then set_waiters (S (waiters st1)) st1
  else continueWithOut st1.

(** What each handler does when it is called. *)
Definition dispatch (h : Handler) (st : PageState) : PageState :=
  match h with
  | OnSubmit l => (invokeSubmit l st).1
  | OnReset l => invokeReset l st
  | OnSubmitBoth => handleSubmitBoth st
  | OnNoop => st
  end.

(** An answer of the SDK for leg [l].  When it settles the RenVM leg, the
    suspended invocations of [handleSubmitBoth] resume. *)
Definition onSdk (l : Leg) (ev : SdkEvent) (st : PageState) : PageState :=
  let s := leg_state l st in
  let s' := sdk ev s in
  let st' := set_leg l s' st in
  match l with
  | LegRenVM =>
      if in_flight s && negb (in_flight s')
      then Nat.iter (waiters st') continueWithOut (set_waiters 0 st')
      else st'
  | _ => st'
  end.

(** ** What the rendered trees offer to the user *)

#[local] Arguments receivingInfo : simpl never.
#[local] Arguments networkSwitchingNote : simpl never.
#[local] Arguments errorDialog : simpl never.
#[local] Arguments submitBothActions : simpl never.

(** The handlers of an error dialog: its reset when the leg has an error. *)
Definition dialogHandlers (x : SubmitterHook) : list Handler :=
  match errorSubmitting x with Some _ => [handleReset x] | None => [] end.

Section view_lemmas.
Context `{I18n} `{Registry}.
Implicit Types (gateway : Gateway) (Fees : option Node) (v : Node)
  (s : SubmissionState) (x : SubmitterHook)
  (legStatus : option ChainTransactionStatus.status).

Lemma clickable_receivingInfo oa ousd renAsset RenIcon :
  clickable (receivingInfo oa ousd renAsset RenIcon) = [].
Proof. by destruct oa, ousd. Qed.

Lemma clickable_networkSwitchingNote : clickable networkSwitchingNote = [].
Proof. reflexivity. Qed.

Lemma clickable_errorDialog x : clickable (errorDialog x) = dialogHandlers x.
Proof. unfold dialogHandlers. by destruct x as [? ? ? ? [e|] ?]. Qed.

Lemma count_errorDialog x :
  count SubmitErrorDialog (errorDialog x)
  = if errorSubmitting x is Some _ then 1%nat else 0%nat.
Proof. by destruct x as [? ? ? ? [e|] ?]. Qed.

Lemma clickable_submitBothActions out renVM legStatus :
  clickable (submitBothActions out renVM legStatus)
  = (if bothDisabled out renVM legStatus then [] else [OnSubmitBoth])
    ++ dialogHandlers renVM ++ dialogHandlers out.
Proof.
  unfold submitBothActions. simpl. rewrite !clickable_errorDialog, !app_nil_r.
  by destruct (bothDisabled out renVM legStatus).
Qed.

Lemma bothDisabled_false out renVM legStatus :
  bothDisabled out renVM legStatus = false <->
  submitting out = false /\ waiting out = false /\ done out = false /\
  submitting renVM = false /\ waiting renVM = false /\ done renVM = false /\
  legStatus <> Some ChainTransactionStatus.Confirming.
Proof.
  unfold bothDisabled. rewrite !orb_false_iff, bool_decide_eq_false. tauto.
Qed.

Lemma bothDisabled_hooks s_out s_renVM legStatus :
  bothDisabled (useChainTransactionSubmitter LegOut s_out)
    (useChainTransactionSubmitter LegRenVM s_renVM) legStatus
  = busy s_out || busy s_renVM
    || bool_decide (legStatus = Some ChainTransactionStatus.Confirming).
Proof.
  unfold bothDisabled.
  by rewrite <- (hook_busy LegOut s_out), <- (hook_busy LegRenVM s_renVM), !orb_assoc.
Qed.

End view_lemmas.

#[export] Hint Rewrite @clickable_receivingInfo @clickable_networkSwitchingNote
  @clickable_errorDialog @clickable_submitBothActions : bridge.
