(* ===== verification/H2HPage.v ===== *)
(** * H2HPage: a mounted host-to-host screen as a transition system

    A screen of MintH2HStatuses.tsx, once mounted, moves on two kinds of
    events: the user triggers a handler that the rendered tree offers (an
    enabled button, an open dialog), or the SDK answers a submission.  The
    props may differ from one render to the next.

    [step] is the executable transition function and [reachable] the
    states a screen can be in.  The section [two_legs] proves the
    invariants of the screens that submit the RenVM and out legs together
    against the class [TwoLegScreen], which says what the tree of such a
    screen may offer ([offers_both]); [H2HScreens] declares the two screens
    of the source as its instances. *)

From Stdlib Require Import ZArith Lia.
From stdpp Require Import base tactics option list numbers strings.
From S2P Require Import Prelude View Submitter Config MintH2H.

Inductive Event :=
| Click (h : Handler)               (* the user triggers a handler *)
| Sdk (l : Leg) (ev : SdkEvent).    (* the SDK answers for a leg *)

Section page.
Context {Props : Type}.
(** The handlers the tree rendered from [p] and [st] offers; the props a
    screen may receive. *)
Variable offered : Props -> PageState -> list Handler.
Variable valid : Props -> Prop.

(** A click reaches its handler only if the rendered tree offers it. *)
Definition step (p : Props) (e : Event) (st : PageState) : PageState :=
  match e with
  | Click h => if bool_decide (h ∈ offered p st) then dispatch h st else st
  | Sdk l ev => onSdk l ev st
  end.

Definition run (tr : list (Props * Event)) (st : PageState) : PageState :=
  foldl (fun st pe => step pe.1 pe.2 st) st tr.

Inductive reachable_from (st0 : PageState) : PageState -> Prop :=
| reach_refl : reachable_from st0 st0
| reach_step p e st :
    reachable_from st0 st -> valid p -> reachable_from st0 (step p e st).

Definition reachable : PageState -> Prop := reachable_from initial.

Lemma reachable_from_trans st0 st1 st2 :
  reachable_from st0 st1 -> reachable_from st1 st2 -> reachable_from st0 st2.
Proof. intros H01 H12. induction H12; [done | by constructor]. Qed.

Lemma run_snoc tr p e st : run (tr ++ [(p, e)]) st = step p e (run tr st).
Proof. unfold run. by rewrite foldl_app. Qed.

Lemma run_app tr1 tr2 st : run (tr1 ++ tr2) st = run tr2 (run tr1 st).
Proof. unfold run. by rewrite foldl_app. Qed.

Lemma run_reachable tr st :
  Forall (fun pe => valid pe.1) tr -> reachable_from st (run tr st).
Proof.
  induction tr as [|[p e] tr IH] using rev_ind; intros Hv; [constructor|].
  apply Forall_app in Hv as [Hv Hpe]. rewrite run_snoc.
  constructor; [by apply IH | by inversion Hpe].
Qed.

Lemma reachable_run st0 st :
  reachable_from st0 st ->
  exists tr, Forall (fun pe => valid pe.1) tr /\ st = run tr st0.
Proof.
  induction 1 as [|p e st _ (tr & Hv & ->) Hp].
  - by exists [].
  - exists (tr ++ [(p, e)]). rewrite run_snoc. split; [|done].
    apply Forall_app; split; [done | by constructor].
Qed.

(** An invariant holds of every reachable state. *)
Lemma invariant_reachable (I : PageState -> Prop) st0 :
  I st0 ->
  (forall p e st, valid p -> I st -> I (step p e st)) ->
  forall st, reachable_from st0 st -> I st.
Proof. intros H0 Hstep st Hr. induction Hr; eauto. Qed.

End page.

(** ** The callbacks, case by case *)

Section callbacks.
Implicit Types (st : PageState) (l : Leg) (s : SubmissionState).

Lemma leg_state_set_leg l s st : leg_state l (set_leg l s st) = s.
Proof. by destruct l. Qed.

Lemma leg_state_set_leg_ne l l' s st :
  l <> l' -> leg_state l' (set_leg l s st) = leg_state l' st.
Proof. by destruct l, l'. Qed.

Lemma invokeSubmit_busy l st :
  busy (leg_state l st) = true -> invokeSubmit l st = (st, false).
Proof.
  intros Hb. unfold invokeSubmit. rewrite (submit_busy _ Hb).
  by destruct l, st.
Qed.

Lemma invokeSubmit_free l st :
  busy (leg_state l st) = false ->
  invokeSubmit l st
  = (record_call l (set_leg l (mkSubmission Submitting None) st), true).
Proof. intros Hb. unfold invokeSubmit. by rewrite (submit_free _ Hb). Qed.

Lemma handleSubmitBoth_free st :
  busy (transaction_renVM st) = false ->
  handleSubmitBoth st
  = mkPage (gateway_in st) (mkSubmission Submitting None) (transaction_out st)
      (S (waiters st)) (calls st ++ [LegRenVM]).
Proof.
  intros Hb. unfold handleSubmitBoth.
  by rewrite (invokeSubmit_free LegRenVM st Hb).
Qed.

Lemma handleSubmitBoth_busy st :
  busy (transaction_renVM st) = true ->
  handleSubmitBoth st = continueWithOut st.
Proof.
  intros Hb. unfold handleSubmitBoth.
  by rewrite (invokeSubmit_busy LegRenVM st Hb).
Qed.

Lemma continueWithOut_free st :
  busy (transaction_out st) = false ->
  continueWithOut st
  = mkPage (gateway_in st) (transaction_renVM st) (mkSubmission Submitting None)
      (waiters st) (calls st ++ [LegOut]).
Proof.
  intros Hb. unfold continueWithOut.
  by rewrite (invokeSubmit_free LegOut st Hb).
Qed.

Lemma continueWithOut_busy st :
  busy (transaction_out st) = true -> continueWithOut st = st.
Proof.
  intros Hb. unfold continueWithOut.
  by rewrite (invokeSubmit_busy LegOut st Hb).
Qed.

Lemma onSdk_other l ev st :
  l <> LegRenVM -> onSdk l ev st = set_leg l (sdk ev (leg_state l st)) st.
Proof. by destruct l. Qed.

(** An answer that leaves the leg in flight changes that leg only. *)
Lemma onSdk_in_flight l ev st :
  in_flight (sdk ev (leg_state l st)) = true ->
  onSdk l ev st = set_leg l (sdk ev (leg_state l st)) st.
Proof. intros Hf. unfold onSdk. rewrite Hf, andb_false_r. by destruct l. Qed.

Lemma onSdk_not_in_flight l ev st :
  in_flight (leg_state l st) = false -> onSdk l ev st = st.
Proof.
  intros Hf. unfold onSdk. rewrite (sdk_not_in_flight _ _ Hf), Hf.
  by destruct l, st.
Qed.

End callbacks.

(** ** Screens that submit the RenVM leg and the out leg together *)

(** What the tree of such a screen may offer, and when: the button that
    submits both legs only while neither leg is busy, a reset only for a
    leg that failed. *)
Definition offers_both (h : Handler) (st : PageState) : Prop :=
  match h with
  | OnSubmitBoth =>
      busy (transaction_renVM st) = false /\ busy (transaction_out st) = false
  | OnReset LegRenVM => phase (transaction_renVM st) = Errored
  | OnReset LegOut => phase (transaction_out st) = Errored
  | _ => False
  end.

(** The number of external submissions of leg [l] so far. *)
Definition submissions (l : Leg) (st : PageState) : nat :=
  count_occ Leg_eq_dec (calls st) l.

Record two_leg_inv (st : PageState) : Prop := mk_two_leg_inv {
  inv_wf_renVM : wf (transaction_renVM st);
  inv_wf_out : wf (transaction_out st);
  (* exactly the invocation that submitted the RenVM leg awaits it *)
  inv_waiters :
    waiters st = if in_flight (transaction_renVM st) then 1%nat else 0%nat;
  (* the out leg has not started while the RenVM leg is in flight *)
  inv_sequenced :
    in_flight (transaction_renVM st) = true -> busy (transaction_out st) = false;
  (* every settled RenVM submission was followed by one out submission *)
  inv_paired :
    submissions LegRenVM st = (submissions LegOut st + waiters st)%nat;
  inv_no_lock : submissions LegIn st = 0%nat;
  inv_in : gateway_in st = wrap
}.

(** The interface between a two-leg screen and the theorems on it: the
    handlers its tree offers for some props and state, the props it may
    receive, and the promise that it offers only what [offers_both]
    allows.  [H2HScreens] declares the two screens of the source as
    instances. *)
Class TwoLegScreen (Props : Type) := {
  screen_offered : Props -> PageState -> list Handler;
  screen_valid : Props -> Prop;
  screen_sound p st h :
    screen_valid p -> h ∈ screen_offered p st -> offers_both h st
}.

Section two_legs.
Context {Props : Type} {screen : TwoLegScreen Props}.

Ltac inv_fields :=
  split; unfold submissions in *; simpl in *; rewrite ?count_occ_app; simpl.

Lemma two_leg_inv_initial : two_leg_inv initial.
Proof. inv_fields; auto using wf_wrap. Qed.

Lemma two_leg_inv_submitBoth st :
  offers_both OnSubmitBoth st -> two_leg_inv st -> two_leg_inv (handleSubmitBoth st).
Proof.
  intros [Hr Ho] [Hwr Hwo Hw Hseq Hpair Hlock Hin].
  rewrite (handleSubmitBoth_free st Hr).
  rewrite (not_busy_not_in_flight _ Hr) in Hw.
  inv_fields; auto using wf_submitting; lia.
Qed.

Lemma two_leg_inv_reset l st :
  offers_both (OnReset l) st -> two_leg_inv st -> two_leg_inv (invokeReset l st).
Proof.
  intros Hoff [Hwr Hwo Hw Hseq Hpair Hlock Hin].
  destruct l; [done| |]; simpl in Hoff; unfold invokeReset; simpl;
    rewrite (reset_errored _ Hoff); unfold in_flight in *; rewrite ?Hoff in *;
    inv_fields; auto using wf_wrap.
Qed.

Lemma two_leg_inv_click p h st :
  screen_valid p -> two_leg_inv st ->
  two_leg_inv (step screen_offered p (Click h) st).
Proof.
  intros Hp Hinv. simpl. case_bool_decide as Hoff; [|done].
  apply (screen_sound _ _ _ Hp) in Hoff.
  destruct h as [l|l| |]; simpl in *; try done.
  - by apply two_leg_inv_reset.
  - by apply two_leg_inv_submitBoth.
Qed.

Lemma two_leg_inv_sdk_out ev st :
  two_leg_inv st -> two_leg_inv (onSdk LegOut ev st).
Proof.
  intros [Hwr Hwo Hw Hseq Hpair Hlock Hin]. unfold onSdk; simpl.
  inv_fields; auto using wf_sdk.
  intros Hf. specialize (Hseq Hf).
  by rewrite (sdk_not_in_flight _ _ (not_busy_not_in_flight _ Hseq)).
Qed.

(** The RenVM leg moves on while in flight: it stays in flight, or it
    settles and the suspended invocation submits the out leg. *)
Lemma two_leg_inv_sdk_renVM ev st :
  in_flight (transaction_renVM st) = true ->
  two_leg_inv st -> two_leg_inv (onSdk LegRenVM ev st).
Proof.
  intros Hf [Hwr Hwo Hw Hseq Hpair Hlock Hin].
  specialize (Hseq Hf). rewrite Hf in Hw.
  unfold onSdk; simpl. rewrite Hf, Hw; simpl.
  pose proof (wf_sdk ev _ Hwr) as Hwr'.
  destruct (in_flight (sdk ev (transaction_renVM st))) eqn:Hf'; simpl.
  - inv_fields; rewrite ?Hf'; auto; lia.
  - rewrite continueWithOut_free by done.
    inv_fields; rewrite ?Hf'; auto using wf_submitting; lia.
Qed.

Lemma two_leg_inv_sdk l ev st : two_leg_inv st -> two_leg_inv (onSdk l ev st).
Proof.
  intros Hinv.
  destruct (in_flight (leg_state l st)) eqn:Hf;
    [|by rewrite onSdk_not_in_flight].
  destruct l; simpl in Hf.
  - by rewrite (inv_in _ Hinv) in Hf.
  - by apply two_leg_inv_sdk_renVM.
  - by apply two_leg_inv_sdk_out.
Qed.

Lemma two_leg_inv_step p e st :
  screen_valid p -> two_leg_inv st -> two_leg_inv (step screen_offered p e st).
Proof.
  intros Hp Hinv. destruct e as [h|l ev];
    [by apply two_leg_inv_click | by apply two_leg_inv_sdk].
Qed.

Lemma two_leg_inv_run tr st :
  Forall (fun pe => screen_valid pe.1) tr -> two_leg_inv st ->
  two_leg_inv (run screen_offered tr st).
Proof.
  intros Hv Hinv. induction tr as [|[p e] tr IH] using rev_ind; [done|].
  apply Forall_app in Hv as [Hv Hp%Forall_inv]. rewrite run_snoc.
  by apply two_leg_inv_step; [|apply IH].
Qed.

Lemma two_leg_invariant st :
  reachable screen_offered screen_valid st -> two_leg_inv st.
Proof.
  apply invariant_reachable; [apply two_leg_inv_initial|].
  intros p e st' Hp Hinv. by apply two_leg_inv_step.
Qed.

(** The two legs are never in flight together. *)
Lemma two_leg_exclusive st :
  two_leg_inv st ->
  in_flight (transaction_renVM st) && in_flight (transaction_out st) = false.
Proof.
  intros Hinv. destruct (in_flight (transaction_renVM st)) eqn:Hf; [|done].
  by rewrite (not_busy_not_in_flight _ (inv_sequenced _ Hinv Hf)).
Qed.

(** A rejection of the RenVM leg settles it like a completion does: the
    suspended invocation goes on and submits the out leg. *)
Lemma two_leg_rejected st e :
  two_leg_inv st -> in_flight (transaction_renVM st) = true ->
  onSdk LegRenVM (Rejected e) st
  = mkPage (gateway_in st) (mkSubmission Errored (Some e))
      (mkSubmission Submitting None) 0 (calls st ++ [LegOut]).
Proof.
  intros Hinv Hf. pose proof (inv_sequenced _ Hinv Hf) as Ho.
  pose proof (inv_waiters _ Hinv) as Hw. rewrite Hf in Hw.
  unfold onSdk. cbn [leg_state].
  rewrite (sdk_rejected_in_flight _ _ Hf), Hf; simpl. rewrite Hw; simpl.
  by rewrite continueWithOut_free.
Qed.

(** Once the RenVM leg is done, no step submits anything. *)
Lemma step_after_renVM_done p e st :
  screen_valid p -> phase (transaction_renVM st) = Done ->
  calls (step screen_offered p e st) = calls st
  /\ phase (transaction_renVM (step screen_offered p e st)) = Done.
Proof.
  intros Hp Hd.
  assert (busy (transaction_renVM st) = true) as Hb by (unfold busy; by rewrite Hd).
  destruct e as [h|l ev]; simpl.
  - case_bool_decide as Hoff; [|done].
    apply (screen_sound _ _ _ Hp) in Hoff.
    destruct h as [l|[]| |]; simpl in *; try done.
    + by rewrite Hd in Hoff.
    + destruct Hoff as [Hoff _]. by rewrite Hb in Hoff.
  - destruct l; [done| |done].
    by rewrite onSdk_not_in_flight by (simpl; unfold in_flight; by rewrite Hd).
Qed.

Lemma run_after_renVM_done tr st :
  Forall (fun pe => screen_valid pe.1) tr -> phase (transaction_renVM st) = Done ->
  calls (run screen_offered tr st) = calls st
  /\ phase (transaction_renVM (run screen_offered tr st)) = Done.
Proof.
  induction tr as [|[p e] tr IH] using rev_ind; intros Hv Hd; [done|].
  apply Forall_app in Hv as [Hv Hpe]. inversion_clear Hpe as [|? ? Hp _].
  destruct (IH Hv Hd) as [Hc Hd']. rewrite run_snoc.
  destruct (step_after_renVM_done p e _ Hp Hd') as [-> ->]. done.
Qed.

End two_legs.
