(* ===== verification/H2HScreens.v ===== *)
(** * H2HScreens: the three screens of MintH2HStatuses.tsx, mounted

    Each screen of the source is instantiated as a page of [H2HPage]: its
    props as a record, the handlers its rendered tree offers, and the
    theorems on what a user and the SDK can drive it to.

    A screen creates its handlers itself, so the [Fees] node it receives
    from its parent cannot carry them: props are [valid] when [Fees] offers
    no handler.  [lock_inv] is the invariant of the lock screen, which
    submits one leg; the invariant of the two progress screens is that of
    [H2HPage]. *)

From Stdlib Require Import ZArith Lia.
From stdpp Require Import base tactics option list numbers strings.
From S2P Require Import Prelude View Submitter Config MintH2H H2HPage.

#[local] Open Scope Z_scope.

(** The handlers a render offers: none when it failed. *)
Definition offered_of (r : result RenderError Node) : list Handler :=
  match r with Ok v => clickable v | Err _ => [] end.

(** ** Props *)

Record LockProps := mkLockProps {
  l_gateway : Gateway;
  l_Fees : option Node;
  l_outputAmount : option string;
  l_outputAmountUsd : option string;
  l_balance : option string         (* useEthereumChainAssetBalance *)
}.

Record LockProgressProps := mkLockProgressProps {
  lp_gateway : Gateway;
  lp_Fees : option Node;
  lp_outputAmount : option string;
  lp_outputAmountUsd : option string;
  lp_lockStatus : option ChainTransactionStatus.status;
  lp_lockConfirmations : option Z;
  lp_lockTargetConfirmations : option Z;
  lp_connected : bool               (* useWallet(to).connected *)
}.

Record MintProgressProps := mkMintProgressProps {
  mp_gateway : Gateway;
  mp_renVMStatus : option ChainTransactionStatus.status;
  mp_mintStatus : option ChainTransactionStatus.status;
  mp_mintConfirmations : option Z;
  mp_mintTargetConfirmations : option Z;
  mp_outputAmount : option string;
  mp_outputAmountUsd : option string;
  mp_Fees : option Node
}.

Definition inert (Fees : option Node) : Prop := clickable (nullable id Fees) = [].

(** What the lock screen, which submits the lock leg alone, keeps true. *)
Record lock_inv (st : PageState) : Prop := mk_lock_inv {
  linv_wf : wf (gateway_in st);
  linv_renVM : transaction_renVM st = wrap;
  linv_out : transaction_out st = wrap;
  linv_waiters : waiters st = 0%nat;
  (* only the lock leg is ever submitted *)
  linv_calls : calls st = replicate (length (calls st)) LegIn;
  (* a leg that left [Idle] was submitted *)
  linv_attempt : phase (gateway_in st) <> Idle -> calls st <> []
}.

Section screens.
Context `{I18n} `{Registry}.

Definition lock_view (p : LockProps) (st : PageState) : result RenderError Node :=
  MintH2HLockTransactionStatus (l_gateway p) (l_Fees p) (l_outputAmount p)
    (l_outputAmountUsd p) (l_balance p) (gateway_in st).

Definition lockProgress_view (p : LockProgressProps) (st : PageState)
  : result RenderError Node :=
  MintH2HLockTransactionProgressStatus (lp_gateway p) (lp_Fees p)
    (lp_outputAmount p) (lp_outputAmountUsd p)
    (lp_lockConfirmations p) (lp_lockTargetConfirmations p) (lp_lockStatus p)
    (lp_connected p) (transaction_renVM st) (transaction_out st).

Definition mintProgress_view (p : MintProgressProps) (st : PageState)
  : result RenderError Node :=
  MintH2HMintTransactionProgressStatus (mp_gateway p)
    (mp_renVMStatus p) (mp_mintStatus p)
    (mp_mintConfirmations p) (mp_mintTargetConfirmations p)
    (mp_outputAmount p) (mp_outputAmountUsd p) (mp_Fees p)
    (transaction_renVM st) (transaction_out st).

Definition lock_offered p st := offered_of (lock_view p st).
Definition lockProgress_offered p st := offered_of (lockProgress_view p st).
Definition mintProgress_offered p st := offered_of (mintProgress_view p st).

Definition lock_valid (p : LockProps) : Prop := inert (l_Fees p).
Definition lockProgress_valid (p : LockProgressProps) : Prop := inert (lp_Fees p).
Definition mintProgress_valid (p : MintProgressProps) : Prop := inert (mp_Fees p).

End screens.

(** ** What each screen offers *)

#[local] Opaque receivingInfo networkSwitchingNote errorDialog submitBothActions.

Section offered_lemmas.
Context `{I18n} `{Registry}.

(** Open a successful render: the configurations exist and the tree is
    the one the component builds. *)
Ltac open_render Hv :=
  repeat match type of Hv with
  | context [getAssetConfig ?a] => destruct (getAssetConfig a); simpl in Hv
  | context [getChainConfig ?c] => destruct (getChainConfig c); simpl in Hv
  end; simplify_result.

Lemma lock_clickable gateway Fees oa ousd balance s v :
  MintH2HLockTransactionStatus gateway Fees oa ousd balance s = Ok v ->
  clickable v
  = clickable (nullable id Fees)
    ++ (if busy s then [] else [OnSubmit LegIn])
    ++ dialogHandlers (useChainTransactionSubmitter LegIn s).
Proof.
  unfold MintH2HLockTransactionStatus. simpl. intros Hv. open_render Hv.
  simpl. rewrite clickable_receivingInfo, (clickable_networkSwitchingNote (H:=H)),
    clickable_errorDialog.
  unfold busy. by destruct balance, (phase s); simpl; rewrite ?app_nil_r.
Qed.

Lemma lockProgress_clickable gateway Fees oa ousd lc ltc lockStatus connected
    s_renVM s_out v :
  MintH2HLockTransactionProgressStatus gateway Fees oa ousd lc ltc lockStatus
    connected s_renVM s_out = Ok v ->
  clickable v
  = clickable (nullable id Fees)
    ++ clickable (submitBothActions (useChainTransactionSubmitter LegOut s_out)
         (useChainTransactionSubmitter LegRenVM s_renVM) lockStatus).
Proof.
  unfold MintH2HLockTransactionProgressStatus. simpl. intros Hv. open_render Hv.
  simpl. rewrite clickable_receivingInfo, (clickable_networkSwitchingNote (H:=H)).
  by destruct lc, ltc; simpl; rewrite ?app_nil_r.
Qed.

Lemma mintProgress_clickable gateway renVMStatus mintStatus mc mtc oa ousd Fees
    s_renVM s_out v :
  MintH2HMintTransactionProgressStatus gateway renVMStatus mintStatus mc mtc
    oa ousd Fees s_renVM s_out = Ok v ->
  clickable v
  = clickable (nullable id Fees)
    ++ clickable (submitBothActions (useChainTransactionSubmitter LegOut s_out)
         (useChainTransactionSubmitter LegRenVM s_renVM) mintStatus).
Proof.
  unfold MintH2HMintTransactionProgressStatus. simpl. intros Hv. open_render Hv.
  simpl. rewrite clickable_receivingInfo, (clickable_networkSwitchingNote (H:=H)).
  by case_bool_decide; destruct mc, mtc; simpl; rewrite ?app_nil_r.
Qed.

Lemma dialogHandlers_hook l s h :
  h ∈ dialogHandlers (useChainTransactionSubmitter l s) ->
  h = OnReset l /\ phase s = Errored.
Proof.
  unfold dialogHandlers; simpl.
  destruct (phase s); try (by intros ?%not_elem_of_nil).
  destruct (lastError s); [|by intros ?%not_elem_of_nil].
  by intros ->%list_elem_of_singleton.
Qed.

(** What the button and the dialogs of a two-leg screen offer. *)
Lemma submitBothActions_offers s_out s_renVM legStatus h st :
  transaction_out st = s_out -> transaction_renVM st = s_renVM ->
  h ∈ clickable (submitBothActions (useChainTransactionSubmitter LegOut s_out)
        (useChainTransactionSubmitter LegRenVM s_renVM) legStatus) ->
  offers_both h st.
Proof.
  intros <- <-. rewrite clickable_submitBothActions, bothDisabled_hooks.
  rewrite !elem_of_app. intros [Hb|[Hd|Hd]].
  - destruct (busy (transaction_out st)) eqn:Ho,
      (busy (transaction_renVM st)) eqn:Hr; simpl in Hb;
      try (by apply not_elem_of_nil in Hb).
    case_bool_decide; simpl in Hb; [by apply not_elem_of_nil in Hb|].
    apply list_elem_of_singleton in Hb as ->. by split.
  - by apply dialogHandlers_hook in Hd as [-> ?].
  - by apply dialogHandlers_hook in Hd as [-> ?].
Qed.

Lemma offered_of_Ok r h :
  h ∈ offered_of r -> exists v, r = Ok v /\ h ∈ clickable v.
Proof. destruct r; simpl; [eauto | by intros ?%not_elem_of_nil]. Qed.

Lemma lockProgress_sound p st h :
  lockProgress_valid p -> h ∈ lockProgress_offered p st -> offers_both h st.
Proof.
  intros Hp (v & Hv & Hh)%offered_of_Ok.
  rewrite (lockProgress_clickable _ _ _ _ _ _ _ _ _ _ _ Hv), Hp in Hh.
  by eapply submitBothActions_offers.
Qed.

Lemma mintProgress_sound p st h :
  mintProgress_valid p -> h ∈ mintProgress_offered p st -> offers_both h st.
Proof.
  intros Hp (v & Hv & Hh)%offered_of_Ok.
  rewrite (mintProgress_clickable _ _ _ _ _ _ _ _ _ _ _ Hv), Hp in Hh.
  by eapply submitBothActions_offers.
Qed.

(** The two screens of the source that submit both legs, as instances
    of the interface of [H2HPage]. *)
#[export] Instance lockProgress_screen : TwoLegScreen LockProgressProps := {|
  screen_offered := lockProgress_offered;
  screen_valid := lockProgress_valid;
  screen_sound := lockProgress_sound
|}.

#[export] Instance mintProgress_screen : TwoLegScreen MintProgressProps := {|
  screen_offered := mintProgress_offered;
  screen_valid := mintProgress_valid;
  screen_sound := mintProgress_sound
|}.

End offered_lemmas.

(** ** When a screen renders *)

Section render_lemmas.
Context `{I18n} `{Registry}.
Implicit Types (st : PageState) (e : RenderError).

Lemma lock_view_Ok p st :
  is_Ok (lock_view p st) = true
  <-> is_Some (assetConfigs (params_asset (l_gateway p))).
Proof.
  unfold lock_view, MintH2HLockTransactionStatus, getAssetConfig; simpl.
  destruct (assetConfigs _); simpl; split; try done; by intros [? ?].
Qed.

Lemma lock_view_Err p st e :
  lock_view p st = Err e
  <-> assetConfigs (params_asset (l_gateway p)) = None
      /\ e = UnknownAsset (params_asset (l_gateway p)).
Proof.
  unfold lock_view, MintH2HLockTransactionStatus, getAssetConfig; simpl.
  destruct (assetConfigs _); simpl; naive_solver.
Qed.

Lemma lock_offered_eq p st :
  lock_valid p -> is_Some (assetConfigs (params_asset (l_gateway p))) ->
  lock_offered p st
  = (if busy (gateway_in st) then [] else [OnSubmit LegIn])
    ++ dialogHandlers (useChainTransactionSubmitter LegIn (gateway_in st)).
Proof.
  intros Hp Hok%(lock_view_Ok p st). unfold lock_offered.
  destruct (lock_view p st) as [v|] eqn:Hv; [|done]. simpl.
  by rewrite (lock_clickable _ _ _ _ _ _ _ Hv), Hp.
Qed.

Lemma lock_offered_sound p st h :
  lock_valid p -> h ∈ lock_offered p st ->
  (h = OnSubmit LegIn /\ busy (gateway_in st) = false)
  \/ (h = OnReset LegIn /\ phase (gateway_in st) = Errored).
Proof.
  intros Hp (v & Hv & Hh)%offered_of_Ok.
  rewrite (lock_clickable _ _ _ _ _ _ _ Hv), Hp in Hh. simpl in Hh.
  apply elem_of_app in Hh as [Hb|Hd].
  - destruct (busy (gateway_in st)); [by apply not_elem_of_nil in Hb|].
    apply list_elem_of_singleton in Hb. by left.
  - right. by apply dialogHandlers_hook.
Qed.

Lemma lock_inv_initial : lock_inv initial.
Proof. split; simpl; auto using wf_wrap. Qed.

Lemma lock_inv_step p (e : Event) st :
  lock_valid p -> lock_inv st -> lock_inv (step lock_offered p e st).
Proof.
  intros Hp [Hwf Hr Ho Hw Hc Ha]. destruct e as [h|l ev]; simpl.
  - case_bool_decide as Hoff; [|done].
    apply (lock_offered_sound _ _ _ Hp) in Hoff as [[-> Hb]|[-> He]]; simpl.
    + rewrite invokeSubmit_free by done. split; simpl; auto using wf_submitting.
      * by apply replicate_snoc_length.
      * intros _. by destruct (calls st).
    + unfold invokeReset; simpl. rewrite (reset_errored _ He).
      split; simpl; auto using wf_wrap; congruence.
  - destruct l.
    + unfold onSdk; simpl. split; simpl; auto using wf_sdk.
      intros Hne. apply Ha. intros Hi. apply Hne.
      by rewrite sdk_not_in_flight by (unfold in_flight; by rewrite Hi).
    + rewrite onSdk_not_in_flight by (simpl; by rewrite Hr). done.
    + rewrite onSdk_not_in_flight by (simpl; by rewrite Ho). done.
Qed.

Lemma lock_invariant st : reachable lock_offered lock_valid st -> lock_inv st.
Proof.
  apply invariant_reachable; [apply lock_inv_initial|].
  intros p e st' Hp Hinv. by apply lock_inv_step.
Qed.

(** The progress screens look the chain up before the asset. *)
Lemma lockProgress_view_Err p st e :
  lockProgress_view p st = Err e
  <-> (chainConfigs (params_from_chain (lp_gateway p)) = None
       /\ e = UnknownChain (params_from_chain (lp_gateway p)))
      \/ (is_Some (chainConfigs (params_from_chain (lp_gateway p)))
          /\ assetConfigs (params_asset (lp_gateway p)) = None
          /\ e = UnknownAsset (params_asset (lp_gateway p))).
Proof.
  unfold lockProgress_view, MintH2HLockTransactionProgressStatus,
    getAssetConfig, getChainConfig; simpl.
  destruct (chainConfigs _), (assetConfigs _); simpl;
    split; try naive_solver; intros [[? ?]|([? ?] & ? & ?)]; naive_solver.
Qed.

Lemma lockProgress_offered_eq p st :
  lockProgress_valid p -> is_Ok (lockProgress_view p st) = true ->
  lockProgress_offered p st
  = (if busy (transaction_out st) || busy (transaction_renVM st)
        || bool_decide (lp_lockStatus p = Some ChainTransactionStatus.Confirming)
     then [] else [OnSubmitBoth])
    ++ dialogHandlers (useChainTransactionSubmitter LegRenVM (transaction_renVM st))
    ++ dialogHandlers (useChainTransactionSubmitter LegOut (transaction_out st)).
Proof.
  intros Hp Hok. unfold lockProgress_offered.
  destruct (lockProgress_view p st) as [v|] eqn:Hv; [|done]. simpl.
  rewrite (lockProgress_clickable _ _ _ _ _ _ _ _ _ _ _ Hv), Hp.
  by rewrite clickable_submitBothActions, bothDisabled_hooks.
Qed.

Lemma dialogHandlers_errored l s :
  wf s -> phase s = Errored ->
  OnReset l ∈ dialogHandlers (useChainTransactionSubmitter l s).
Proof.
  intros Hwf He. unfold dialogHandlers; simpl. rewrite He.
  destruct (proj1 Hwf He) as [e ->]. by left.
Qed.

(** What a two-leg screen offers when it renders and the status of its
    leg does not disable the button: all that [offers_both] allows. *)
Lemma submitBothActions_offers_all legStatus h st :
  legStatus <> Some ChainTransactionStatus.Confirming ->
  two_leg_inv st -> offers_both h st ->
  h ∈ (if busy (transaction_out st) || busy (transaction_renVM st)
          || bool_decide (legStatus = Some ChainTransactionStatus.Confirming)
       then [] else [OnSubmitBoth])
      ++ dialogHandlers (useChainTransactionSubmitter LegRenVM (transaction_renVM st))
      ++ dialogHandlers (useChainTransactionSubmitter LegOut (transaction_out st)).
Proof.
  intros Hc Hinv Hoff. rewrite !elem_of_app.
  destruct h as [l|[]| |]; simpl in Hoff; try done.
  - right; left. by apply dialogHandlers_errored; [apply (inv_wf_renVM _ Hinv)|].
  - right; right. by apply dialogHandlers_errored; [apply (inv_wf_out _ Hinv)|].
  - destruct Hoff as [-> ->]. rewrite bool_decide_eq_false_2 by done. left. by left.
Qed.

(** Whether the screen renders does not depend on its submitters. *)
Lemma lockProgress_view_Ok p st st' :
  is_Ok (lockProgress_view p st) = is_Ok (lockProgress_view p st').
Proof.
  unfold lockProgress_view, MintH2HLockTransactionProgressStatus; simpl.
  by destruct (getChainConfig _), (getAssetConfig _).
Qed.

Lemma lockProgress_offers_all p h st :
  lockProgress_valid p -> is_Ok (lockProgress_view p initial) = true ->
  lp_lockStatus p <> Some ChainTransactionStatus.Confirming ->
  two_leg_inv st -> offers_both h st -> h ∈ lockProgress_offered p st.
Proof.
  intros Hp Hok Hc Hinv Hoff.
  rewrite lockProgress_offered_eq by (by rewrite ?(lockProgress_view_Ok p st initial)).
  by apply submitBothActions_offers_all.
Qed.

(** A freshly mounted screen offers the button, unless the lock is
    confirming. *)
Lemma lockProgress_offered_initial p :
  lockProgress_valid p -> is_Ok (lockProgress_view p initial) = true ->
  lp_lockStatus p <> Some ChainTransactionStatus.Confirming ->
  lockProgress_offered p initial = [OnSubmitBoth].
Proof.
  intros Hp Hok Hc. rewrite lockProgress_offered_eq by done; simpl.
  by rewrite bool_decide_eq_false_2.
Qed.

Lemma mintProgress_view_Err p st e :
  mintProgress_view p st = Err e
  <-> (chainConfigs (params_to_chain (mp_gateway p)) = None
       /\ e = UnknownChain (params_to_chain (mp_gateway p)))
      \/ (is_Some (chainConfigs (params_to_chain (mp_gateway p)))
          /\ assetConfigs (params_asset (mp_gateway p)) = None
          /\ e = UnknownAsset (params_asset (mp_gateway p))).
Proof.
  unfold mintProgress_view, MintH2HMintTransactionProgressStatus,
    getAssetConfig, getChainConfig; simpl.
  destruct (chainConfigs _), (assetConfigs _); simpl;
    split; try naive_solver; intros [[? ?]|([? ?] & ? & ?)]; naive_solver.
Qed.

Lemma mintProgress_offered_eq p st :
  mintProgress_valid p -> is_Ok (mintProgress_view p st) = true ->
  mintProgress_offered p st
  = (if busy (transaction_out st) || busy (transaction_renVM st)
        || bool_decide (mp_mintStatus p = Some ChainTransactionStatus.Confirming)
     then [] else [OnSubmitBoth])
    ++ dialogHandlers (useChainTransactionSubmitter LegRenVM (transaction_renVM st))
    ++ dialogHandlers (useChainTransactionSubmitter LegOut (transaction_out st)).
Proof.
  intros Hp Hok. unfold mintProgress_offered.
  destruct (mintProgress_view p st) as [v|] eqn:Hv; [|done]. simpl.
  rewrite (mintProgress_clickable _ _ _ _ _ _ _ _ _ _ _ Hv), Hp.
  by rewrite clickable_submitBothActions, bothDisabled_hooks.
Qed.

Lemma mintProgress_view_Ok p st st' :
  is_Ok (mintProgress_view p st) = is_Ok (mintProgress_view p st').
Proof.
  unfold mintProgress_view, MintH2HMintTransactionProgressStatus; simpl.
  by destruct (getChainConfig _), (getAssetConfig _).
Qed.

Lemma mintProgress_offers_all p h st :
  mintProgress_valid p -> is_Ok (mintProgress_view p initial) = true ->
  mp_mintStatus p <> Some ChainTransactionStatus.Confirming ->
  two_leg_inv st -> offers_both h st -> h ∈ mintProgress_offered p st.
Proof.
  intros Hp Hok Hc Hinv Hoff.
  rewrite mintProgress_offered_eq by (by rewrite ?(mintProgress_view_Ok p st initial)).
  by apply submitBothActions_offers_all.
Qed.

(** So does the mint progress screen, whatever was submitted before it
    was mounted. *)
Lemma mintProgress_offered_initial p :
  mintProgress_valid p -> is_Ok (mintProgress_view p initial) = true ->
  mp_mintStatus p <> Some ChainTransactionStatus.Confirming ->
  mintProgress_offered p initial = [OnSubmitBoth].
Proof.
  intros Hp Hok Hc. rewrite mintProgress_offered_eq by done; simpl.
  by rewrite bool_decide_eq_false_2.
Qed.

End render_lemmas.
