(* ===== verification/TreeTyping.v ===== *)
(** * TreeTyping: the screens render well-formed trees

    [View.well_formed] says what React accepts of an element tree: nothing
    but renderable values in child position, functions as event listeners,
    each prop named once.  Every tree that a component of the three source
    files returns is well formed, on every branch of its conditional
    rendering ([a && b], [c ? a : b], a value that may be null), provided
    the node it receives as a prop ([Fees]) is.

    The lemmas on the blocks that the components share come first; the
    tactic [wf_tree] splits the tree of a component into its blocks. *)

From Stdlib Require Import ZArith Lia.
From stdpp Require Import base tactics option list numbers strings.
From S2P Require Import Prelude View AppRoutes Amount Submitter Config.
From S2P Require Import MintStatuses DepositProperties MintH2H H2HPage H2HScreens.

Create HintDb well_formed discriminated.

(** A fees block as the parent of a screen passes it, and props that carry
    it, for the witnesses. *)
Definition sampleFees : Node :=
  El Box [("mb", Num 2%Z)] [
    El LabelWithValue [("label", Str "RenVM fee"); ("value", Str "0.15%")] []
  ].

Definition sampleProgressWithFees : LockProgressProps :=
  mkLockProgressProps Sample.gateway (Some sampleFees) (Some "0.4995") None
    (Some ChainTransactionStatus.Done) (Some 6%Z) (Some 6%Z) false.

(** Split the well-formedness of a tree into that of the blocks the
    reduction leaves, and look those up. *)
Ltac wf_tree :=
  simpl; repeat (apply andb_true_intro; split); try reflexivity;
  auto with well_formed.

(** Open a successful render. *)
Ltac open_tree Hv :=
  simpl in Hv;
  repeat match type of Hv with
  | context [getAssetConfig ?a] => destruct (getAssetConfig a); simpl in Hv
  | context [getChainConfig ?c] => destruct (getChainConfig c); simpl in Hv
  | context [lockAmountFormatted ?a ?d] =>
      destruct (lockAmountFormatted a d) as [[?|]|]; simpl in Hv
  end; simplify_result.

Section values.

Lemma well_formed_undefinedForNull_Num x :
  well_formed (undefinedForNull Num x) = true.
Proof. by destruct x. Qed.

Lemma well_formed_nullable_Str x : well_formed (nullable Str x) = true.
Proof. by destruct x. Qed.

Lemma valid_child_renderable (n : Node) :
  valid_child n = true -> renderable n = true.
Proof. unfold valid_child. by intros [? ?]%andb_true_iff. Qed.

Lemma valid_child_well_formed (n : Node) :
  valid_child n = true -> well_formed n = true.
Proof. unfold valid_child. by intros [? ?]%andb_true_iff. Qed.

(** [a && b] in child position: a falsy [a] that is renderable is
    skipped or printed, never refused. *)
Lemma valid_child_js_and (a b : Node) :
  valid_child b = true -> (truthy a = false -> valid_child a = true) ->
  valid_child (js_and a b) = true.
Proof. unfold js_and. destruct (truthy a); auto. Qed.

End values.

#[export] Hint Resolve well_formed_undefinedForNull_Num well_formed_nullable_Str
  valid_child_renderable valid_child_well_formed : well_formed.

Section h2h_blocks.
Context `{I18n} `{Registry}.

Lemma valid_child_receivingInfo oa ousd renAsset RenIcon :
  valid_child (receivingInfo oa ousd renAsset RenIcon) = true.
Proof. by destruct oa, ousd. Qed.

Lemma valid_child_networkSwitchingNote : valid_child networkSwitchingNote = true.
Proof. reflexivity. Qed.

Lemma valid_child_errorDialog x : valid_child (errorDialog x) = true.
Proof.
  unfold errorDialog. apply valid_child_js_and.
  - by destruct (errorSubmitting x).
  - by destruct (errorSubmitting x).
Qed.

Hint Resolve valid_child_errorDialog : well_formed.

Lemma valid_child_submitBothActions out renVM legStatus :
  valid_child (submitBothActions out renVM legStatus) = true.
Proof. unfold submitBothActions, valid_child. wf_tree. Qed.

End h2h_blocks.

#[export] Hint Resolve valid_child_receivingInfo valid_child_networkSwitchingNote
  valid_child_errorDialog valid_child_submitBothActions : well_formed.

Section h2h_screens.
Context `{I18n} `{Registry}.
Implicit Types (Fees : option Node) (v : Node) (st : PageState).

Lemma lock_well_formed p st v :
  valid_child (nullable id (l_Fees p)) = true ->
  lock_view p st = Ok v -> well_formed v = true.
Proof.
  intros HFees Hv.
  unfold lock_view, MintH2HLockTransactionStatus in Hv. open_tree Hv.
  destruct (l_balance p), (l_outputAmountUsd p); wf_tree.
Qed.

Lemma lockProgress_well_formed p st v :
  valid_child (nullable id (lp_Fees p)) = true ->
  lockProgress_view p st = Ok v -> well_formed v = true.
Proof.
  intros HFees Hv.
  unfold lockProgress_view, MintH2HLockTransactionProgressStatus in Hv.
  open_tree Hv. destruct (lp_outputAmountUsd p); wf_tree.
Qed.

Lemma mintProgress_well_formed p st v :
  valid_child (nullable id (mp_Fees p)) = true ->
  mintProgress_view p st = Ok v -> well_formed v = true.
Proof.
  intros HFees Hv.
  unfold mintProgress_view, MintH2HMintTransactionProgressStatus in Hv.
  open_tree Hv. destruct (mp_outputAmountUsd p); case_bool_decide; wf_tree.
Qed.

End h2h_screens.

Section deposit_screens.
Context `{I18n} `{Registry} `{Theme} `{Clock}.

Lemma valid_child_transactionDetails c lockTxId lockTxUrl :
  valid_child (transactionDetails c lockTxId lockTxUrl) = true.
Proof. by destruct lockTxId, lockTxUrl. Qed.

Hint Resolve valid_child_transactionDetails : well_formed.

Lemma confirmation_well_formed p v :
  confirmation_view p = Ok v -> well_formed v = true.
Proof.
  unfold confirmation_view, MintDepositConfirmationStatus. intros Hv.
  open_tree Hv;
    destruct (c_lockConfirmations p), (c_lockTargetConfirmations p); wf_tree.
Qed.

Lemma accepted_well_formed p v :
  accepted_view p = Ok v -> well_formed v = true.
Proof.
  unfold accepted_view, MintDepositAcceptedStatus. intros Hv.
  open_tree Hv; wf_tree.
Qed.

End deposit_screens.

#[export] Hint Resolve valid_child_transactionDetails : well_formed.

Section app_tree.
Context `{Paths} `{RouterLibrary}.

Lemma App_well_formed : well_formed App = true.
Proof. reflexivity. Qed.

End app_tree.

Section typing_theorems.
Context `{I18n} `{Registry} `{Theme} `{Clock}.

(** C18: The three host-to-host screens render well-formed trees: whatever
    the props, the balance and the state of the submitters, a tree that a
    screen returns holds only renderable values in child position, a
    function in every event listener, and names no prop twice, provided
    the [Fees] node it is given is a well-formed child. *)
Theorem h2h_screens_well_formed st :
  (forall p v, valid_child (nullable id (l_Fees p)) = true ->
     lock_view p st = Ok v -> well_formed v = true)
  /\ (forall p v, valid_child (nullable id (lp_Fees p)) = true ->
        lockProgress_view p st = Ok v -> well_formed v = true)
  /\ (forall p v, valid_child (nullable id (mp_Fees p)) = true ->
        mintProgress_view p st = Ok v -> well_formed v = true).
Proof.
  split_and!; intros p v.
  - apply lock_well_formed.
  - apply lockProgress_well_formed.
  - apply mintProgress_well_formed.
Qed.

(** C30: The two deposit screens render well-formed trees on every branch:
    with or without confirmations, a formatted amount and a transaction
    link, and with the stubs of the accepted screen. *)
Theorem deposit_screens_well_formed :
  (forall p v, confirmation_view p = Ok v -> well_formed v = true)
  /\ (forall p v, accepted_view p = Ok v -> well_formed v = true).
Proof.
  split; intros p v; [apply confirmation_well_formed | apply accepted_well_formed].
Qed.

End typing_theorems.

#[local] Existing Instances Sample.i18n Sample.registry Sample.theme Sample.clock.

Lemma h2h_screens_well_formed_witness :
  valid_child (nullable id (lp_Fees sampleProgressWithFees)) = true
  /\ exists v, lockProgress_view sampleProgressWithFees initial = Ok v
       /\ well_formed v = true.
Proof.
  split; [reflexivity|]. eexists. split; [reflexivity|].
  by eapply (proj1 (proj2 (h2h_screens_well_formed initial))
               sampleProgressWithFees).
Defined.

Lemma deposit_screens_well_formed_witness :
  exists v, confirmation_view sampleConfirmation = Ok v /\ well_formed v = true.
Proof.
  eexists. split; [reflexivity|].
  by eapply (proj1 deposit_screens_well_formed sampleConfirmation).
Defined.
