(* ===== verification/H2HSpec.v ===== *)
(** * H2HSpec: the composite submission of two legs, abstractly

    What the specification promises of a screen that submits the RenVM leg
    and the out leg with one button (sections 4.1 and 5): the first leg is
    submitted, and the second one when the first has settled; a failed leg
    can be retried after a reset.  The machine keeps, for each leg, only
    what a user can tell apart ([LegView]) and the log of the external
    submissions.

    The specification asks for fail-fast sequencing: a failure of the first
    leg must keep the second from starting.  [Policy] makes that choice a
    parameter, so that the screens of the source can be compared with both
    readings: [FailFast] is the specification's, [Continue] submits the
    second leg whatever the outcome of the first.

    [cstep] is the step relation, [cnext] the function that computes it,
    [csteps] its runs and [crun] the function that computes them, so that
    both relations are decidable.  The invariants at the end are proved by
    induction on the runs; [H2HRefinement] transfers them to the screens. *)

From Stdlib Require Import Lia.
From stdpp Require Import base tactics option list numbers.
From S2P Require Import Prelude View.

(** What is visible of one leg. *)
Inductive LegView := NotStarted | InFlight | Succeeded | Failed.

#[export] Instance LegView_eq_dec : EqDecision LegView.
Proof. solve_decision. Defined.

Record Composite := mkComposite {
  c_first : LegView;       (* the RenVM leg *)
  c_second : LegView;      (* the out leg *)
  c_log : list Leg         (* the external submissions, oldest first *)
}.

#[export] Instance Composite_eq_dec : EqDecision Composite.
Proof. solve_decision. Defined.

Definition idle : Composite := mkComposite NotStarted NotStarted [].

(** A leg that can be submitted: not yet, or not successfully. *)
Definition startable (v : LegView) : bool :=
  match v with NotStarted | Failed => true | InFlight | Succeeded => false end.

Definition outcome (ok : bool) : LegView := if ok then Succeeded else Failed.

Inductive Label :=
| Begin                        (* the user submits both legs *)
| FirstSettles (ok : bool)     (* the first leg completed or failed *)
| SecondSettles (ok : bool)
| Retry (l : Leg).             (* the user dismisses the error of a leg *)

#[export] Instance Label_eq_dec : EqDecision Label.
Proof. solve_decision. Defined.

Inductive Policy := FailFast | Continue.

(** The composite after a failure of its first leg. *)
Definition on_failure (π : Policy) (c : Composite) : Composite :=
  match π with
  | FailFast => mkComposite Failed (c_second c) (c_log c)
  | Continue => mkComposite Failed InFlight (c_log c ++ [LegOut])
  end.

Inductive cstep (π : Policy) : Composite -> Label -> Composite -> Prop :=
| cstep_begin c :
    startable (c_first c) = true -> startable (c_second c) = true ->
    cstep π c Begin (mkComposite InFlight (c_second c) (c_log c ++ [LegRenVM]))
| cstep_first_ok c :
    c_first c = InFlight -> startable (c_second c) = true ->
    cstep π c (FirstSettles true)
      (mkComposite Succeeded InFlight (c_log c ++ [LegOut]))
| cstep_first_failed c :
    c_first c = InFlight -> startable (c_second c) = true ->
    cstep π c (FirstSettles false) (on_failure π c)
| cstep_second c ok :
    c_second c = InFlight ->
    cstep π c (SecondSettles ok) (mkComposite (c_first c) (outcome ok) (c_log c))
| cstep_retry_first c :
    c_first c = Failed ->
    cstep π c (Retry LegRenVM) (mkComposite NotStarted (c_second c) (c_log c))
| cstep_retry_second c :
    c_second c = Failed ->
    cstep π c (Retry LegOut) (mkComposite (c_first c) NotStarted (c_log c)).

(** The step as a function: [None] where the label is not enabled. *)
Definition cnext (π : Policy) (c : Composite) (a : Label) : option Composite :=
  match a with
  | Begin =>
      if startable (c_first c) && startable (c_second c)
      then Some (mkComposite InFlight (c_second c) (c_log c ++ [LegRenVM]))
      else None
  | FirstSettles ok =>
      if bool_decide (c_first c = InFlight) && startable (c_second c)
      then Some (if ok then mkComposite Succeeded InFlight (c_log c ++ [LegOut])
                 else on_failure π c)
      else None
  | SecondSettles ok =>
      if bool_decide (c_second c = InFlight)
      then Some (mkComposite (c_first c) (outcome ok) (c_log c))
      else None
  | Retry LegRenVM =>
      if bool_decide (c_first c = Failed)
      then Some (mkComposite NotStarted (c_second c) (c_log c))
      else None
  | Retry LegOut =>
      if bool_decide (c_second c = Failed)
      then Some (mkComposite (c_first c) NotStarted (c_log c))
      else None
  | Retry LegIn => None
  end.

(** A step that may be silent. *)
Definition cstep_opt (π : Policy) (c : Composite) (a : option Label)
    (c' : Composite) : Prop :=
  match a with Some l => cstep π c l c' | None => c' = c end.

(** Runs, with the labels in the order they happened. *)
Inductive csteps (π : Policy) (c0 : Composite) : list Label -> Composite -> Prop :=
| csteps_nil : csteps π c0 [] c0
| csteps_snoc ls c a c' :
    csteps π c0 ls c -> cstep π c a c' -> csteps π c0 (ls ++ [a]) c'.

(** Runs as a function: the state after the labels [ls], if each is
    enabled in turn. *)
Fixpoint crun (π : Policy) (c : Composite) (ls : list Label) : option Composite :=
  match ls with
  | [] => Some c
  | a :: ls' => c' ← cnext π c a; crun π c' ls'
  end.

Definition creachable (π : Policy) (c : Composite) : Prop :=
  exists ls, csteps π idle ls c.

(** The legs in the order [Continue] submits them: RenVM, out, RenVM, ... *)
Definition nth_leg (i : nat) : Leg := if Nat.even i then LegRenVM else LegOut.

Definition alternation (n : nat) : list Leg := nth_leg <$> seq 0 n.

(** How often the user has submitted both legs. *)
Definition begun (ls : list Label) : nat := count_occ Label_eq_dec ls Begin.

(** The submissions a state accounts for: those of its log, and the one of
    the second leg that is due when the first is in flight. *)
Definition committed (c : Composite) : nat :=
  length (c_log c) + (if bool_decide (c_first c = InFlight) then 1 else 0).

(** What every state of the [Continue] machine satisfies. *)
Record continue_inv (c : Composite) : Prop := mk_continue_inv {
  cinv_sequenced : c_first c = InFlight -> startable (c_second c) = true;
  cinv_log : c_log c = alternation (length (c_log c));
  cinv_parity : Nat.odd (length (c_log c)) = bool_decide (c_first c = InFlight)
}.

(** What every state of the [FailFast] machine satisfies: the second leg
    has started only after a success of the first. *)
Definition failfast_inv (c : Composite) : Prop :=
  c_second c <> NotStarted -> c_first c = Succeeded.

Section spec_lemmas.
Implicit Types (π : Policy) (c : Composite) (a : Label) (ls : list Label).

Lemma cstep_cnext π c a c' : cstep π c a c' <-> cnext π c a = Some c'.
Proof.
  split.
  - destruct 1 as [c Hf Hs|c Hf Hs|c Hf Hs|c ok Hs|c Hf|c Hs]; simpl;
      rewrite ?Hf, ?Hs; by simpl.
  - destruct a as [|[]|ok|[]]; simpl; intros Hn;
      repeat case_match; simplify_eq; do_bool;
      repeat match goal with
      | Hb : bool_decide _ = true |- _ => apply bool_decide_eq_true in Hb
      end; by constructor.
Qed.

Lemma cstep_deterministic π c a c1 c2 :
  cstep π c a c1 -> cstep π c a c2 -> c1 = c2.
Proof. rewrite !cstep_cnext. congruence. Qed.

#[export] Instance cstep_dec π c a c' : Decision (cstep π c a c').
Proof.
  refine (cast_if (decide (cnext π c a = Some c'))); by rewrite cstep_cnext.
Defined.

Lemma csteps_app π c0 ls1 ls2 c1 c2 :
  csteps π c0 ls1 c1 -> csteps π c1 ls2 c2 -> csteps π c0 (ls1 ++ ls2) c2.
Proof.
  intros H1 H2. induction H2 as [|ls c a c' _ IH Hstep].
  - by rewrite app_nil_r.
  - rewrite app_assoc. by econstructor.
Qed.

Lemma csteps_opt π c0 ls c (oa : option Label) c' :
  csteps π c0 ls c -> cstep_opt π c oa c' ->
  csteps π c0 (ls ++ option_list oa) c'.
Proof.
  intros Hrun Hstep. destruct oa as [a|]; simpl in *.
  - by econstructor.
  - subst. by rewrite app_nil_r.
Qed.

Lemma csteps_cons π c a c1 ls c2 :
  cstep π c a c1 -> csteps π c1 ls c2 -> csteps π c (a :: ls) c2.
Proof.
  intros Hstep Hrun. apply (csteps_app _ _ [a] ls c1); [|done].
  apply (csteps_snoc _ _ [] c); [constructor | done].
Qed.

Lemma crun_snoc π c ls a :
  crun π c (ls ++ [a]) = crun π c ls ≫= fun c' => cnext π c' a.
Proof.
  revert c. induction ls as [|b ls IH]; intros c; simpl.
  - by destruct (cnext π c a).
  - destruct (cnext π c b); simpl; [apply IH | done].
Qed.

(** [crun] computes the runs of [cstep]. *)
Lemma csteps_crun π c ls c' : csteps π c ls c' <-> crun π c ls = Some c'.
Proof.
  split.
  - induction 1 as [|ls c1 a c2 _ IH Hstep]; [done|].
    rewrite crun_snoc, IH. by apply cstep_cnext.
  - revert c. induction ls as [|a ls IH]; intros c; simpl.
    + intros [= ->]. constructor.
    + destruct (cnext π c a) as [c1|] eqn:Hn; [|done]. simpl. intros Hrun.
      apply (csteps_cons _ _ _ c1); [by apply cstep_cnext | by apply IH].
Qed.

#[export] Instance csteps_dec π c ls c' : Decision (csteps π c ls c').
Proof.
  refine (cast_if (decide (crun π c ls = Some c'))); by rewrite csteps_crun.
Defined.

(** An invariant of every step holds after every run. *)
Lemma csteps_invariant π (I : Composite -> Prop) c0 ls c :
  I c0 -> (forall c a c', I c -> cstep π c a c' -> I c') ->
  csteps π c0 ls c -> I c.
Proof. intros H0 Hstep. induction 1; eauto. Qed.

(** The two policies differ only where the first leg fails. *)
Lemma cstep_policy π π' c a c' :
  a <> FirstSettles false -> cstep π c a c' -> cstep π' c a c'.
Proof. intros Ha. destruct 1; try done; by constructor. Qed.

Lemma csteps_policy π π' c0 ls c :
  FirstSettles false ∉ ls -> csteps π c0 ls c -> csteps π' c0 ls c.
Proof.
  intros Hls. induction 1 as [|ls c a c' _ IH Hstep]; [constructor|].
  apply not_elem_of_app in Hls as [Hls Ha].
  econstructor; [by apply IH|].
  apply (cstep_policy π); [|done]. intros ->. apply Ha, list_elem_of_here.
Qed.

Lemma alternation_S n : alternation (S n) = alternation n ++ [nth_leg n].
Proof. unfold alternation. by rewrite seq_S, fmap_app. Qed.

Lemma length_alternation n : length (alternation n) = n.
Proof. unfold alternation. by rewrite length_fmap, length_seq. Qed.

Lemma alternation_snoc l x :
  l = alternation (length l) -> x = nth_leg (length l) ->
  l ++ [x] = alternation (length (l ++ [x])).
Proof.
  intros Hl ->. rewrite length_app, Nat.add_1_r, alternation_S. by rewrite <- Hl.
Qed.

Lemma alternation_lookup n i :
  (i < n)%nat -> alternation n !! i = Some (nth_leg i).
Proof.
  intros Hi. unfold alternation. rewrite list_lookup_fmap, lookup_seq_lt by done.
  done.
Qed.

Lemma continue_inv_idle : continue_inv idle.
Proof. by split. Qed.

Lemma odd_InFlight c :
  Nat.odd (length (c_log c)) = bool_decide (c_first c = InFlight) ->
  c_first c = InFlight -> nth_leg (length (c_log c)) = LegOut.
Proof.
  intros Hp Hf. rewrite bool_decide_eq_true_2 in Hp by done.
  unfold nth_leg. by rewrite <- Nat.negb_odd, Hp.
Qed.

Lemma even_startable c :
  Nat.odd (length (c_log c)) = bool_decide (c_first c = InFlight) ->
  startable (c_first c) = true -> nth_leg (length (c_log c)) = LegRenVM.
Proof.
  intros Hp Hf.
  rewrite bool_decide_eq_false_2 in Hp by (by intros Hi; rewrite Hi in Hf).
  unfold nth_leg. by rewrite <- Nat.negb_odd, Hp.
Qed.

Lemma odd_snoc {A} (l : list A) (x : A) :
  Nat.odd (length (l ++ [x])) = negb (Nat.odd (length l)).
Proof. by rewrite length_app, Nat.add_1_r, Nat.odd_succ, <- Nat.negb_odd. Qed.

Lemma continue_inv_step c a c' :
  continue_inv c -> cstep Continue c a c' -> continue_inv c'.
Proof.
  intros [Hseq Hlog Hpar].
  destruct 1 as [c Hf Hs|c Hf Hs|c Hf Hs|c ok Hs|c Hf|c Hs]; split; simpl;
    try done; try (by rewrite Hpar, Hf);
    try (intros Hi; specialize (Hseq Hi); by rewrite Hs in Hseq);
    try (apply alternation_snoc; [done|]);
    try (rewrite odd_snoc, Hpar);
    auto using odd_InFlight, even_startable, eq_sym.
  - rewrite bool_decide_eq_false_2; [done|]. intros Hi. by rewrite Hi in Hf.
  - by rewrite bool_decide_eq_true_2.
  - by rewrite bool_decide_eq_true_2.
Qed.

Lemma continue_invariant ls c : csteps Continue idle ls c -> continue_inv c.
Proof.
  apply csteps_invariant; [apply continue_inv_idle|].
  intros ? ? ? ?. by apply continue_inv_step.
Qed.

Lemma failfast_inv_step c a c' :
  failfast_inv c -> cstep FailFast c a c' -> failfast_inv c'.
Proof.
  unfold failfast_inv. intros Hinv.
  destruct 1 as [c Hf Hs|c Hf Hs|c Hf Hs|c ok Hs|c Hf|c Hs]; simpl;
    try done; intros Hne.
  - rewrite Hinv in Hf by done. done.
  - rewrite Hinv in Hf by done. done.
  - apply Hinv. by rewrite Hs.
  - rewrite Hinv in Hf by done. done.
Qed.

Lemma failfast_invariant c : creachable FailFast c -> failfast_inv c.
Proof.
  intros [ls Hrun]. revert Hrun.
  apply csteps_invariant; [by intros Hne; destruct Hne|].
  intros ? ? ? ?. by apply failfast_inv_step.
Qed.

Lemma committed_step π c a c' :
  cstep π c a c' -> committed c' <= committed c + 2 * begun [a].
Proof.
  unfold committed, begun.
  destruct 1 as [c Hf Hs|c Hf Hs|c Hf Hs|c ok Hs|c Hf|c Hs]; simpl;
    rewrite ?length_app, ?Hf; simpl; try lia.
  destruct π; simpl; rewrite ?length_app; simpl; lia.
Qed.

(** Each submission of both legs accounts for at most two external
    submissions, under either policy. *)
Lemma committed_bounded π ls c :
  csteps π idle ls c -> committed c <= 2 * begun ls.
Proof.
  induction 1 as [|ls c a c' _ IH Hstep]; [done|].
  apply committed_step in Hstep. unfold begun in *.
  rewrite count_occ_app. lia.
Qed.

End spec_lemmas.
