(* ===== verification/H2HRefinement.v ===== *)
(** * H2HRefinement: the two-leg screens implement the composite submission

    [abs] maps the state of a mounted screen to a state of the abstract
    machine of [H2HSpec]: the phase of each submitter to what is visible of
    its leg, the calls to the log.  [observe] names the abstract step an
    event of the screen amounts to, if any: a click that the tree offers, an
    answer of the SDK that settles a leg in flight; an answer that only
    moves a leg from [Submitting] to [Waiting] is silent.

    The section [refinement] proves, against the interface [offers_both] of
    [H2HPage], that every step of a screen is a step of the [Continue]
    machine or silent, hence every run of the screen a run of the machine
    with the observed labels; and of the [FailFast] machine as long as the
    RenVM leg is not rejected.  The invariants of the machine then hold of
    the screen: its submissions alternate between the two legs. *)

From Stdlib Require Import ZArith Lia.
From stdpp Require Import base tactics option list numbers strings.
From S2P Require Import Prelude View Submitter Config.
From S2P Require Import MintH2H H2HPage H2HScreens H2HSpec.

(** What is visible of a submitter. *)
Definition legView (s : SubmissionState) : LegView :=
  match phase s with
  | Idle => NotStarted
  | Submitting | Waiting => InFlight
  | Done => Succeeded
  | Errored => Failed
  end.

Definition abs (st : PageState) : Composite :=
  mkComposite (legView (transaction_renVM st)) (legView (transaction_out st))
    (calls st).

(** Whether the answer [ev] settles the submission [s], and how. *)
Definition settles (ev : SdkEvent) (s : SubmissionState) : option bool :=
  if in_flight s && negb (in_flight (sdk ev s))
  then Some (bool_decide (phase (sdk ev s) = Done))
  else None.

Section observation.
Context {Props : Type}.
Variable offered : Props -> PageState -> list Handler.

Definition observe (p : Props) (e : Event) (st : PageState) : option Label :=
  match e with
  | Click h =>
      if bool_decide (h ∈ offered p st) then
        match h with
        | OnSubmitBoth => Some Begin
        | OnReset l => Some (Retry l)
        | OnSubmit _ | OnNoop => None
        end
      else None
  | Sdk LegRenVM ev => FirstSettles <$> settles ev (transaction_renVM st)
  | Sdk LegOut ev => SecondSettles <$> settles ev (transaction_out st)
  | Sdk LegIn _ => None
  end.

(** The labels of a run, in order. *)
Fixpoint observed (tr : list (Props * Event)) (st : PageState) : list Label :=
  match tr with
  | [] => []
  | (p, e) :: tr' =>
      option_list (observe p e st) ++ observed tr' (step offered p e st)
  end.

End observation.

(** The clicks of a run on the button that submits both legs. *)
Definition is_submitBoth (e : Event) : bool :=
  match e with Click OnSubmitBoth => true | _ => false end.

Fixpoint clicks {Props} (tr : list (Props * Event)) : nat :=
  match tr with
  | [] => 0
  | (_, e) :: tr' => (if is_submitBoth e then 1 else 0) + clicks tr'
  end.

(** A run in which the SDK rejects the RenVM leg while the out leg waits
    for it. *)
Definition rejectedRun {Props} (p : Props) (e : Error) : list (Props * Event) :=
  [(p, Click OnSubmitBoth); (p, Sdk LegRenVM (Rejected e))].

Section view_lemmas.
Implicit Types (s : SubmissionState) (ev : SdkEvent).

Lemma legView_in_flight s : legView s = InFlight <-> in_flight s = true.
Proof. unfold legView, in_flight. by destruct (phase s). Qed.

Lemma legView_Failed s : legView s = Failed <-> phase s = Errored.
Proof. unfold legView. by destruct (phase s). Qed.

Lemma startable_legView s : startable (legView s) = negb (busy s).
Proof. unfold legView, busy. by destruct (phase s). Qed.

Lemma legView_sdk_in_flight ev s :
  in_flight (sdk ev s) = true -> legView (sdk ev s) = legView s.
Proof. destruct ev, s as [[] ?]; by simpl. Qed.

Lemma legView_sdk_settled ev s :
  in_flight s = true -> in_flight (sdk ev s) = false ->
  legView (sdk ev s) = outcome (bool_decide (phase (sdk ev s) = Done)).
Proof. destruct ev, s as [[] ?]; by simpl. Qed.

Lemma settles_None ev s : in_flight s = false -> settles ev s = None.
Proof. unfold settles. by intros ->. Qed.

Lemma settles_rejected e s :
  in_flight s = true -> settles (Rejected e) s = Some false.
Proof. destruct s as [[] ?]; by simpl. Qed.

End view_lemmas.

Section refinement.
Context {Props : Type} {screen : TwoLegScreen Props}.

Implicit Types (p : Props) (st : PageState) (tr : list (Props * Event)).

Lemma observed_snoc tr p e st :
  observed screen_offered (tr ++ [(p, e)]) st
  = observed screen_offered tr st
    ++ option_list (observe screen_offered p e (run screen_offered tr st)).
Proof.
  revert st. induction tr as [|[p' e'] tr IH]; intros st; simpl.
  - by rewrite app_nil_r.
  - by rewrite IH, app_assoc.
Qed.

Lemma refines_click p h st :
  screen_valid p -> two_leg_inv st ->
  cstep_opt Continue (abs st) (observe screen_offered p (Click h) st)
    (abs (step screen_offered p (Click h) st)).
Proof.
  intros Hp Hinv. simpl. case_bool_decide as Hoff; [|done].
  apply (screen_sound _ _ _ Hp) in Hoff.
  destruct h as [l|[]| |]; simpl in Hoff; try done.
  - simpl. unfold invokeReset, abs; simpl. rewrite (reset_errored _ Hoff).
    by apply cstep_retry_first, legView_Failed.
  - simpl. unfold invokeReset, abs; simpl. rewrite (reset_errored _ Hoff).
    by apply cstep_retry_second, legView_Failed.
  - destruct Hoff as [Hr Ho]. simpl. rewrite (handleSubmitBoth_free _ Hr).
    apply (cstep_begin _ (abs st)); simpl; rewrite startable_legView;
      by rewrite ?Hr, ?Ho.
Qed.

Lemma refines_sdk_out ev st :
  two_leg_inv st ->
  cstep_opt Continue (abs st) (SecondSettles <$> settles ev (transaction_out st))
    (abs (onSdk LegOut ev st)).
Proof.
  intros Hinv. unfold onSdk, abs, settles; simpl.
  destruct (in_flight (transaction_out st)) eqn:Hf; simpl;
    [|by rewrite sdk_not_in_flight].
  destruct (in_flight (sdk ev (transaction_out st))) eqn:Hf'; simpl.
  - by rewrite legView_sdk_in_flight.
  - rewrite legView_sdk_settled by done.
    by apply (cstep_second _ (abs st)), legView_in_flight.
Qed.

Lemma refines_sdk_renVM ev st :
  two_leg_inv st ->
  cstep_opt Continue (abs st) (FirstSettles <$> settles ev (transaction_renVM st))
    (abs (onSdk LegRenVM ev st)).
Proof.
  intros Hinv. destruct (in_flight (transaction_renVM st)) eqn:Hf;
    [|by rewrite onSdk_not_in_flight, settles_None].
  pose proof (inv_sequenced _ Hinv Hf) as Ho.
  pose proof (inv_waiters _ Hinv) as Hw. rewrite Hf in Hw.
  unfold onSdk, settles; cbn [leg_state]. rewrite Hf; simpl.
  destruct (in_flight (sdk ev (transaction_renVM st))) eqn:Hf'; simpl.
  - unfold abs; simpl. by rewrite legView_sdk_in_flight.
  - rewrite Hw; simpl. rewrite continueWithOut_free by done.
    unfold abs; simpl. rewrite legView_sdk_settled by done.
    assert (c_first (abs st) = InFlight) as Hfirst by by apply legView_in_flight.
    assert (startable (c_second (abs st)) = true) as Hsecond
      by (simpl; by rewrite startable_legView, Ho).
    destruct (bool_decide _); simpl.
    + by apply (cstep_first_ok _ (abs st)).
    + by apply (cstep_first_failed Continue (abs st)).
Qed.

(** Every step of the screen is a step of the machine, or silent. *)
Lemma refines_step p e st :
  screen_valid p -> two_leg_inv st ->
  cstep_opt Continue (abs st) (observe screen_offered p e st)
    (abs (step screen_offered p e st)).
Proof.
  intros Hp Hinv. destruct e as [h|[] ev]; [by apply refines_click| | |].
  - unfold step, observe. rewrite onSdk_not_in_flight; [done|].
    simpl. by rewrite (inv_in _ Hinv).
  - by apply refines_sdk_renVM.
  - by apply refines_sdk_out.
Qed.

(** Every run of the screen is a run of the machine. *)
Lemma refines_run tr :
  Forall (fun pe => screen_valid pe.1) tr ->
  csteps Continue idle (observed screen_offered tr initial)
    (abs (run screen_offered tr initial)).
Proof.
  induction tr as [|[p e] tr IH] using rev_ind; intros Hv; [constructor|].
  apply Forall_app in Hv as [Hv Hpe]. inversion_clear Hpe as [|? ? Hp _].
  rewrite observed_snoc, run_snoc.
  eapply csteps_opt; [by apply IH|].
  apply refines_step; [done|].
  apply two_leg_invariant, run_reachable; done.
Qed.

(** Replaying the observed labels on the machine computes the abstraction
    of the state the screen is in. *)
Lemma refines_replay tr :
  Forall (fun pe => screen_valid pe.1) tr ->
  crun Continue idle (observed screen_offered tr initial)
  = Some (abs (run screen_offered tr initial)).
Proof. intros Hv. by apply csteps_crun, refines_run. Qed.

(** ... and of the fail-fast machine, while the RenVM leg is not
    rejected. *)
Lemma refines_run_failfast tr :
  Forall (fun pe => screen_valid pe.1) tr ->
  FirstSettles false ∉ observed screen_offered tr initial ->
  csteps FailFast idle (observed screen_offered tr initial)
    (abs (run screen_offered tr initial)).
Proof. intros Hv Hno. by apply (csteps_policy Continue), refines_run. Qed.

(** The submissions of a run alternate between the legs, the RenVM leg
    first. *)
Lemma calls_alternate tr :
  Forall (fun pe => screen_valid pe.1) tr ->
  calls (run screen_offered tr initial)
  = alternation (length (calls (run screen_offered tr initial))).
Proof.
  intros Hv. apply (cinv_log (abs (run screen_offered tr initial))).
  eapply continue_invariant, refines_run, Hv.
Qed.

Lemma begun_observe p e st :
  begun (option_list (observe screen_offered p e st))
  <= if is_submitBoth e then 1 else 0.
Proof.
  unfold begun. destruct e as [[| | |]|[] ev]; simpl;
    try case_bool_decide; try destruct (settles _ _); simpl; lia.
Qed.

Lemma begun_observed tr st : begun (observed screen_offered tr st) <= clicks tr.
Proof.
  revert st. induction tr as [|[p e] tr IH]; intros st; simpl; [done|].
  specialize (IH (step screen_offered p e st)). pose proof (begun_observe p e st).
  unfold begun in *. rewrite count_occ_app. lia.
Qed.

(** A run submits at most twice as often as its user clicked. *)
Lemma calls_bounded tr :
  Forall (fun pe => screen_valid pe.1) tr ->
  length (calls (run screen_offered tr initial)) <= 2 * clicks tr.
Proof.
  intros Hv. pose proof (committed_bounded _ _ _ (refines_run tr Hv)) as Hb.
  pose proof (begun_observed tr initial). unfold committed in Hb; simpl in Hb. lia.
Qed.

(** After [rejectedRun] the out leg is in flight beside a failed RenVM
    leg: no state of the fail-fast machine. *)
Lemma rejected_not_failfast p e :
  screen_valid p -> OnSubmitBoth ∈ screen_offered p initial ->
  abs (run screen_offered (rejectedRun p e) initial)
  = mkComposite Failed InFlight [LegRenVM; LegOut]
  /\ ~ creachable FailFast (abs (run screen_offered (rejectedRun p e) initial)).
Proof.
  intros Hp Hoff.
  assert (abs (run screen_offered (rejectedRun p e) initial)
          = mkComposite Failed InFlight [LegRenVM; LegOut]) as ->.
  { unfold run, rejectedRun; cbn [foldl fst snd]. unfold step at 2.
    by rewrite bool_decide_eq_true_2. }
  split; [done|]. intros Hreach%failfast_invariant.
  by specialize (Hreach ltac:(done)).
Qed.

End refinement.
