(* ===== verification/H2HProgress.v ===== *)
(** * H2HProgress: the answers of the SDK run out

    Between two clicks a mounted screen moves only on answers of the SDK.
    [pending] measures what the SDK may still answer: two answers for a leg
    that is being submitted (accepted, then completed), one for a leg that
    waits, and for the RenVM leg two more, those of the out leg that
    [handleSubmitBoth] submits when the RenVM leg settles.

    Every answer that changes the state decreases [pending]: the relation
    [answered] is well founded, so the screen comes to rest, and the
    number of answers that have an effect ([effective]) is bounded by the
    measure, by four on the screens that submit both legs. *)

From Stdlib Require Import ZArith Lia Wellfounded.
From stdpp Require Import base tactics option list numbers strings.
From S2P Require Import Prelude View Submitter Config MintH2H H2HPage.

#[export] Instance PageState_eq_dec : EqDecision PageState.
Proof. solve_decision. Defined.

(** The answers of the SDK a submission may still take, weighted:
    [a] while submitting, [b] while waiting. *)
Definition pending_leg (a b : nat) (s : SubmissionState) : nat :=
  match phase s with
  | Submitting => a
  | Waiting => b
  | Idle | Done | Errored => 0
  end.

#[global] Arguments pending_leg _ _ !_ /.

Definition pending (st : PageState) : nat :=
  pending_leg 2 1 (gateway_in st)
  + pending_leg 4 3 (transaction_renVM st)
  + pending_leg 2 1 (transaction_out st).

(** [st'] is what an answer of the SDK made of [st], and differs from it. *)
Definition answered (st' st : PageState) : Prop :=
  exists l ev, st' = onSdk l ev st /\ st' <> st.

(** The answers of a sequence that change the state. *)
Fixpoint effective (evs : list (Leg * SdkEvent)) (st : PageState) : nat :=
  match evs with
  | [] => 0
  | (l, ev) :: evs' =>
      let st' := onSdk l ev st in
      (if bool_decide (st' = st) then 0 else 1) + effective evs' st'
  end.

(** A screen at rest: no submission in flight, no invocation of
    [handleSubmitBoth] suspended. *)
Definition settled (st : PageState) : bool :=
  negb (in_flight (gateway_in st)) && negb (in_flight (transaction_renVM st))
  && negb (in_flight (transaction_out st)) && bool_decide (waiters st = 0).

Definition answers (evs : list (Leg * SdkEvent)) (st : PageState) : PageState :=
  foldl (fun st le => onSdk le.1 le.2 st) st evs.

(** The answers with which the SDK completes the submission [s] of leg
    [l]. *)
Definition finish (l : Leg) (s : SubmissionState) : list (Leg * SdkEvent) :=
  match phase s with
  | Submitting => [(l, Accepted); (l, Completed)]
  | Waiting => [(l, Completed)]
  | Idle | Done | Errored => []
  end.

(** The answers that complete all that is in flight, and the out leg that
    is started when the RenVM leg completes. *)
Definition drain (st : PageState) : list (Leg * SdkEvent) :=
  finish LegIn (gateway_in st)
  ++ finish LegOut (transaction_out st)
  ++ finish LegRenVM (transaction_renVM st)
  ++ (if in_flight (transaction_renVM st)
      then [(LegOut, Accepted); (LegOut, Completed)] else []).

Section measure_lemmas.
Implicit Types (st : PageState) (s : SubmissionState) (l : Leg) (ev : SdkEvent).

Lemma pending_leg_not_in_flight a b s :
  in_flight s = false -> pending_leg a b s = 0.
Proof. unfold in_flight, pending_leg. by destruct (phase s). Qed.

Lemma pending_leg_le a b s : b <= a -> pending_leg a b s <= a.
Proof. unfold pending_leg. destruct (phase s); lia. Qed.

(** An answer moves a submission in flight forward, or leaves it. *)
Lemma pending_leg_sdk a b ev s :
  0 < b < a -> sdk ev s = s \/ pending_leg a b (sdk ev s) < pending_leg a b s.
Proof.
  intros Hab. unfold pending_leg.
  destruct ev, s as [[] ?]; simpl; auto; right; lia.
Qed.

(** A submission that settles frees at least the weight of waiting. *)
Lemma pending_leg_settled a b ev s :
  b <= a -> in_flight s = true -> in_flight (sdk ev s) = false ->
  pending_leg a b (sdk ev s) = 0 /\ b <= pending_leg a b s.
Proof. unfold pending_leg. destruct ev, s as [[] ?]; simpl; try done; lia. Qed.

Lemma continueWithOut_idempotent st :
  continueWithOut (continueWithOut st) = continueWithOut st.
Proof.
  destruct (busy (transaction_out st)) eqn:Hb.
  - by rewrite !(continueWithOut_busy st Hb).
  - rewrite (continueWithOut_free st Hb). by rewrite continueWithOut_busy.
Qed.

Lemma iter_continueWithOut n st :
  Nat.iter n continueWithOut st = if n is O then st else continueWithOut st.
Proof.
  induction n as [|n IH]; [done|]. simpl. rewrite IH.
  destruct n; [done | apply continueWithOut_idempotent].
Qed.

(** Resuming [handleSubmitBoth] adds at most the two answers of the out
    leg. *)
Lemma pending_continueWithOut st :
  pending (continueWithOut st) <= pending st + 2.
Proof.
  destruct (busy (transaction_out st)) eqn:Hb.
  - rewrite continueWithOut_busy by done. lia.
  - rewrite continueWithOut_free by done. unfold pending; simpl.
    rewrite (pending_leg_not_in_flight 2 1 (transaction_out st))
      by by apply not_busy_not_in_flight.
    lia.
Qed.

Lemma pending_iter_continueWithOut n st :
  pending (Nat.iter n continueWithOut st) <= pending st + 2.
Proof.
  rewrite iter_continueWithOut. destruct n; [lia | apply pending_continueWithOut].
Qed.

Lemma pending_set_waiters n st : pending (set_waiters n st) = pending st.
Proof. reflexivity. Qed.

Lemma onSdk_in_pending ev st :
  onSdk LegIn ev st = st \/ pending (onSdk LegIn ev st) < pending st.
Proof.
  unfold onSdk, pending; simpl.
  destruct (pending_leg_sdk 2 1 ev (gateway_in st)) as [->|Hlt]; [lia| |].
  - left. by destruct st.
  - right. lia.
Qed.

Lemma onSdk_out_pending ev st :
  onSdk LegOut ev st = st \/ pending (onSdk LegOut ev st) < pending st.
Proof.
  unfold onSdk, pending; simpl.
  destruct (pending_leg_sdk 2 1 ev (transaction_out st)) as [->|Hlt]; [lia| |].
  - left. by destruct st.
  - right. lia.
Qed.

Lemma onSdk_renVM_pending ev st :
  onSdk LegRenVM ev st = st \/ pending (onSdk LegRenVM ev st) < pending st.
Proof.
  destruct (in_flight (transaction_renVM st)) eqn:Hf;
    [|left; by apply onSdk_not_in_flight].
  unfold onSdk; cbn [leg_state]. rewrite Hf.
  destruct (in_flight (sdk ev (transaction_renVM st))) eqn:Hf'; simpl.
  - unfold pending; simpl.
    destruct (pending_leg_sdk 4 3 ev (transaction_renVM st)) as [->|Hlt]; [lia| |].
    + left. by destruct st.
    + right. lia.
  - right. eapply Nat.le_lt_trans; [apply pending_iter_continueWithOut|].
    destruct (pending_leg_settled 4 3 ev _ ltac:(lia) Hf Hf') as [H0 H3].
    unfold pending; simpl. lia.
Qed.

(** Every answer of the SDK leaves the state or decreases the measure. *)
Lemma onSdk_pending l ev st :
  onSdk l ev st = st \/ pending (onSdk l ev st) < pending st.
Proof.
  destruct l; auto using onSdk_in_pending, onSdk_renVM_pending, onSdk_out_pending.
Qed.

Lemma answered_pending st' st : answered st' st -> pending st' < pending st.
Proof. intros (l & ev & -> & Hne). by destruct (onSdk_pending l ev st). Qed.

Lemma effective_pending evs st : effective evs st <= pending st.
Proof.
  revert st. induction evs as [|[l ev] evs IH]; intros st; simpl; [lia|].
  specialize (IH (onSdk l ev st)).
  destruct (onSdk_pending l ev st) as [Heq|Hlt].
  - rewrite Heq in *. rewrite bool_decide_eq_true_2 by done. lia.
  - case_bool_decide; lia.
Qed.

(** On a screen that submits both legs the measure is at most four: the
    out leg is idle while the RenVM leg is in flight. *)
Lemma two_leg_pending st : two_leg_inv st -> pending st <= 4.
Proof.
  intros Hinv. unfold pending. rewrite (inv_in _ Hinv); simpl.
  destruct (in_flight (transaction_renVM st)) eqn:Hf.
  - rewrite (pending_leg_not_in_flight 2 1 (transaction_out st))
      by (by apply not_busy_not_in_flight, (inv_sequenced _ Hinv)).
    pose proof (pending_leg_le 4 3 (transaction_renVM st)). lia.
  - rewrite (pending_leg_not_in_flight 4 3 _ Hf).
    pose proof (pending_leg_le 2 1 (transaction_out st)). lia.
Qed.

(** The SDK can always finish what a two-leg screen has started, with at
    most four answers. *)
Lemma two_leg_drain st :
  two_leg_inv st ->
  settled (answers (drain st) st) = true /\ length (drain st) <= 4.
Proof.
  intros [_ _ Hw Hseq _ _ Hin].
  destruct st as [gi [pr er] [po eo] w cs]; simpl in *. subst gi.
  unfold in_flight, busy in *; simpl in *.
  destruct pr; simpl in *; subst w;
    try (specialize (Hseq eq_refl)); destruct po; try done;
    by split; [vm_compute | simpl; lia].
Qed.

End measure_lemmas.
