(* ===== verification/H2HComplete.v ===== *)
(** * H2HComplete: the composite submission has no run the screens lack

    [H2HRefinement] shows that every run of a two-leg screen is a run of
    the [Continue] machine.  This file shows the converse: every run of
    the machine is what some run of the screen is observed to do, so the
    machine describes the screen exactly.

    The run is computed ([realise_run]): a label of the machine becomes
    the click or the answers of the SDK that make the screen take it, an
    answer [Accepted] first where the leg is still being submitted.  The
    section [completeness] proves it correct against [TwoLegScreen] and
    props with which the tree offers all that [offers_both] allows; the
    steps of the screen are matched with those of the machine by the
    forward simulation and the determinism of the machine. *)

From Stdlib Require Import ZArith Lia.
From stdpp Require Import base tactics option list numbers strings.
From S2P Require Import Prelude View Submitter Config MintH2H H2HPage H2HScreens.
From S2P Require Import H2HSpec H2HRefinement H2HProgress.

(** The answers with which the SDK settles the submission [s] of leg
    [l]: completes it, or rejects it. *)
Definition settle (l : Leg) (ok : bool) (s : SubmissionState) : list Event :=
  if ok then (fun le => Sdk le.1 le.2) <$> finish l s
  else [Sdk l (Rejected "rejected")].

(** The events that make the screen in state [st] take the label [a]. *)
Definition realise (st : PageState) (a : Label) : list Event :=
  match a with
  | Begin => [Click OnSubmitBoth]
  | FirstSettles ok => settle LegRenVM ok (transaction_renVM st)
  | SecondSettles ok => settle LegOut ok (transaction_out st)
  | Retry l => [Click (OnReset l)]
  end.

Section realisation.
Context {Props : Type}.
Variable offered : Props -> PageState -> list Handler.
Variable p0 : Props.

Definition with_props (evs : list Event) : list (Props * Event) :=
  pair p0 <$> evs.

(** A run of the screen for the labels [ls], from [st]. *)
Fixpoint realise_run (ls : list Label) (st : PageState) : list (Props * Event) :=
  match ls with
  | [] => []
  | a :: ls' =>
      let tr := with_props (realise st a) in
      tr ++ realise_run ls' (run offered tr st)
  end.

End realisation.

Section completeness.
Context {Props : Type} {screen : TwoLegScreen Props}.
Variable p0 : Props.
Hypothesis p0_valid : screen_valid p0.
Hypothesis p0_offers :
  forall h st, two_leg_inv st -> offers_both h st -> h ∈ screen_offered p0 st.

Implicit Types (st : PageState) (a : Label) (c : Composite) (e : Event)
  (tr : list (Props * Event)) (ls : list Label).

Lemma observed_app tr1 tr2 st :
  observed screen_offered (tr1 ++ tr2) st
  = observed screen_offered tr1 st
    ++ observed screen_offered tr2 (run screen_offered tr1 st).
Proof.
  revert st. induction tr1 as [|[p e] tr1 IH]; intros st; simpl; [done|].
  by rewrite IH, app_assoc.
Qed.

Lemma with_props_valid evs : Forall (fun pe => screen_valid pe.1) (with_props p0 evs).
Proof. apply Forall_fmap, Forall_true. by intros e. Qed.

Lemma realise_run_valid ls st :
  Forall (fun pe => screen_valid pe.1) (realise_run screen_offered p0 ls st).
Proof.
  revert st. induction ls as [|a ls IH]; intros st; simpl; [constructor|].
  apply Forall_app. split; [apply with_props_valid | apply IH].
Qed.

Lemma realise_run_snoc ls a st :
  realise_run screen_offered p0 (ls ++ [a]) st
  = realise_run screen_offered p0 ls st
    ++ with_props p0
         (realise (run screen_offered (realise_run screen_offered p0 ls st) st) a).
Proof.
  revert st. induction ls as [|b ls IH]; intros st; simpl.
  - by rewrite !app_nil_r.
  - by rewrite IH, run_app, app_assoc.
Qed.

(** A step of the screen that is observed as [a] ends where the machine
    does. *)
Lemma observed_step e a st c :
  two_leg_inv st -> observe screen_offered p0 e st = Some a ->
  cstep Continue (abs st) a c ->
  observed screen_offered (with_props p0 [e]) st = [a]
  /\ abs (run screen_offered (with_props p0 [e]) st) = c.
Proof.
  intros Hinv Ho Hstep. simpl. rewrite Ho. split; [done|].
  pose proof (refines_step p0 e st p0_valid Hinv) as Hs. rewrite Ho in Hs.
  by apply (cstep_deterministic Continue (abs st) a).
Qed.

(** A silent step before it changes nothing of that. *)
Lemma silent_step e evs a st c :
  two_leg_inv st -> observe screen_offered p0 e st = None ->
  (two_leg_inv (step screen_offered p0 e st) ->
   abs (step screen_offered p0 e st) = abs st ->
   observed screen_offered (with_props p0 evs) (step screen_offered p0 e st) = [a]
   /\ abs (run screen_offered (with_props p0 evs) (step screen_offered p0 e st)) = c) ->
  observed screen_offered (with_props p0 (e :: evs)) st = [a]
  /\ abs (run screen_offered (with_props p0 (e :: evs)) st) = c.
Proof.
  intros Hinv Ho Hrest. simpl. rewrite Ho. simpl. apply Hrest.
  - by apply two_leg_inv_step.
  - pose proof (refines_step p0 e st p0_valid Hinv) as Hs. by rewrite Ho in Hs.
Qed.

Lemma observe_click h a st :
  two_leg_inv st -> offers_both h st ->
  (match h with OnSubmitBoth => Some Begin | OnReset l => Some (Retry l)
   | _ => None end) = Some a ->
  observe screen_offered p0 (Click h) st = Some a.
Proof.
  intros Hinv Hoff Ha. simpl.
  by rewrite bool_decide_eq_true_2 by by apply p0_offers.
Qed.

Lemma settles_accepted s : phase s = Submitting -> settles Accepted s = None.
Proof. destruct s as [[] ?]; by intros. Qed.

Lemma settles_completed s : phase s = Waiting -> settles Completed s = Some true.
Proof. destruct s as [[] ?]; by intros. Qed.

Lemma accepted_waiting l st :
  phase (leg_state l st) = Submitting ->
  phase (leg_state l (step screen_offered p0 (Sdk l Accepted) st)) = Waiting.
Proof.
  intros Hph. unfold step.
  rewrite onSdk_in_flight, leg_state_set_leg;
    by destruct (leg_state l st) as [[] ?].
Qed.

(** The answers of [settle] settle a leg in flight as asked. *)
Lemma settle_in_flight l ok a st c :
  two_leg_inv st -> in_flight (leg_state l st) = true ->
  (forall ev st, observe screen_offered p0 (Sdk l ev) st
                 = (match l with LegRenVM => FirstSettles | _ => SecondSettles end)
                   <$> settles ev (leg_state l st)) ->
  a = (match l with LegRenVM => FirstSettles | _ => SecondSettles end) ok ->
  cstep Continue (abs st) a c ->
  observed screen_offered (with_props p0 (settle l ok (leg_state l st))) st = [a]
  /\ abs (run screen_offered (with_props p0 (settle l ok (leg_state l st))) st) = c.
Proof.
  intros Hinv Hf Hobs -> Hstep. unfold settle, finish.
  destruct ok; [|apply observed_step; [done| |done];
    by rewrite Hobs, settles_rejected].
  unfold in_flight in Hf. destruct (phase (leg_state l st)) eqn:Hph; try done.
  - change (_ <$> [(l, Accepted); (l, Completed)])
      with [Sdk l Accepted; Sdk l Completed].
    apply silent_step; [done|by rewrite Hobs, settles_accepted|].
    intros Hinv' Habs. apply observed_step; [done| |by rewrite Habs].
    by rewrite Hobs, settles_completed by by apply accepted_waiting.
  - apply observed_step; [done| |done]. by rewrite Hobs, settles_completed.
Qed.

(** What a step of the machine requires of the screen. *)
Lemma cstep_enabled a st c :
  cstep Continue (abs st) a c ->
  match a with
  | Begin => offers_both OnSubmitBoth st
  | FirstSettles _ => in_flight (transaction_renVM st) = true
  | SecondSettles _ => in_flight (transaction_out st) = true
  | Retry l => offers_both (OnReset l) st
  end.
Proof.
  inversion 1; subst; simpl in *;
    rewrite ?startable_legView, ?negb_true_iff, ?legView_in_flight,
      ?legView_Failed in *; done.
Qed.

(** The events of [realise] make the screen take the step of the
    machine. *)
Lemma realise_step a st c :
  two_leg_inv st -> cstep Continue (abs st) a c ->
  observed screen_offered (with_props p0 (realise st a)) st = [a]
  /\ abs (run screen_offered (with_props p0 (realise st a)) st) = c.
Proof.
  intros Hinv Hstep. pose proof (cstep_enabled a st c Hstep) as Hen.
  destruct a as [|ok|ok|l]; cbn [realise].
  - apply observed_step; [done| |done]. by apply observe_click.
  - by apply (settle_in_flight LegRenVM ok).
  - by apply (settle_in_flight LegOut ok).
  - apply observed_step; [done| |done]. by apply observe_click.
Qed.

(** Every run of the machine is observed of a run of the screen, which
    ends in the state of the machine. *)
Lemma realise_run_correct ls c :
  csteps Continue idle ls c ->
  let tr := realise_run screen_offered p0 ls initial in
  observed screen_offered tr initial = ls
  /\ abs (run screen_offered tr initial) = c.
Proof.
  induction 1 as [|ls c a c' _ [IHo IHa] Hstep]; [done|].
  simpl. rewrite realise_run_snoc, observed_app, run_app, IHo.
  set (st := run screen_offered (realise_run screen_offered p0 ls initial) initial)
    in *.
  assert (two_leg_inv st) as Hinv
    by (apply two_leg_inv_run; [apply realise_run_valid | apply two_leg_inv_initial]).
  rewrite <- IHa in Hstep.
  by destruct (realise_step a st c' Hinv Hstep) as [-> ->].
Qed.

End completeness.
