(* ===== verification/H2HClosures.v ===== *)
(** * H2HClosures: what [handleSubmitBoth] has captured when it resumes

    [handleSubmitBoth] is created by [useCallback] over [renVM.handleSubmit]
    and [out.handleSubmit] (MintH2HStatuses.tsx, lines 207-210 and 351-354).
    The invocation that a click starts holds the two functions of the
    render in which the button was clicked; it calls the first at once and
    the second only after the first [await], when the screen has rendered
    again.  [MintH2H.handleSubmitBoth] lets the guard of the second call
    read the submitter as it is when the call is made.  A function
    component's callback may instead read the state of the render it was
    created in.

    This file models that reading: a suspended invocation keeps the
    submitter of the out leg as the click saw it ([closures]), and the guard
    of the resumed call is evaluated on that snapshot ([capturedSubmit]).
    The section [captured] proves, against the interface [offers_both],
    that both readings give the same runs: between the click and the
    resumption the out leg may change (its error may be dismissed), but
    not from free to busy or back. *)

From Stdlib Require Import ZArith Lia.
From stdpp Require Import base tactics option list numbers strings.
From S2P Require Import Prelude View Submitter Config MintH2H H2HPage.

(** A mounted screen and, for each suspended invocation of
    [handleSubmitBoth], the out submitter its closure holds. *)
Record Captured := mkCaptured {
  page : PageState;
  closures : list SubmissionState
}.

Definition initialC : Captured := mkCaptured initial [].

(** [x.handleSubmit()] of an earlier render, whose guard reads the
    submitter [snap] of that render; a submission that passes the guard
    is issued on the submitter as it is now. *)
Definition capturedSubmit (l : Leg) (snap : SubmissionState) (st : PageState)
  : PageState :=
  let '(s, issued) := submit snap in
  if issued then record_call l (set_leg l s st) else st.

(** [handleSubmitBoth] (lines 207-210): the first call sees the render of
    the click; the closure keeps [out] for the second. *)
Definition handleSubmitBothC (c : Captured) : Captured :=
  let st := page c in
  let '(st1, pending) := invokeSubmit LegRenVM st in
  if pending
  then mkCaptured (set_waiters (S (waiters st1)) st1)
         (closures c ++ [transaction_out st])
  else mkCaptured (capturedSubmit LegOut (transaction_out st) st1) (closures c).

Definition dispatchC (h : Handler) (c : Captured) : Captured :=
  match h with
  | OnSubmitBoth => handleSubmitBothC c
  | _ => mkCaptured (dispatch h (page c)) (closures c)
  end.

(** An answer of the SDK: when it settles the RenVM leg the suspended
    invocations resume, each with its own closure. *)
Definition onSdkC (l : Leg) (ev : SdkEvent) (c : Captured) : Captured :=
  let st := page c in
  let s := leg_state l st in
  let s' := sdk ev s in
  let st' := set_leg l s' st in
  match l with
  | LegRenVM =>
      if in_flight s && negb (in_flight s')
      then mkCaptured
             (foldl (fun st snap => capturedSubmit LegOut snap st)
                (set_waiters 0 st') (closures c)) []
      else mkCaptured st' (closures c)
  | _ => mkCaptured st' (closures c)
  end.

Section pageC.
Context {Props : Type}.
Variable offered : Props -> PageState -> list Handler.

Definition stepC (p : Props) (e : Event) (c : Captured) : Captured :=
  match e with
  | Click h => if bool_decide (h ∈ offered p (page c)) then dispatchC h c else c
  | Sdk l ev => onSdkC l ev c
  end.

Definition runC (tr : list (Props * Event)) (c : Captured) : Captured :=
  foldl (fun c pe => stepC pe.1 pe.2 c) c tr.

End pageC.

(** What the closures hold on a two-leg screen: one snapshot while the
    RenVM leg is in flight, taken when the out leg was free. *)
Definition closures_inv (c : Captured) : Prop :=
  if in_flight (transaction_renVM (page c))
  then exists snap, closures c = [snap] /\ busy snap = false
  else closures c = [].

Section captured.
Context {Props : Type} {screen : TwoLegScreen Props}.

Implicit Types (c : Captured) (st : PageState) (p : Props).

Lemma capturedSubmit_free l snap st :
  busy snap = false ->
  capturedSubmit l snap st
  = record_call l (set_leg l (mkSubmission Submitting None) st).
Proof. intros Hb. unfold capturedSubmit. by rewrite (submit_free _ Hb). Qed.

(** A closure whose snapshot agrees with the submitter on being busy
    does what the call on the current submitter does. *)
Lemma capturedSubmit_current snap st :
  busy snap = busy (transaction_out st) ->
  capturedSubmit LegOut snap st = continueWithOut st.
Proof.
  intros Hb. unfold capturedSubmit, continueWithOut, invokeSubmit, submit; simpl.
  rewrite Hb. by destruct (busy (transaction_out st)), st.
Qed.

(** What is at stake: a closure that saw the out leg free submits it
    again when it is busy by now; the call on the current submitter is
    guarded. *)
Lemma capturedSubmit_stale snap st :
  busy snap = false -> busy (transaction_out st) = true ->
  calls (capturedSubmit LegOut snap st) = calls st ++ [LegOut]
  /\ continueWithOut st = st.
Proof.
  intros Hs Hb. rewrite capturedSubmit_free by done.
  by rewrite continueWithOut_busy.
Qed.

Lemma runC_snoc tr p e c :
  runC screen_offered (tr ++ [(p, e)]) c
  = stepC screen_offered p e (runC screen_offered tr c).
Proof. unfold runC. by rewrite foldl_app. Qed.

Lemma captured_click p h c :
  screen_valid p -> two_leg_inv (page c) -> closures_inv c ->
  page (stepC screen_offered p (Click h) c)
  = step screen_offered p (Click h) (page c)
  /\ closures_inv (stepC screen_offered p (Click h) c).
Proof.
  intros Hp Hinv Hc. simpl. case_bool_decide as Hoff; [|done].
  apply (screen_sound _ _ _ Hp) in Hoff. unfold closures_inv in *.
  destruct h as [l|[]| |]; simpl in Hoff; try done.
  - simpl. split; [done|]. unfold invokeReset; simpl.
    rewrite (reset_errored _ Hoff). simpl.
    unfold in_flight in Hc. by rewrite Hoff in Hc.
  - destruct Hoff as [Hr Ho]. simpl. unfold handleSubmitBothC.
    rewrite (invokeSubmit_free LegRenVM _ Hr), (handleSubmitBoth_free _ Hr).
    rewrite (not_busy_not_in_flight _ Hr) in Hc. rewrite Hc. simpl.
    split; [done | by eexists].
Qed.

Lemma captured_sdk_renVM ev c :
  two_leg_inv (page c) -> closures_inv c ->
  page (onSdkC LegRenVM ev c) = onSdk LegRenVM ev (page c)
  /\ closures_inv (onSdkC LegRenVM ev c).
Proof.
  intros Hinv Hc. unfold closures_inv in *.
  destruct (in_flight (transaction_renVM (page c))) eqn:Hf.
  - destruct Hc as (snap & Hc & Hsnap).
    pose proof (inv_sequenced _ Hinv Hf) as Ho.
    pose proof (inv_waiters _ Hinv) as Hw. rewrite Hf in Hw.
    unfold onSdkC, onSdk; cbn [leg_state]. rewrite Hf, Hc.
    destruct (in_flight (sdk ev (transaction_renVM (page c)))) eqn:Hf'; simpl.
    + rewrite Hf'. split; [done | by eexists].
    + rewrite Hw; simpl. rewrite capturedSubmit_current by (simpl; congruence).
      split; [done|]. rewrite continueWithOut_free by done. simpl. by rewrite Hf'.
  - unfold onSdkC, onSdk; cbn [leg_state]. rewrite Hf; simpl.
    rewrite (sdk_not_in_flight _ _ Hf), Hf. done.
Qed.

Lemma captured_sdk l ev c :
  two_leg_inv (page c) -> closures_inv c ->
  page (onSdkC l ev c) = onSdk l ev (page c) /\ closures_inv (onSdkC l ev c).
Proof.
  intros Hinv Hc. destruct l; [|by apply captured_sdk_renVM|]; by simpl.
Qed.

(** Both readings take the same step. *)
Lemma captured_step p e c :
  screen_valid p -> two_leg_inv (page c) -> closures_inv c ->
  page (stepC screen_offered p e c) = step screen_offered p e (page c)
  /\ closures_inv (stepC screen_offered p e c).
Proof.
  intros Hp Hinv Hc. destruct e as [h|l ev];
    [by apply captured_click | by apply captured_sdk].
Qed.

(** ... and the same runs. *)
Lemma captured_run tr :
  Forall (fun pe => screen_valid pe.1) tr ->
  page (runC screen_offered tr initialC) = run screen_offered tr initial
  /\ closures_inv (runC screen_offered tr initialC).
Proof.
  induction tr as [|[p e] tr IH] using rev_ind; intros Hv; [done|].
  apply Forall_app in Hv as [Hv Hpe]. inversion_clear Hpe as [|? ? Hp _].
  destruct (IH Hv) as [Hpage Hc]. rewrite runC_snoc, run_snoc, <- Hpage.
  apply captured_step; [done| |done]. rewrite Hpage.
  apply two_leg_invariant, run_reachable; done.
Qed.

End captured.
