(* ===== verification/H2HFlow.v ===== *)
(** * H2HFlow: the three screens, one after the other

    A host-to-host mint shows the screens of MintH2HStatuses.tsx in turn:
    the lock screen, the lock progress screen, the mint progress screen.
    Each screen calls [useChainTransactionSubmitter] itself, so each view
    has submitters of its own: when the parent replaces one screen by
    another, the state of the hooks of the first is gone and the second
    starts from [wrap] (specification, section 3: a leg is wrapped by one
    submitter for the duration of a single page view).  An abandoned view
    receives no further events (section 5), so an invocation of
    [handleSubmitBoth] that it left suspended never resumes.

    The parent that chooses the screen is not among the sources: a flow
    takes the choice as an event ([Show]).  What the SDK was asked to
    submit outlives the views: [submitted] is the log of the views before
    followed by that of the current one.

    The section [flow_lemmas] projects a flow onto its current view, which
    is a reachable state of the screen shown, and so carries the theorems
    on the screens over to flows; the log is described by a predicate on
    traces ([views]), and the submissions are bounded by a potential that
    no step increases unless it is a click on a submit button. *)

From Stdlib Require Import ZArith Lia.
From stdpp Require Import base tactics option list numbers strings.
From S2P Require Import Prelude View Submitter Config MintH2H H2HPage H2HScreens.
From S2P Require Import H2HSpec H2HRefinement H2HProgress.

Inductive Screen := LockScreen | LockProgressScreen | MintProgressScreen.

#[export] Instance Screen_eq_dec : EqDecision Screen.
Proof. solve_decision. Defined.

(** The events of a flow: the parent shows a screen, or the screen shown
    is rendered with some props and takes an event of [H2HPage]. *)
Inductive FlowEvent :=
| Show (s : Screen)
| AtLock (p : LockProps) (e : Event)
| AtLockProgress (p : LockProgressProps) (e : Event)
| AtMintProgress (p : MintProgressProps) (e : Event).

(** The screen on display, the state of its submitters, and the external
    submissions of the views before it. *)
Record Flow := mkFlow {
  shown : option Screen;
  view : PageState;
  earlier : list Leg
}.

Definition start : Flow := mkFlow None initial [].

(** All that the SDK was asked to submit, oldest first. *)
Definition submitted (f : Flow) : list Leg := earlier f ++ calls (view f).

(** The parent renders screen [s]: a screen that is already shown keeps
    its state, another one is mounted in place of the current view. *)
Definition show (s : Screen) (f : Flow) : Flow :=
  if bool_decide (shown f = Some s) then f
  else mkFlow (Some s) initial (submitted f).

(** An event for screen [s] reaches it only while it is shown. *)
Definition at_screen (s : Screen) (next : PageState -> PageState) (f : Flow)
  : Flow :=
  if bool_decide (shown f = Some s)
  then mkFlow (shown f) (next (view f)) (earlier f)
  else f.

(** The clicks that ask for a submission. *)
Definition is_submit (e : Event) : bool :=
  match e with
  | Click (OnSubmit _) | Click OnSubmitBoth => true
  | _ => false
  end.

Definition event_of (e : FlowEvent) : option Event :=
  match e with
  | Show _ => None
  | AtLock _ e | AtLockProgress _ e | AtMintProgress _ e => Some e
  end.

Definition submit_clicks (tr : list FlowEvent) : nat :=
  length (filter (fun e => from_option is_submit false (event_of e) = true) tr).

(** What a view may log: submissions of the lock leg alone, or of the
    RenVM and out legs in turn. *)
Definition view_log (l : list Leg) : Prop :=
  (exists n, l = replicate n LegIn) \/ (exists n, l = alternation n).

(** The logs of any number of views, one after the other. *)
Inductive views : list Leg -> Prop :=
| views_nil : views []
| views_app l1 l2 : views l1 -> view_log l2 -> views (l1 ++ l2).

(** What a step may add to the log, counting the submission that a
    suspended [handleSubmitBoth] will still make. *)
Definition potential (st : PageState) : nat := length (calls st) + waiters st.

Section flow.
Context `{I18n} `{Registry}.

Definition flow_step (e : FlowEvent) (f : Flow) : Flow :=
  match e with
  | Show s => show s f
  | AtLock p e => at_screen LockScreen (step lock_offered p e) f
  | AtLockProgress p e =>
      at_screen LockProgressScreen (step lockProgress_offered p e) f
  | AtMintProgress p e =>
      at_screen MintProgressScreen (step mintProgress_offered p e) f
  end.

Definition flow_run (tr : list FlowEvent) (f : Flow) : Flow :=
  run_events flow_step tr f.

(** The props a screen may be rendered with. *)
Definition flow_valid (e : FlowEvent) : Prop :=
  match e with
  | Show _ => True
  | AtLock p _ => lock_valid p
  | AtLockProgress p _ => lockProgress_valid p
  | AtMintProgress p _ => mintProgress_valid p
  end.

(** The view of a flow is a state its screen can reach. *)
Definition view_reachable (f : Flow) : Prop :=
  match shown f with
  | None => view f = initial
  | Some LockScreen => reachable lock_offered lock_valid (view f)
  | Some LockProgressScreen =>
      reachable lockProgress_offered lockProgress_valid (view f)
  | Some MintProgressScreen =>
      reachable mintProgress_offered mintProgress_valid (view f)
  end.

Definition flow_inv (f : Flow) : Prop := views (earlier f) /\ view_reachable f.

End flow.

(** ** Logs *)

Section log_lemmas.
Implicit Types (l : list Leg) (i n : nat).

Lemma view_log_nil : view_log [].
Proof. left. by exists 0. Qed.

Lemma views_one l : view_log l -> views l.
Proof. intros Hl. apply (views_app [] l); [constructor | done]. Qed.

Lemma nth_leg_out i : nth_leg i = LegOut -> exists j, i = S j /\ nth_leg j = LegRenVM.
Proof.
  unfold nth_leg. destruct i as [|j]; [done|]. rewrite Nat.even_succ.
  intros Ho. exists j. split; [done|].
  rewrite <- Nat.negb_odd. by destruct (Nat.odd j).
Qed.

(** In the log of one view every submission of the out leg follows one of
    the RenVM leg. *)
Lemma view_log_out l i :
  view_log l -> l !! i = Some LegOut ->
  exists j, i = S j /\ l !! j = Some LegRenVM.
Proof.
  intros [[n ->]|[n ->]] Hi.
  - by apply lookup_replicate in Hi as [? _].
  - pose proof (lookup_lt_Some _ _ _ Hi) as Hlt. rewrite length_alternation in Hlt.
    rewrite alternation_lookup in Hi by done.
    injection Hi as (j & -> & Hj)%nth_leg_out. exists j. split; [done|].
    rewrite alternation_lookup by lia. by rewrite Hj.
Qed.

(** ... and so it is in the logs of several views. *)
Lemma views_out l i :
  views l -> l !! i = Some LegOut -> exists j, i = S j /\ l !! j = Some LegRenVM.
Proof.
  induction 1 as [|l1 l2 _ IH Hl2] in i |- *; [done|].
  rewrite lookup_app. destruct (l1 !! i) as [x|] eqn:Hi.
  - intros [= ->]. destruct (IH _ Hi) as (j & -> & Hj).
    exists j. split; [done|]. by rewrite lookup_app, Hj.
  - intros (j & Hij & Hj)%(view_log_out _ _ Hl2).
    apply lookup_ge_None in Hi. exists (length l1 + j)%nat. split; [lia|].
    by rewrite lookup_app_r, Nat.add_comm, Nat.add_sub by lia.
Qed.

End log_lemmas.

(** ** The potential of a view *)

Section potential_lemmas.
Implicit Types (st : PageState) (l : Leg).

Lemma potential_invokeSubmit l st :
  potential (invokeSubmit l st).1 <= S (potential st)
  /\ waiters (invokeSubmit l st).1 = waiters st.
Proof.
  unfold potential. destruct (busy (leg_state l st)) eqn:Hb.
  - rewrite invokeSubmit_busy by done. simpl. lia.
  - rewrite invokeSubmit_free by done.
    destruct l; simpl; rewrite length_app; simpl; lia.
Qed.

Lemma potential_handleSubmitBoth st :
  potential (handleSubmitBoth st) <= 2 + potential st.
Proof.
  unfold handleSubmitBoth.
  destruct (invokeSubmit LegRenVM st) as [st1 pending] eqn:Hs.
  pose proof (potential_invokeSubmit LegRenVM st) as [Hp Hw]. rewrite Hs in Hp, Hw.
  simpl in *. destruct pending.
  - unfold potential in *. simpl. lia.
  - pose proof (potential_invokeSubmit LegOut st1) as [Hp' _].
    unfold continueWithOut. lia.
Qed.

Lemma potential_dispatch h st :
  potential (dispatch h st)
  <= (if is_submit (Click h) then 2 else 0) + potential st.
Proof.
  destruct h as [l|l| |]; simpl.
  - pose proof (potential_invokeSubmit l st) as [? _]. lia.
  - unfold potential, invokeReset. by destruct l.
  - apply potential_handleSubmitBoth.
  - done.
Qed.

(** The invocations that resume submit the out leg once between them. *)
Lemma potential_resume st :
  potential (Nat.iter (waiters st) continueWithOut (set_waiters 0 st))
  <= potential st.
Proof.
  rewrite iter_continueWithOut. unfold potential at 2.
  destruct (waiters st) as [|n]; [simpl; unfold potential; simpl; lia|].
  pose proof (potential_invokeSubmit LegOut (set_waiters 0 st)) as [Hp _].
  unfold continueWithOut. unfold potential at 2 in Hp. simpl in Hp. lia.
Qed.

Lemma potential_onSdk l ev st : potential (onSdk l ev st) <= potential st.
Proof.
  unfold onSdk. destruct l; try done.
  destruct (in_flight _ && negb _); [|done].
  etrans; [apply potential_resume | done].
Qed.

(** Only a click on a submit button raises the potential, by two at
    most; whatever the screen offers. *)
Lemma potential_step {Props} (offered : Props -> PageState -> list Handler)
    p e st :
  potential (step offered p e st)
  <= (if is_submit e then 2 else 0) + potential st.
Proof.
  destruct e as [h|l ev]; simpl.
  - case_bool_decide; [apply potential_dispatch | lia].
  - apply potential_onSdk.
Qed.

End potential_lemmas.

(** ** Flows *)

Section flow_lemmas.
Context `{I18n} `{Registry}.
Implicit Types (f : Flow) (e : FlowEvent) (s : Screen) (tr : list FlowEvent).

Lemma flow_run_snoc tr e f :
  flow_run (tr ++ [e]) f = flow_step e (flow_run tr f).
Proof. apply run_events_snoc. Qed.

Lemma submitted_show s f : submitted (show s f) = submitted f.
Proof.
  unfold show. case_bool_decide; [done|].
  unfold submitted; simpl. by rewrite app_nil_r.
Qed.

Lemma submitted_at_screen s next f :
  submitted (at_screen s next f)
  = if bool_decide (shown f = Some s) then earlier f ++ calls (next (view f))
    else submitted f.
Proof. unfold at_screen. by case_bool_decide. Qed.

(** The log of a screen's reachable state is the log of one view. *)
Lemma two_leg_view_log {Props} {screen : TwoLegScreen Props} st :
  reachable screen_offered screen_valid st -> view_log (calls st).
Proof.
  intros (tr & Hv & ->)%reachable_run. right. eexists.
  by apply calls_alternate.
Qed.

Lemma view_reachable_log f : view_reachable f -> view_log (calls (view f)).
Proof.
  unfold view_reachable. destruct (shown f) as [[]|].
  - intros Hinv%lock_invariant. left. eexists. apply (linv_calls _ Hinv).
  - apply (two_leg_view_log (screen := lockProgress_screen)).
  - apply (two_leg_view_log (screen := mintProgress_screen)).
  - intros ->. apply view_log_nil.
Qed.

Lemma flow_inv_show s f : flow_inv f -> flow_inv (show s f).
Proof.
  intros [He Hv]. unfold show. case_bool_decide; [done|].
  split; simpl.
  - apply views_app; [done | by apply view_reachable_log].
  - destruct s; constructor.
Qed.

Lemma flow_inv_step e f : flow_valid e -> flow_inv f -> flow_inv (flow_step e f).
Proof.
  intros Hp [He Hv]. destruct e as [s|p e|p e|p e]; simpl;
    [by apply flow_inv_show|..];
    unfold at_screen; case_bool_decide as Hs; try done;
    (split; [done|]); unfold view_reachable in *; simpl; rewrite Hs in *;
    by constructor.
Qed.

Lemma flow_invariant tr :
  Forall flow_valid tr -> flow_inv (flow_run tr start).
Proof.
  apply (run_events_invariant_on flow_step flow_valid flow_inv);
    [by split; [constructor|] | apply flow_inv_step].
Qed.

(** The log of a flow is the logs of its views. *)
Lemma flow_views tr :
  Forall flow_valid tr -> views (submitted (flow_run tr start)).
Proof.
  intros [He Hv]%flow_invariant.
  apply views_app; [done | by apply view_reachable_log].
Qed.

(** The potential of a flow: what was submitted, and what the current
    view will still submit by itself. *)
Lemma flow_potential_step e f :
  length (earlier (flow_step e f)) + potential (view (flow_step e f))
  <= (if from_option is_submit false (event_of e) then 2 else 0)
     + (length (earlier f) + potential (view f)).
Proof.
  destruct e as [s|p e|p e|p e]; simpl; unfold show, at_screen;
    case_bool_decide; simpl; try lia.
  - unfold submitted, potential. rewrite length_app. simpl. lia.
  - pose proof (potential_step lock_offered p e (view f)). lia.
  - pose proof (potential_step lockProgress_offered p e (view f)). lia.
  - pose proof (potential_step mintProgress_offered p e (view f)). lia.
Qed.

Lemma flow_potential tr :
  length (earlier (flow_run tr start)) + potential (view (flow_run tr start))
  <= 2 * submit_clicks tr.
Proof.
  induction tr as [|e tr IH] using rev_ind; [simpl; unfold potential; simpl; lia|].
  rewrite flow_run_snoc. pose proof (flow_potential_step e (flow_run tr start)) as Hs.
  unfold submit_clicks in *. rewrite filter_app, length_app.
  destruct (from_option is_submit false (event_of e)) eqn:He.
  - rewrite filter_cons_True, filter_nil by done. simpl. lia.
  - rewrite filter_cons_False, filter_nil by (by rewrite He). simpl. lia.
Qed.

End flow_lemmas.
