(* ===== verification/H2HProperties.v ===== *)
(** * H2HProperties: what the host-to-host screens guarantee

    The theorems on the three screens of MintH2HStatuses.tsx, mounted and
    driven by the user and the SDK: the invariants of the two screens that
    submit the RenVM and out legs with [handleSubmitBoth], the behaviour of
    the lock screen under repeated clicks, failure and retry, and the
    branches of the rendered trees.  Each theorem that has a hypothesis is
    followed by a witness on the sample collaborators of [Config.Sample]. *)

From Stdlib Require Import ZArith Lia.
From stdpp Require Import base tactics option list numbers strings.
From S2P Require Import Prelude View Submitter Config MintH2H H2HPage H2HScreens.

#[local] Open Scope Z_scope.

(** ** The lock screen: one leg *)

(** Sample props, for the witnesses. *)
Definition sampleLock : LockProps :=
  mkLockProps Sample.gateway None (Some "0.4995") (Some "9990.00") (Some "1.2").

Definition sampleLockProgress : LockProgressProps :=
  mkLockProgressProps Sample.gateway None (Some "0.4995") (Some "9990.00")
    (Some ChainTransactionStatus.Done) (Some 6) (Some 6) true.

(** The lock has been seen, not yet confirmed. *)
Definition samplePendingLock : LockProgressProps :=
  mkLockProgressProps Sample.gateway None (Some "0.4995") (Some "9990.00")
    (Some ChainTransactionStatus.Pending) (Some 0) (Some 6) true.

Definition sampleMintProgress : MintProgressProps :=
  mkMintProgressProps Sample.gateway (Some ChainTransactionStatus.Done) None
    None None (Some "0.4995") None None.

(** A run of the lock screen: submit, rejected by the wallet, reset,
    submit again. *)
Definition sampleLockRun : list (LockProps * Event) :=
  [(sampleLock, Click (OnSubmit LegIn));
   (sampleLock, Sdk LegIn (Rejected "user denied"));
   (sampleLock, Click (OnReset LegIn));
   (sampleLock, Click (OnSubmit LegIn))].

(** A run of the lock progress screen: submit both, RenVM accepts and
    completes, the out leg is rejected. *)
Definition sampleProgressRun : list (LockProgressProps * Event) :=
  [(sampleLockProgress, Click OnSubmitBoth);
   (sampleLockProgress, Sdk LegRenVM Accepted);
   (sampleLockProgress, Sdk LegRenVM Completed);
   (sampleLockProgress, Sdk LegOut (Rejected "reverted"))].

Definition sampleMintRun : list (MintProgressProps * Event) :=
  [(sampleMintProgress, Click OnSubmitBoth);
   (sampleMintProgress, Sdk LegRenVM (Rejected "timeout"))].

Section lock_screen.
Context `{I18n} `{Registry}.
Implicit Types (st : PageState) (p : LockProps).

(** C14: In every state the lock screen reaches through clicks on its
    rendered tree and answers of the SDK, the submitter of [gateway.in] is
    well formed, only the lock leg has been submitted, and a leg that has
    left [Idle] was submitted at least once. *)
Theorem lock_screen_invariant st :
  reachable lock_offered lock_valid st -> lock_inv st.
Proof. apply lock_invariant. Qed.

(** What the lock screen offers to the user: the submit button while
    the leg is not submitting, waiting or done, and the reset of the error
    dialog while an error is shown; nothing else. *)
Theorem lock_screen_offers p st :
  lock_valid p -> is_Some (assetConfigs (params_asset (l_gateway p))) ->
  lock_offered p st
  = (if busy (gateway_in st) then [] else [OnSubmit LegIn])
    ++ (if errorSubmitting (useChainTransactionSubmitter LegIn (gateway_in st))
        is Some _ then [OnReset LegIn] else []).
Proof. intros Hp Hok. by rewrite lock_offered_eq. Qed.

(** C17: A click on the enabled submit button issues one external
    submission and moves the leg to [Submitting]; after it the tree offers
    nothing, so that a second click, whatever the props, changes nothing. *)
Theorem lock_second_click_ignored p1 p2 st h :
  lock_valid p1 -> lock_valid p2 ->
  OnSubmit LegIn ∈ lock_offered p1 st ->
  let st1 := step lock_offered p1 (Click (OnSubmit LegIn)) st in
  calls st1 = calls st ++ [LegIn]
  /\ phase (gateway_in st1) = Submitting
  /\ lock_offered p2 st1 = []
  /\ step lock_offered p2 (Click h) st1 = st1.
Proof.
  intros Hp1 Hp2 Hoff. simpl. rewrite bool_decide_eq_true_2 by done.
  apply (lock_offered_sound _ _ _ Hp1) in Hoff as [[_ Hb]|[[=] _]].
  simpl. rewrite invokeSubmit_free by done.
  set (st1 := (_, true).1).
  assert (lock_offered p2 st1 = []) as Hnone.
  { apply elem_of_nil_inv. intros h' Hh'.
    by apply (lock_offered_sound _ _ _ Hp2) in Hh' as [[_ Hb']|[_ He]]. }
  split_and!; try done. by rewrite Hnone.
Qed.

(** C23: When the SDK rejects a submission in flight, the hook exposes the
    error and the tree offers the submit button, enabled again, and the
    reset of the open dialog; the reset returns the leg to a fresh
    submitter and the tree offers only the submit button; a click on it
    issues a new external submission. *)
Theorem lock_error_reset_retry p e st :
  lock_valid p -> is_Some (assetConfigs (params_asset (l_gateway p))) ->
  in_flight (gateway_in st) = true ->
  let st1 := step lock_offered p (Sdk LegIn (Rejected e)) st in
  let st2 := step lock_offered p (Click (OnReset LegIn)) st1 in
  let st3 := step lock_offered p (Click (OnSubmit LegIn)) st2 in
  errorSubmitting (useChainTransactionSubmitter LegIn (gateway_in st1)) = Some e
  /\ lock_offered p st1 = [OnSubmit LegIn; OnReset LegIn]
  /\ gateway_in st2 = wrap
  /\ lock_offered p st2 = [OnSubmit LegIn]
  /\ calls st3 = calls st ++ [LegIn]
  /\ phase (gateway_in st3) = Submitting.
Proof.
  intros Hp Hok Hf. cbn zeta.
  assert (step lock_offered p (Sdk LegIn (Rejected e)) st
          = set_leg LegIn (mkSubmission Errored (Some e)) st) as ->
    by (unfold step; rewrite onSdk_other by done; cbn [leg_state];
        by rewrite (sdk_rejected_in_flight _ _ Hf)).
  assert (step lock_offered p (Click (OnReset LegIn))
            (set_leg LegIn (mkSubmission Errored (Some e)) st)
          = set_leg LegIn wrap st) as ->
    by (simpl; by rewrite lock_offered_eq by done).
  simpl. by rewrite !lock_offered_eq by done.
Qed.

(** The lock screen fails to render exactly when the registry has no
    configuration for the gateway's asset, and the failure names it. *)
Theorem lock_render_fails_iff p st e :
  lock_view p st = Err e
  <-> assetConfigs (params_asset (l_gateway p)) = None
      /\ e = UnknownAsset (params_asset (l_gateway p)).
Proof. apply lock_view_Err. Qed.

End lock_screen.

(** ** The progress screens: two legs *)

Section progress_screens.
Context `{I18n} `{Registry}.
Implicit Types (st : PageState).

Lemma lockProgress_inv st :
  reachable lockProgress_offered lockProgress_valid st -> two_leg_inv st.
Proof. apply (two_leg_invariant (screen := lockProgress_screen)). Qed.

(** C3: In every state the lock progress screen reaches, the two
    submitters are well formed, exactly the invocation of
    [handleSubmitBoth] that submitted the RenVM leg awaits it, the out leg
    has not started while the RenVM leg is in flight, and every settled
    RenVM submission was followed by one submission of the out leg. *)
Theorem lockProgress_invariant st :
  reachable lockProgress_offered lockProgress_valid st -> two_leg_inv st.
Proof. apply lockProgress_inv. Qed.

(** The same invariant holds of the mint progress screen, whose
    button is disabled by [mintStatus] instead of [lockStatus]. *)
Theorem mintProgress_invariant st :
  reachable mintProgress_offered mintProgress_valid st -> two_leg_inv st.
Proof. apply (two_leg_invariant (screen := mintProgress_screen)). Qed.

(** C4: On the lock progress screen the RenVM leg and the out leg are
    never in flight together: [handleSubmitBoth] reaches
    [out.handleSubmit()] only after the promise of [renVM.handleSubmit()]
    has settled, and the button is disabled in between. *)
Theorem lockProgress_legs_sequenced st :
  reachable lockProgress_offered lockProgress_valid st ->
  in_flight (transaction_renVM st) && in_flight (transaction_out st) = false.
Proof. intros Hr. by apply two_leg_exclusive, lockProgress_inv. Qed.

(** The out leg is submitted at most as often as the RenVM leg, and
    lags behind by at most the one submission in flight. *)
Theorem lockProgress_submissions_paired st :
  reachable lockProgress_offered lockProgress_valid st ->
  (submissions LegOut st <= submissions LegRenVM st <= submissions LegOut st + 1)%nat.
Proof.
  intros Hinv%lockProgress_inv.
  pose proof (inv_paired _ Hinv) as Hp. pose proof (inv_waiters _ Hinv) as Hw.
  destruct (in_flight (transaction_renVM st)); lia.
Qed.

(** When the SDK rejects the RenVM leg, [handleSubmitBoth] goes on:
    the error is recorded on the RenVM leg, and the out leg is submitted
    all the same. *)
Theorem out_starts_after_renVM_failure st e :
  reachable lockProgress_offered lockProgress_valid st ->
  in_flight (transaction_renVM st) = true ->
  let st' := onSdk LegRenVM (Rejected e) st in
  errorSubmitting (useChainTransactionSubmitter LegRenVM (transaction_renVM st'))
    = Some e
  /\ phase (transaction_out st') = Submitting
  /\ calls st' = calls st ++ [LegOut].
Proof.
  intros Hinv%lockProgress_inv Hf. cbn zeta.
  by rewrite (two_leg_rejected _ _ Hinv Hf).
Qed.

(** C12: Once the RenVM leg is done, no run of the lock progress screen
    issues an external submission again; in particular an out leg that
    failed afterwards cannot be submitted again from this screen. *)
Theorem no_submission_after_renVM_done tr st :
  Forall (fun pe => lockProgress_valid pe.1) tr ->
  phase (transaction_renVM st) = Done ->
  calls (run lockProgress_offered tr st) = calls st.
Proof.
  intros Hv Hd.
  by apply (run_after_renVM_done (screen := lockProgress_screen) tr st Hv Hd).
Qed.

(** A progress screen fails to render exactly when the source chain
    has no configuration, or when it has one and the asset has none; the
    chain is looked up first. *)
Theorem lockProgress_render_fails_iff p st e :
  lockProgress_view p st = Err e
  <-> (chainConfigs (params_from_chain (lp_gateway p)) = None
       /\ e = UnknownChain (params_from_chain (lp_gateway p)))
      \/ (is_Some (chainConfigs (params_from_chain (lp_gateway p)))
          /\ assetConfigs (params_asset (lp_gateway p)) = None
          /\ e = UnknownAsset (params_asset (lp_gateway p))).
Proof. apply lockProgress_view_Err. Qed.

(** C35: The composite busy predicate: the lock progress screen offers
    [handleSubmitBoth] exactly when neither leg is submitting, waiting or
    done and the lock is not confirming. *)
Theorem lockProgress_offers_submit_iff p st :
  lockProgress_valid p -> is_Ok (lockProgress_view p st) = true ->
  OnSubmitBoth ∈ lockProgress_offered p st
  <-> busy (transaction_out st) = false /\ busy (transaction_renVM st) = false
      /\ lp_lockStatus p <> Some ChainTransactionStatus.Confirming.
Proof.
  intros Hp Hok. rewrite lockProgress_offered_eq by done.
  rewrite !elem_of_app. split.
  - intros [Hb|[Hd|Hd]]; [|by apply dialogHandlers_hook in Hd as [[=] _]..].
    destruct (busy (transaction_out st)), (busy (transaction_renVM st));
      try (by apply not_elem_of_nil in Hb).
    by case_bool_decide; [apply not_elem_of_nil in Hb|].
  - intros (-> & -> & Hs). left. rewrite bool_decide_eq_false_2 by done. by left.
Qed.

(** C36: The submission is offered before the lock is done: on a freshly
    mounted lock progress screen whose lock has no status yet, is pending or
    has reverted, the button that submits the RenVM and out legs is
    enabled, and a click on it submits the RenVM leg. *)
Theorem submit_offered_before_lock_done p :
  lockProgress_valid p -> is_Ok (lockProgress_view p initial) = true ->
  lp_lockStatus p <> Some ChainTransactionStatus.Confirming ->
  lp_lockStatus p <> Some ChainTransactionStatus.Done ->
  lockProgress_offered p initial = [OnSubmitBoth]
  /\ calls (step lockProgress_offered p (Click OnSubmitBoth) initial) = [LegRenVM].
Proof.
  intros Hp Hok Hc _.
  pose proof (lockProgress_offered_initial p Hp Hok Hc) as Hoff.
  split; [done|]. simpl. rewrite Hoff. by rewrite bool_decide_eq_true_2 by by left.
Qed.

(** When the SDK accepts and completes both legs, one click submits
    them in order: the RenVM leg at the click, the out leg when the RenVM
    leg completes, and the run ends with both legs done, nothing suspended
    and exactly two external submissions. *)
Theorem both_legs_complete p :
  lockProgress_valid p -> is_Ok (lockProgress_view p initial) = true ->
  lp_lockStatus p <> Some ChainTransactionStatus.Confirming ->
  run lockProgress_offered
    [(p, Click OnSubmitBoth); (p, Sdk LegRenVM Accepted);
     (p, Sdk LegRenVM Completed); (p, Sdk LegOut Accepted);
     (p, Sdk LegOut Completed)] initial
  = mkPage wrap (mkSubmission Done None) (mkSubmission Done None) 0
      [LegRenVM; LegOut].
Proof.
  intros Hp Hok Hc.
  pose proof (lockProgress_offered_initial p Hp Hok Hc) as Hoff.
  unfold run; cbn [foldl fst snd]. unfold step at 5. rewrite Hoff.
  by rewrite bool_decide_eq_true_2 by by left.
Qed.

(** The USD equivalent is absent when the price is unknown: the
    receiving block carries a formatted equivalent exactly when
    [outputAmountUsd] is not null, and [null] otherwise, never a
    placeholder amount. *)
Theorem usd_equivalent_absent_iff outputAmount outputAmountUsd renAsset RenIcon :
  let info :=
    find_first AssetInfo (receivingInfo outputAmount outputAmountUsd renAsset RenIcon) in
  (prop "valueEquivalent" <$> info = Some Null <-> outputAmountUsd = None)
  /\ forall usd, outputAmountUsd = Some usd ->
      prop "value" <$> (prop "valueEquivalent" <$> info) = Some (Str usd).
Proof.
  destruct outputAmountUsd as [usd|]; cbv zeta.
  - split.
    + split; [intros Hx; vm_compute in Hx; discriminate | done].
    + intros ? [= <-]. reflexivity.
  - split; [split; intros; reflexivity | done].
Qed.

(** The dialog that asks to switch wallets is the first of the lock
    progress screen, for the target chain of the gateway, and it is open
    exactly when the lock is done and the wallet of the target chain is not
    connected. *)
Theorem switch_wallet_dialog_open_iff p st v :
  lockProgress_view p st = Ok v ->
  find_first SwitchWalletDialog v
  = Some (El SwitchWalletDialog [
            ("open", Bool (showSwitchWalletDialog (lp_lockStatus p) (lp_connected p)));
            ("targetChain", Str (params_to_chain (lp_gateway p)))] [])
  /\ (showSwitchWalletDialog (lp_lockStatus p) (lp_connected p) = true
      <-> lp_lockStatus p = Some ChainTransactionStatus.Done
          /\ lp_connected p = false).
Proof.
  unfold lockProgress_view, MintH2HLockTransactionProgressStatus. simpl.
  intros Hv. destruct (getChainConfig _), (getAssetConfig _); simpl in Hv;
    simplify_result. split; [done|]. unfold showSwitchWalletDialog.
  destruct (lp_connected p); case_bool_decide; naive_solver.
Qed.

(** The mint progress screen shows the processing indicator with the
    text of the RenVM submission exactly while the RenVM status is
    confirming, and the confirmations of the mint otherwise. *)
Theorem mint_processing_iff p st v :
  mintProgress_view p st = Ok v ->
  exists progress, find_first ProgressWithContent v = Some progress
    /\ (prop "processing" progress = Bool true
        <-> mp_renVMStatus p = Some ChainTransactionStatus.Confirming)
    /\ (mp_renVMStatus p <> Some ChainTransactionStatus.Confirming ->
        prop "confirmations" progress
        = undefinedForNull Num (mp_mintConfirmations p)).
Proof.
  unfold mintProgress_view, MintH2HMintTransactionProgressStatus. simpl.
  intros Hv. destruct (getChainConfig _), (getAssetConfig _); simpl in Hv;
    simplify_result.
  case_bool_decide; (eexists; split; [done|]); simpl; naive_solver.
Qed.

End progress_screens.

(** ** Witnesses on the sample collaborators *)

#[local] Existing Instances Sample.i18n Sample.registry.

Lemma sampleLockRun_valid : Forall (fun pe => lock_valid pe.1) sampleLockRun.
Proof. by repeat constructor. Qed.

Lemma sampleProgressRun_valid :
  Forall (fun pe => lockProgress_valid pe.1) sampleProgressRun.
Proof. by repeat constructor. Qed.

Lemma sampleMintRun_valid :
  Forall (fun pe => mintProgress_valid pe.1) sampleMintRun.
Proof. by repeat constructor. Qed.

Lemma sampleLock_configured :
  is_Some (assetConfigs (params_asset (l_gateway sampleLock))).
Proof. by eexists. Qed.

Lemma lock_screen_invariant_witness :
  lock_inv (run lock_offered sampleLockRun initial).
Proof.
  apply lock_screen_invariant, run_reachable, sampleLockRun_valid.
Defined.

Lemma lock_screen_offers_witness :
  lock_offered sampleLock initial = [OnSubmit LegIn].
Proof. by apply (lock_screen_offers sampleLock initial); [|eexists]. Defined.

Lemma lock_second_click_ignored_witness :
  let st1 := step lock_offered sampleLock (Click (OnSubmit LegIn)) initial in
  calls st1 = [LegIn]
  /\ phase (gateway_in st1) = Submitting
  /\ lock_offered sampleLock st1 = []
  /\ step lock_offered sampleLock (Click (OnSubmit LegIn)) st1 = st1.
Proof.
  apply (lock_second_click_ignored sampleLock sampleLock initial); [done..|].
  vm_compute. constructor.
Defined.

Lemma lock_error_reset_retry_witness :
  let st := step lock_offered sampleLock (Click (OnSubmit LegIn)) initial in
  let st1 := step lock_offered sampleLock (Sdk LegIn (Rejected "user denied")) st in
  let st2 := step lock_offered sampleLock (Click (OnReset LegIn)) st1 in
  let st3 := step lock_offered sampleLock (Click (OnSubmit LegIn)) st2 in
  errorSubmitting (useChainTransactionSubmitter LegIn (gateway_in st1))
    = Some "user denied"
  /\ lock_offered sampleLock st1 = [OnSubmit LegIn; OnReset LegIn]
  /\ gateway_in st2 = wrap
  /\ lock_offered sampleLock st2 = [OnSubmit LegIn]
  /\ calls st3 = [LegIn; LegIn]
  /\ phase (gateway_in st3) = Submitting.
Proof.
  exact (lock_error_reset_retry sampleLock "user denied"
           (step lock_offered sampleLock (Click (OnSubmit LegIn)) initial)
           eq_refl sampleLock_configured eq_refl).
Defined.

Lemma lockProgress_invariant_witness :
  two_leg_inv (run lockProgress_offered sampleProgressRun initial).
Proof.
  apply lockProgress_invariant, run_reachable, sampleProgressRun_valid.
Defined.

Lemma mintProgress_invariant_witness :
  two_leg_inv (run mintProgress_offered sampleMintRun initial).
Proof.
  apply mintProgress_invariant, run_reachable, sampleMintRun_valid.
Defined.

Lemma lockProgress_legs_sequenced_witness :
  let st := run lockProgress_offered (take 2 sampleProgressRun) initial in
  in_flight (transaction_renVM st) = true
  /\ in_flight (transaction_renVM st) && in_flight (transaction_out st) = false.
Proof.
  split; [done|].
  apply lockProgress_legs_sequenced, run_reachable.
  by repeat constructor.
Defined.

Lemma lockProgress_submissions_paired_witness :
  let st := run lockProgress_offered sampleProgressRun initial in
  (submissions LegOut st = 1 /\ submissions LegRenVM st = 1)%nat
  /\ (submissions LegOut st <= submissions LegRenVM st
      <= submissions LegOut st + 1)%nat.
Proof.
  split; [done|].
  apply lockProgress_submissions_paired, run_reachable, sampleProgressRun_valid.
Defined.

Lemma out_starts_after_renVM_failure_witness :
  let st := run lockProgress_offered (take 2 sampleProgressRun) initial in
  let st' := onSdk LegRenVM (Rejected "timeout") st in
  errorSubmitting (useChainTransactionSubmitter LegRenVM (transaction_renVM st'))
    = Some "timeout"
  /\ phase (transaction_out st') = Submitting
  /\ calls st' = [LegRenVM; LegOut].
Proof.
  refine (out_starts_after_renVM_failure
            (run lockProgress_offered (take 2 sampleProgressRun) initial)
            "timeout" _ eq_refl).
  apply run_reachable. by repeat constructor.
Defined.

Lemma no_submission_after_renVM_done_witness :
  let st := run lockProgress_offered sampleProgressRun initial in
  phase (transaction_out st) = Errored
  /\ calls (run lockProgress_offered
              [(sampleLockProgress, Click (OnReset LegOut));
               (sampleLockProgress, Click OnSubmitBoth);
               (sampleLockProgress, Click (OnSubmit LegOut))] st)
     = calls st.
Proof.
  split; [done|].
  by apply no_submission_after_renVM_done; [repeat constructor|].
Defined.

Lemma switch_wallet_dialog_open_iff_witness :
  exists v, lockProgress_view sampleLockProgress initial = Ok v
    /\ find_first SwitchWalletDialog v
       = Some (El SwitchWalletDialog [("open", Bool false);
                 ("targetChain", Str "Ethereum")] []).
Proof.
  eexists. split; [by vm_compute|].
  by apply (switch_wallet_dialog_open_iff sampleLockProgress initial).
Defined.

Lemma mint_processing_iff_witness :
  exists v, mintProgress_view sampleMintProgress initial = Ok v
    /\ exists progress, find_first ProgressWithContent v = Some progress
         /\ (prop "processing" progress = Bool true
             <-> mp_renVMStatus sampleMintProgress
                 = Some ChainTransactionStatus.Confirming)
         /\ (mp_renVMStatus sampleMintProgress
               <> Some ChainTransactionStatus.Confirming ->
             prop "confirmations" progress
             = undefinedForNull Num (mp_mintConfirmations sampleMintProgress)).
Proof.
  eexists. split; [by vm_compute|].
  by apply (mint_processing_iff sampleMintProgress initial).
Defined.

Lemma lockProgress_offers_submit_iff_witness :
  OnSubmitBoth ∈ lockProgress_offered sampleLockProgress initial
  <-> busy (transaction_out initial) = false
      /\ busy (transaction_renVM initial) = false
      /\ lp_lockStatus sampleLockProgress
         <> Some ChainTransactionStatus.Confirming.
Proof. by apply (lockProgress_offers_submit_iff sampleLockProgress initial). Defined.

Lemma submit_offered_before_lock_done_witness :
  lockProgress_offered samplePendingLock initial = [OnSubmitBoth]
  /\ calls (step lockProgress_offered samplePendingLock (Click OnSubmitBoth) initial)
     = [LegRenVM].
Proof. by apply (submit_offered_before_lock_done samplePendingLock). Defined.

Lemma both_legs_complete_witness :
  run lockProgress_offered
    [(samplePendingLock, Click OnSubmitBoth);
     (samplePendingLock, Sdk LegRenVM Accepted);
     (samplePendingLock, Sdk LegRenVM Completed);
     (samplePendingLock, Sdk LegOut Accepted);
     (samplePendingLock, Sdk LegOut Completed)] initial
  = mkPage wrap (mkSubmission Done None) (mkSubmission Done None) 0
      [LegRenVM; LegOut].
Proof. by apply (both_legs_complete samplePendingLock). Defined.
