(* ===== verification/CompositeProperties.v ===== *)
(** * CompositeProperties: the lock progress screen against its specification

    The theorems that relate the screens which submit the RenVM and out
    legs together to the composite submission of [H2HSpec]: the refinement
    in both directions and where it fails, the order and the number of the
    external submissions, and that the answers of the SDK come to an end.  They are
    stated of the lock progress screen; they hold of every instance of
    [TwoLegScreen], and [mintProgress_implements_composite] states them of
    the mint progress screen. *)

From Stdlib Require Import ZArith Lia Wellfounded.
From stdpp Require Import base tactics option list numbers strings.
From S2P Require Import Prelude View Submitter Config MintH2H H2HPage.
From S2P Require Import H2HScreens H2HSpec H2HRefinement H2HProgress H2HClosures.
From S2P Require Import H2HComplete.
From S2P Require Import H2HProperties.

(** Answers of the SDK to one submission of both legs, the last one after
    the out leg is done. *)
Definition sampleAnswers : list (Leg * SdkEvent) :=
  [(LegRenVM, Accepted); (LegRenVM, Completed);
   (LegOut, Accepted); (LegOut, Completed); (LegOut, Completed)].

(** A run of the machine: both legs are submitted, the out leg fails and
    its error is dismissed. *)
Definition sampleLabels : list Label :=
  [Begin; FirstSettles true; SecondSettles false; Retry LegOut].

Section composite.
Context `{I18n} `{Registry}.
Implicit Types (st : PageState) (p : LockProgressProps)
  (tr : list (LockProgressProps * Event)).

(** C1: The lock progress screen implements the composite submission:
    every run of the screen, by clicks on what its tree offers and answers
    of the SDK, is a run of the abstract machine that submits the second
    leg when the first has settled, with the steps the run is observed to
    take; and it is a run of the fail-fast machine of the specification as
    long as the RenVM leg is not rejected. *)
Theorem lockProgress_refines_composite tr :
  Forall (fun pe => lockProgress_valid pe.1) tr ->
  let ls := observed lockProgress_offered tr initial in
  let c := abs (run lockProgress_offered tr initial) in
  csteps Continue idle ls c
  /\ (FirstSettles false ∉ ls -> csteps FailFast idle ls c).
Proof.
  intros Hv. split; [|intros Hno].
  - by apply (refines_run (screen := lockProgress_screen)).
  - by apply (refines_run_failfast (screen := lockProgress_screen)).
Qed.

(** C2: The machine describes the screen exactly: every run of the
    composite submission that starts the second leg when the first has
    settled is what a run of the lock progress screen is observed to do.
    The run is computed from the labels, with props that render and a
    lock that is not confirming; it is made of clicks that the tree offers
    and of answers of the SDK, takes the labels in their order and ends in
    the state of the machine. *)
Theorem lockProgress_composite_complete p ls c :
  lockProgress_valid p -> is_Ok (lockProgress_view p initial) = true ->
  lp_lockStatus p <> Some ChainTransactionStatus.Confirming ->
  csteps Continue idle ls c ->
  let tr := realise_run lockProgress_offered p ls initial in
  Forall (fun pe => lockProgress_valid pe.1) tr
  /\ observed lockProgress_offered tr initial = ls
  /\ abs (run lockProgress_offered tr initial) = c.
Proof.
  intros Hp Hok Hc Hrun tr. split.
  - apply (realise_run_valid (screen := lockProgress_screen)), Hp.
  - apply (realise_run_correct (screen := lockProgress_screen)); [done| |done].
    intros h st. by apply lockProgress_offers_all.
Qed.

(** C5: The screen does not implement the fail-fast sequencing of the
    specification: after a click and a rejection of the RenVM leg the out
    leg is in flight beside the failed RenVM leg, which is no state of the
    fail-fast machine. *)
Theorem lockProgress_not_fail_fast p e :
  lockProgress_valid p -> is_Ok (lockProgress_view p initial) = true ->
  lp_lockStatus p <> Some ChainTransactionStatus.Confirming ->
  abs (run lockProgress_offered (rejectedRun p e) initial)
  = mkComposite Failed InFlight [LegRenVM; LegOut]
  /\ ~ creachable FailFast
        (abs (run lockProgress_offered (rejectedRun p e) initial)).
Proof.
  intros Hp Hok Hc.
  apply (rejected_not_failfast (screen := lockProgress_screen)); [done|]; simpl.
  rewrite lockProgress_offered_initial by done. by left.
Qed.

(** C15: The external submissions of the lock progress screen alternate:
    the RenVM leg, the out leg, the RenVM leg, and so on; the out leg is
    never submitted first, and no leg twice in a row. *)
Theorem lockProgress_submissions_alternate tr :
  Forall (fun pe => lockProgress_valid pe.1) tr ->
  calls (run lockProgress_offered tr initial)
  = alternation (length (calls (run lockProgress_offered tr initial))).
Proof. apply (calls_alternate (screen := lockProgress_screen)). Qed.

(** A click causes at most two external submissions: in every run of
    the lock progress screen the SDK is called at most twice as often as
    the button that submits both legs was clicked. *)
Theorem lockProgress_calls_bounded tr :
  Forall (fun pe => lockProgress_valid pe.1) tr ->
  length (calls (run lockProgress_offered tr initial)) <= 2 * clicks tr.
Proof. apply (calls_bounded (screen := lockProgress_screen)). Qed.

(** C21: From a state the lock progress screen can reach, at most four
    answers of the SDK have an effect, however many arrive: two for the
    RenVM leg and two for the out leg. *)
Theorem lockProgress_answers_bounded st evs :
  reachable lockProgress_offered lockProgress_valid st -> effective evs st <= 4.
Proof.
  intros Hinv%(two_leg_invariant (screen := lockProgress_screen)).
  pose proof (effective_pending evs st). pose proof (two_leg_pending st Hinv). lia.
Qed.

(** C16: What [handleSubmitBoth] captured makes no difference: whether
    the call of [out.handleSubmit] that follows the first [await] reads the
    out submitter of the render in which the button was clicked, or the
    submitter as it is when the call is made, every run of the lock
    progress screen ends in the same state.  *)
Theorem lockProgress_closures_equivalent tr :
  Forall (fun pe => lockProgress_valid pe.1) tr ->
  page (runC lockProgress_offered tr initialC)
  = run lockProgress_offered tr initial.
Proof. intros Hv. by apply (captured_run (screen := lockProgress_screen)). Qed.

(** C22: The SDK can always finish what the lock progress screen has
    started: from every state the screen can reach, at most four answers
    bring it to rest, with no leg in flight and no invocation of
    [handleSubmitBoth] suspended. *)
Theorem lockProgress_can_settle st :
  reachable lockProgress_offered lockProgress_valid st ->
  settled (answers (drain st) st) = true /\ length (drain st) <= 4.
Proof.
  intros Hinv%(two_leg_invariant (screen := lockProgress_screen)).
  by apply two_leg_drain.
Qed.

(** C37: The mint progress screen, whose button is disabled by
    [mintStatus] and which shows the RenVM status while it is confirming,
    implements the same composite submission: its runs are runs of the
    [Continue] machine, its submissions alternate between the legs, there
    are at most two of them per click, and what [handleSubmitBoth] captured
    makes no difference. *)
Theorem mintProgress_implements_composite
    (tr : list (MintProgressProps * Event)) :
  Forall (fun pe => mintProgress_valid pe.1) tr ->
  let st := run mintProgress_offered tr initial in
  csteps Continue idle (observed mintProgress_offered tr initial) (abs st)
  /\ calls st = alternation (length (calls st))
  /\ length (calls st) <= 2 * clicks tr
  /\ page (runC mintProgress_offered tr initialC) = st.
Proof.
  intros Hv. split_and!.
  - by apply (refines_run (screen := mintProgress_screen)).
  - by apply (calls_alternate (screen := mintProgress_screen)).
  - by apply (calls_bounded (screen := mintProgress_screen)).
  - by apply (captured_run (screen := mintProgress_screen)).
Qed.

End composite.

(** C11: The answers of the SDK come to an end: there is no infinite
    sequence of answers each of which changes the state of a screen,
    whatever the state it starts from, although an answer that settles the
    RenVM leg starts the out leg. *)
Theorem sdk_answers_terminate : well_founded answered.
Proof.
  apply (wf_incl _ _ (fun st' st => pending st' < pending st)).
  - intros st' st. apply answered_pending.
  - apply wf_inverse_image, lt_wf.
Qed.

#[local] Existing Instances Sample.i18n Sample.registry.

Lemma sampleLockProgress_renders :
  is_Ok (lockProgress_view sampleLockProgress initial) = true.
Proof. reflexivity. Qed.

Lemma lockProgress_refines_composite_witness :
  let ls := [Begin; FirstSettles true; SecondSettles false] in
  let c := mkComposite Succeeded Failed [LegRenVM; LegOut] in
  csteps Continue idle ls c
  /\ (FirstSettles false ∉ ls -> csteps FailFast idle ls c).
Proof.
  exact (lockProgress_refines_composite sampleProgressRun sampleProgressRun_valid).
Defined.

Lemma lockProgress_composite_complete_witness :
  let p := sampleLockProgress in
  let tr := [(p, Click OnSubmitBoth); (p, Sdk LegRenVM Accepted);
             (p, Sdk LegRenVM Completed); (p, Sdk LegOut (Rejected "rejected"));
             (p, Click (OnReset LegOut))] in
  Forall (fun pe => lockProgress_valid pe.1) tr
  /\ observed lockProgress_offered tr initial = sampleLabels
  /\ abs (run lockProgress_offered tr initial)
     = mkComposite Succeeded NotStarted [LegRenVM; LegOut].
Proof.
  exact (lockProgress_composite_complete sampleLockProgress sampleLabels
           (mkComposite Succeeded NotStarted [LegRenVM; LegOut])
           eq_refl sampleLockProgress_renders ltac:(done)
           ltac:(by apply csteps_crun)).
Defined.

Lemma lockProgress_not_fail_fast_witness :
  abs (run lockProgress_offered (rejectedRun sampleLockProgress "timeout") initial)
  = mkComposite Failed InFlight [LegRenVM; LegOut]
  /\ ~ creachable FailFast
        (abs (run lockProgress_offered (rejectedRun sampleLockProgress "timeout")
                initial)).
Proof.
  exact (lockProgress_not_fail_fast sampleLockProgress "timeout" eq_refl
           sampleLockProgress_renders ltac:(done)).
Defined.

Lemma lockProgress_submissions_alternate_witness :
  calls (run lockProgress_offered sampleProgressRun initial) = [LegRenVM; LegOut].
Proof.
  exact (lockProgress_submissions_alternate sampleProgressRun sampleProgressRun_valid).
Defined.

Lemma lockProgress_calls_bounded_witness :
  length (calls (run lockProgress_offered sampleProgressRun initial)) = 2
  /\ length (calls (run lockProgress_offered sampleProgressRun initial))
     <= 2 * clicks sampleProgressRun.
Proof.
  split; [done|].
  exact (lockProgress_calls_bounded sampleProgressRun sampleProgressRun_valid).
Defined.

Lemma lockProgress_answers_bounded_witness :
  let st := run lockProgress_offered (take 1 sampleProgressRun) initial in
  effective sampleAnswers st = 4 /\ effective sampleAnswers st <= 4.
Proof.
  split; [done|].
  apply lockProgress_answers_bounded, run_reachable. by repeat constructor.
Defined.

Lemma lockProgress_closures_equivalent_witness :
  page (runC lockProgress_offered sampleProgressRun initialC)
  = mkPage wrap (mkSubmission Done None) (mkSubmission Errored (Some "reverted")) 0
      [LegRenVM; LegOut].
Proof.
  exact (lockProgress_closures_equivalent sampleProgressRun sampleProgressRun_valid).
Defined.

Lemma lockProgress_can_settle_witness :
  let st := run lockProgress_offered (take 1 sampleProgressRun) initial in
  drain st = [(LegRenVM, Accepted); (LegRenVM, Completed);
              (LegOut, Accepted); (LegOut, Completed)]
  /\ settled (answers (drain st) st) = true /\ length (drain st) <= 4.
Proof.
  split; [done|].
  apply lockProgress_can_settle, run_reachable. by repeat constructor.
Defined.

Lemma mintProgress_implements_composite_witness :
  let st := run mintProgress_offered sampleMintRun initial in
  csteps Continue idle [Begin; FirstSettles false]
    (mkComposite Failed InFlight [LegRenVM; LegOut])
  /\ calls st = [LegRenVM; LegOut]
  /\ length (calls st) <= 2 * clicks sampleMintRun
  /\ page (runC mintProgress_offered sampleMintRun initialC) = st.
Proof.
  exact (mintProgress_implements_composite sampleMintRun sampleMintRun_valid).
Defined.
