(* ===== verification/FlowProperties.v ===== *)
(** * FlowProperties: what holds across the screens of a mint

    The theorems on flows ([H2HFlow]): the screens of MintH2HStatuses.tsx
    shown one after the other, each view with submitters of its own.  What
    a screen guarantees of its own submissions carries over to the log of
    all views where it is a property of the order; the guard of a
    submitter does not: a leg that one view submitted is submitted again
    by the next. *)

From Stdlib Require Import ZArith Lia.
From stdpp Require Import base tactics option list numbers strings.
From S2P Require Import Prelude View Submitter Config MintH2H H2HPage H2HScreens.
From S2P Require Import H2HSpec H2HRefinement H2HProgress H2HFlow H2HProperties.

(** A mint from lock to release: the lock leg on the lock screen, both
    legs on the lock progress screen, all accepted and completed; then the
    mint progress screen is shown. *)
Definition sampleFlow : list FlowEvent :=
  [Show LockScreen;
   AtLock sampleLock (Click (OnSubmit LegIn));
   AtLock sampleLock (Sdk LegIn Accepted);
   AtLock sampleLock (Sdk LegIn Completed);
   Show LockProgressScreen;
   AtLockProgress sampleLockProgress (Click OnSubmitBoth);
   AtLockProgress sampleLockProgress (Sdk LegRenVM Accepted);
   AtLockProgress sampleLockProgress (Sdk LegRenVM Completed);
   AtLockProgress sampleLockProgress (Sdk LegOut Accepted);
   AtLockProgress sampleLockProgress (Sdk LegOut Completed)].

(** The user clicks the button of the mint progress screen. *)
Definition sampleResubmission : list FlowEvent :=
  [Show MintProgressScreen; AtMintProgress sampleMintProgress (Click OnSubmitBoth)].

Section flows.
Context `{I18n} `{Registry}.
Implicit Types (f : Flow) (tr : list FlowEvent).

(** C6: Across the views of a flow the SDK is asked to submit in the
    order the screens keep one by one: the log of the views before is the
    concatenation of their logs, the log of the current view is one more,
    each of them submissions of the lock leg alone or of the RenVM and out
    legs in turn; so in the log of all external submissions every
    submission of the out leg directly follows a submission of the RenVM
    leg, whichever screens were shown in between. *)
Theorem flow_out_follows_renVM tr :
  Forall flow_valid tr ->
  let f := flow_run tr start in
  views (earlier f) /\ view_log (calls (view f))
  /\ forall i, submitted f !! i = Some LegOut ->
       exists j, i = S j /\ submitted f !! j = Some LegRenVM.
Proof.
  intros Hv f. pose proof (flow_views tr Hv) as Hl.
  destruct (flow_invariant tr Hv) as [He Hr].
  split; [done|]. split; [by apply view_reachable_log|].
  intros i. by apply views_out.
Qed.

(** C10: A new view forgets what the views before it submitted: when the
    mint progress screen is mounted in place of another screen, its button
    is enabled unless the mint is confirming, and a click submits the
    RenVM leg again, whatever state that leg had reached in the view
    before. *)
Theorem flow_new_view_resubmits f p :
  shown f <> Some MintProgressScreen ->
  mintProgress_valid p -> is_Ok (mintProgress_view p initial) = true ->
  mp_mintStatus p <> Some ChainTransactionStatus.Confirming ->
  let f' :=
    flow_run [Show MintProgressScreen; AtMintProgress p (Click OnSubmitBoth)] f in
  submitted f' = submitted f ++ [LegRenVM]
  /\ phase (transaction_renVM (view f')) = Submitting.
Proof.
  intros Hs Hp Hok Hc. unfold flow_run, run_events; simpl.
  unfold show. rewrite bool_decide_eq_false_2 by done.
  unfold at_screen; simpl. rewrite mintProgress_offered_initial by done.
  by rewrite bool_decide_eq_true_2 by by left.
Qed.

(** C13: Nothing is submitted that the user did not ask for: over a
    whole flow, whatever the screens shown and the props they receive, the
    SDK is asked to submit at most twice per click on a submit button. *)
Theorem flow_submissions_need_clicks tr :
  length (submitted (flow_run tr start)) <= 2 * submit_clicks tr.
Proof.
  pose proof (flow_potential tr) as Hp. unfold submitted, potential in *.
  rewrite length_app. lia.
Qed.

(** While a screen that submits both legs is shown, its two legs are
    never in flight together. *)
Lemma flow_legs_sequenced tr :
  Forall flow_valid tr ->
  let f := flow_run tr start in
  in_flight (transaction_renVM (view f)) && in_flight (transaction_out (view f))
  = false.
Proof.
  intros [_ Hv]%flow_invariant. simpl. unfold view_reachable in Hv.
  destruct (shown _) as [[]|].
  - apply lock_invariant in Hv. by rewrite (linv_renVM _ Hv).
  - by apply two_leg_exclusive, (two_leg_invariant (screen := lockProgress_screen)).
  - by apply two_leg_exclusive, (two_leg_invariant (screen := mintProgress_screen)).
  - by rewrite Hv.
Qed.

End flows.

#[local] Existing Instances Sample.i18n Sample.registry.

Lemma sampleFlow_valid : Forall flow_valid (sampleFlow ++ sampleResubmission).
Proof. by repeat constructor. Qed.

Lemma flow_out_follows_renVM_witness :
  let l := [LegIn; LegRenVM; LegOut; LegRenVM] in
  views [LegIn; LegRenVM; LegOut] /\ view_log [LegRenVM]
  /\ forall i, l !! i = Some LegOut ->
       exists j, i = S j /\ l !! j = Some LegRenVM.
Proof.
  exact (flow_out_follows_renVM (sampleFlow ++ sampleResubmission) sampleFlow_valid).
Defined.

Lemma flow_new_view_resubmits_witness :
  let f := flow_run sampleFlow start in
  phase (transaction_renVM (view f)) = Done
  /\ submitted (flow_run sampleResubmission f) = [LegIn; LegRenVM; LegOut; LegRenVM]
  /\ phase (transaction_renVM (view (flow_run sampleResubmission f))) = Submitting.
Proof.
  split; [done|].
  exact (flow_new_view_resubmits (flow_run sampleFlow start) sampleMintProgress
           ltac:(done) eq_refl eq_refl ltac:(done)).
Defined.
